(** * dreamscene4d: the PLY to splat / delta-pack binary pipeline

    A shallow embedding of [convert_ply_to_splat.py] and
    [render/pack_deltas.py].

    - Bytes are [Byte.byte]; multi-byte scalars are little-endian
      ([le_combine] / [le_split]).
    - A NumPy [float32] is a [spec_float] handled with the Standard
      Library's IEEE-754 operations at precision 24 and exponent bound 128
      (round to nearest, ties to even).  NaN payloads are not tracked.
    - Every failure of the two tools is a Python exception ([ValueError]
      for most of them) told apart by its type and message; [error] has one
      constructor per message.
    - [np.exp] and the result of a C float-to-integer cast whose value does
      not fit the target type are left abstract (section variables).
    - What the machine and the installation decide is an [Environment]:
      whether the array that [np.fromfile] creates can be allocated, and
      whether plyfile is there to read the files of the converter.  The
      arrays whose size follows the data already read are taken to be
      granted. *)

From Stdlib Require Import ZArith List String Ascii Bool Lia SpecFloat.
From Stdlib Require Import DecimalString Sorted Permutation Reals Lra.
From coqutil Require Import Byte Word.LittleEndianList.
Import ListNotations.
Local Open Scope Z_scope.

(** ** Errors and the error monad *)

Inductive error : Type :=
| NoVertexElement (path : string)
    (* "No vertex element in header: {path}" *)
| UnsupportedType (ptype path : string)
    (* "Unsupported PLY type {ptype} in {path}" *)
| DuplicateField (name : string)
    (* np.dtype: "field '{name}' occurs more than once" *)
| OverflowError
    (* np.fromfile: "Python int too large to convert to C ssize_t" *)
| NegativeDimensions
    (* np.fromfile: "negative dimensions are not allowed" *)
| ArrayTooBig
    (* np.fromfile: "array is too big; `arr.size * arr.dtype.itemsize` is
       larger than the maximum possible size." *)
| MemoryError (nbytes : Z)
    (* np.fromfile: "Unable to allocate ... for an array with shape ..." *)
| MissingVertexData (path : string)
    (* "Missing vertex data in {path}" *)
| PlyfileError (message : string)
    (* what PlyData.read raises *)
| NoField (name : string)
    (* v[name]: "no field of name {name}" *)
| MissingFields (path : string) (missing : list string)
    (* "Missing fields in {path}: {missing}" *)
| MissingColorOpacity (path : string)
    (* "Missing color/opacity in {path}" *)
| MissingScale (path : string)
    (* "Missing scale in {path}" *)
| PointCountMismatch (path : string)
    (* "Point count mismatch in {path}" *)
| MissingFRest (path : string)
    (* "Missing f_rest in {path}" *)
| NoPlyFiles
    (* SystemExit("No .ply files found in {input_dir}") *)
| FileNotFound (path : string)
    (* os.makedirs('') *).

Inductive result (A : Type) : Type :=
| Ok (a : A)
| Err (e : error).
Arguments Ok {A} a.
Arguments Err {A} e.

Definition bind {A B} (r : result A) (k : A -> result B) : result B :=
  match r with
  | Ok a => k a
  | Err e => Err e
  end.

Notation "x <- r ;; k" := (bind r (fun x => k))
  (at level 61, r at next level, right associativity).
Notation "' pat <- r ;; k" := (bind r (fun x => match x with pat => k end))
  (at level 61, pat pattern, r at next level, right associativity).

Fixpoint mapM {A B} (f : A -> result B) (l : list A) : result (list B) :=
  match l with
  | [] => Ok []
  | a :: l' => b <- f a ;; bs <- mapM f l' ;; Ok (b :: bs)
  end.

Definition is_ok {A} (r : result A) : bool :=
  match r with Ok _ => true | Err _ => false end.

(** ** Strings *)

Definition mem_string (s : string) (l : list string) : bool :=
  existsb (String.eqb s) l.

(** ** binary32 and binary64 values *)

Module F32.
Definition prec : Z := 24.
Definition emax : Z := 128.

Definition mul := SFmul prec emax.
Definition add := SFadd prec emax.
Definition sub := SFsub prec emax.
Definition div := SFdiv prec emax.
Definition sqrt := SFsqrt prec emax.
Definition neg := SFopp.
Definition of_Z (z : Z) : spec_float := binary_normalize prec emax z 0 false.

Definition is_nan (x : spec_float) : bool :=
  match x with S754_nan => true | _ => false end.

(** C comparisons: false as soon as one side is NaN. *)
Definition gt (x y : spec_float) : bool :=
  match SFcompare x y with Some Gt => true | _ => false end.
Definition lt (x y : spec_float) : bool := SFltb x y.
Definition ge (x y : spec_float) : bool :=
  match SFcompare x y with Some (Gt | Eq) => true | _ => false end.

(** The IEEE bit pattern. *)
Definition sign_bit (s : bool) : Z := if s then 2 ^ 31 else 0.

Definition to_bits (x : spec_float) : Z :=
  match x with
  | S754_zero s => sign_bit s
  | S754_infinity s => sign_bit s + 255 * 2 ^ 23
  | S754_nan => 255 * 2 ^ 23 + 2 ^ 22
  | S754_finite s m e =>
      if Z.pos m <? 2 ^ 23 then sign_bit s + Z.pos m
      else sign_bit s + (e + 150) * 2 ^ 23 + (Z.pos m - 2 ^ 23)
  end.

Definition of_bits (b : Z) : spec_float :=
  let s := Z.testbit b 31 in
  let ex := (b / 2 ^ 23) mod 2 ^ 8 in
  let fr := b mod 2 ^ 23 in
  if ex =? 0 then
    match fr with Z.pos m => S754_finite s m (-149) | _ => S754_zero s end
  else if ex =? 255 then
    if fr =? 0 then S754_infinity s else S754_nan
  else
    match fr + 2 ^ 23 with
    | Z.pos m => S754_finite s m (ex - 150)
    | _ => S754_nan
    end.

Definition to_bytes (x : spec_float) : list byte := le_split 4 (to_bits x).
Definition of_bytes (bs : list byte) : spec_float := of_bits (le_combine bs).
End F32.

Module F64.
Definition prec : Z := 53.
Definition emax : Z := 1024.

Definition of_Z (z : Z) : spec_float := binary_normalize prec emax z 0 false.

(** A Python decimal literal [num/den] with [num] and [den] both exactly
    representable: the correctly rounded quotient is the nearest double. *)
Definition of_ratio (num den : Z) : spec_float :=
  SFdiv prec emax (of_Z num) (of_Z den).

Definition of_bits (b : Z) : spec_float :=
  let s := Z.testbit b 63 in
  let ex := (b / 2 ^ 52) mod 2 ^ 11 in
  let fr := b mod 2 ^ 52 in
  if ex =? 0 then
    match fr with Z.pos m => S754_finite s m (-1074) | _ => S754_zero s end
  else if ex =? 2047 then
    if fr =? 0 then S754_infinity s else S754_nan
  else
    match fr + 2 ^ 52 with
    | Z.pos m => S754_finite s m (ex - 1075)
    | _ => S754_nan
    end.

Definition of_bytes (bs : list byte) : spec_float := of_bits (le_combine bs).

(** [np.float32(x)] for a double [x]. *)
Definition to_f32 (x : spec_float) : spec_float :=
  match x with
  | S754_finite s m e => binary_round F32.prec F32.emax s m e
  | _ => x
  end.
End F64.

(** A Python float literal used next to a float32 array: NumPy converts the
    double to float32 and computes in float32. *)
Definition f32_literal (num den : Z) : spec_float :=
  F64.to_f32 (F64.of_ratio num den).

(** ** The PLY vertex schema and the record reader ([read_vertices]) *)

Inductive ptype : Type := F4 | F8 | U1 | I1 | I2 | U2 | I4 | U4.

(** [type_map] *)
Definition type_map (tok : string) : option ptype :=
  if String.eqb tok "float" then Some F4
  else if String.eqb tok "float32" then Some F4
  else if String.eqb tok "double" then Some F8
  else if String.eqb tok "uchar" then Some U1
  else if String.eqb tok "uint8" then Some U1
  else if String.eqb tok "char" then Some I1
  else if String.eqb tok "int8" then Some I1
  else if String.eqb tok "short" then Some I2
  else if String.eqb tok "int16" then Some I2
  else if String.eqb tok "ushort" then Some U2
  else if String.eqb tok "uint16" then Some U2
  else if String.eqb tok "int" then Some I4
  else if String.eqb tok "int32" then Some I4
  else if String.eqb tok "uint" then Some U4
  else if String.eqb tok "uint32" then Some U4
  else None.

Definition itemsize (t : ptype) : nat :=
  match t with
  | F4 => 4 | F8 => 8 | U1 => 1 | I1 => 1
  | I2 => 2 | U2 => 2 | I4 => 4 | U4 => 4
  end%nat.

(** A typed scalar read from a record. *)
Inductive scalar : Type :=
| Sf32 (x : spec_float)
| Sf64 (x : spec_float)
| Sint (z : Z).

Definition signed (bits : Z) (z : Z) : Z :=
  if z <? 2 ^ (bits - 1) then z else z - 2 ^ bits.

Definition decode (t : ptype) (bs : list byte) : scalar :=
  match t with
  | F4 => Sf32 (F32.of_bytes bs)
  | F8 => Sf64 (F64.of_bytes bs)
  | U1 | U2 | U4 => Sint (le_combine bs)
  | I1 => Sint (signed 8 (le_combine bs))
  | I2 => Sint (signed 16 (le_combine bs))
  | I4 => Sint (signed 32 (le_combine bs))
  end.

(** [.astype(np.float32)] *)
Definition astype_float32 (v : scalar) : spec_float :=
  match v with
  | Sf32 x => x
  | Sf64 x => F64.to_f32 x
  | Sint z => F32.of_Z z
  end.

(** The header loop leaves [vertex_count] ([None] when no vertex element
    was declared) and [properties] as (name, type token) pairs; the file
    object is positioned at the payload. *)
Record ply_file : Type := {
  vertex_count : option Z;
  properties : list (string * string);
  payload : list byte
}.

Definition np_dtype := list (string * ptype).

(** The structured array returned by [np.fromfile]: the dtype and one byte
    string of [stride] bytes per record. *)
Record vertices : Type := {
  dtype : np_dtype;
  records : list (list byte)
}.

Definition names (v : vertices) : list string := map fst (dtype v).

Definition stride (d : np_dtype) : nat :=
  fold_right (fun f acc => (itemsize (snd f) + acc)%nat) 0%nat d.

(** The first name, in list order, that was met before. *)
Fixpoint first_seen_again (seen l : list string) : option string :=
  match l with
  | [] => None
  | x :: l' =>
      if mem_string x seen then Some x else first_seen_again (x :: seen) l'
  end.

Definition first_duplicate (l : list string) : option string :=
  first_seen_again [] l.

(** [np.dtype(dtype)] takes the fields in order and refuses a name it has
    already taken. *)
Definition make_dtype (d : np_dtype) : result np_dtype :=
  match first_duplicate (map fst d) with
  | Some x => Err (DuplicateField x)
  | None => Ok d
  end.

(** What lies outside the two scripts and decides their outcome.
    - [can_allocate n]: whether NumPy is granted the [n] bytes of the array
      that [np.fromfile] creates before it reads.  The size of that array
      follows the count given in the header (the file when the count is
      negative), not the data that are there.
    - [PlyData]: [None] when plyfile cannot be imported.  Otherwise, for
      the file at a path, what [PlyData.read] and the lookup of its
      [vertex] element give: an exception of the library, [None] when the
      file has no element of that name, or [ply["vertex"].data] as a
      structured array of scalar fields. *)
Class Environment : Type := {
  can_allocate : Z -> bool;
  PlyData : option (string -> ply_file -> result (option vertices))
}.

(** The largest [Py_ssize_t] and [npy_intp]. *)
Definition ssize_max : Z := 2 ^ 63 - 1.

(** [fread]: up to [n] complete items of [size] bytes. *)
Fixpoint read_items (size n : nat) (bs : list byte) : list (list byte) :=
  match n with
  | O => []
  | S n' =>
      if (size <=? List.length bs)%nat
      then firstn size bs :: read_items size n' (skipn size bs)
      else []
  end.

Section Reader.

Context {env : Environment}.

(** [np.fromfile(f, dtype, count)].  [count] is converted to a C
    [Py_ssize_t].  A dtype without fields gives [count] empty records and
    reads nothing.  Otherwise a negative [count] stands for the number of
    complete items left in the file; the array of [num] items is created,
    then filled by [fread], and cut to the complete items that were
    there. *)
Definition fromfile (bs : list byte) (d : np_dtype) (count : Z)
  : result vertices :=
  let size := stride d in
  if (count <? - 2 ^ 63) || (ssize_max <? count) then Err OverflowError
  else if (size =? 0)%nat then
    if count <? 0 then Err NegativeDimensions
    else Ok {| dtype := d; records := repeat [] (Z.to_nat count) |}
  else
    let num :=
      if count <? 0 then Z.of_nat (List.length bs / size) else count in
    let nbytes := num * Z.of_nat size in
    if ssize_max <? nbytes then Err ArrayTooBig
    else if negb (can_allocate nbytes) then Err (MemoryError nbytes)
    else Ok {| dtype := d; records := read_items size (Z.to_nat num) bs |}.

(** The loop [for name, ptype in properties]. *)
Definition map_types (ply_path : string) (props : list (string * string))
  : result np_dtype :=
  mapM (fun p : string * string =>
          match type_map (snd p) with
          | None => Err (UnsupportedType (snd p) ply_path)
          | Some t => Ok (fst p, t)
          end) props.

(** [read_vertices] of pack_deltas.py, which is also what follows the
    [PlyData] branch in [read_vertices] of convert_ply_to_splat.py, once the
    header is read. *)
Definition read_vertices (ply_path : string) (f : ply_file)
  : result vertices :=
  match vertex_count f with
  | None => Err (NoVertexElement ply_path)
  | Some count =>
      d <- map_types ply_path (properties f) ;;
      d <- make_dtype d ;;
      fromfile (payload f) d count
  end.

End Reader.

(** [v[name]]: the column of a field. *)
Fixpoint field_at (d : np_dtype) (name : string) (off : nat)
  : option (nat * ptype) :=
  match d with
  | [] => None
  | (n, t) :: d' =>
      if String.eqb n name then Some (off, t)
      else field_at d' name (off + itemsize t)
  end.

Definition getitem (v : vertices) (name : string) : result (list scalar) :=
  match field_at (dtype v) name 0 with
  | None => Err (NoField name)
  | Some (off, t) =>
      Ok (map (fun r => decode t (firstn (itemsize t) (skipn off r)))
              (records v))
  end.

(** [v[name].astype(np.float32)] *)
Definition getitem_f32 (v : vertices) (name : string)
  : result (list spec_float) :=
  c <- getitem v name ;; Ok (map astype_float32 c).

(** [np.stack(cols, axis=1)] for columns of one length. *)
Fixpoint stack {A} (cols : list (list A)) : list (list A) :=
  match cols with
  | [] => []
  | [c] => map (fun x => [x]) c
  | c :: cs => map (fun p : A * list A => fst p :: snd p) (combine c (stack cs))
  end.

(** [[k for k in required if k not in v.dtype.names]] *)
Definition missing_fields (required : list string) (v : vertices)
  : list string :=
  filter (fun k => negb (mem_string k (names v))) required.

(** [all(k in v.dtype.names for k in ks)] *)
Definition has_all (ks : list string) (v : vertices) : bool :=
  forallb (fun k => mem_string k (names v)) ks.

(** ** Element-wise float32 arithmetic of NumPy *)

Definition f32_zero : spec_float := S754_zero false.
Definition f32_one : spec_float := f32_literal 1 1.

(** [np.maximum]: [(a >= b || isnan(a)) ? a : b]. *)
Definition np_maximum (a b : spec_float) : spec_float :=
  if F32.ge a b || F32.is_nan a then a else b.

(** [np.clip(x, lo, hi)]: [min(max(x, lo), hi)], a NaN goes through. *)
Definition np_clip (x lo hi : spec_float) : spec_float :=
  let y := if F32.is_nan x then x else if F32.gt x lo then x else lo in
  if F32.is_nan y then y else if F32.lt y hi then y else hi.

(** [np.add.reduce] over a short axis: left to right. *)
Definition np_sum (l : list spec_float) : spec_float :=
  match l with
  | [] => f32_zero
  | x :: r => fold_left F32.add r x
  end.

(** [np.linalg.norm(row)]: [sqrt(add.reduce(x * x))]. *)
Definition np_norm (row : list spec_float) : spec_float :=
  F32.sqrt (np_sum (map (fun x => F32.mul x x) row)).

(** The integer part of a finite value (C truncation toward zero). *)
Definition SFtrunc (x : spec_float) : option Z :=
  match x with
  | S754_zero _ => Some 0
  | S754_finite s m e => Some (cond_Zopp s (Z.shiftl (Z.pos m) e))
  | _ => None
  end.

(** The floor of a finite value: [Z.shiftl] by a negative amount is the
    floor of the division by the power of two. *)
Definition SFfloor (x : spec_float) : option Z :=
  match x with
  | S754_zero _ => Some 0
  | S754_finite s m e => Some (Z.shiftl (cond_Zopp s (Z.pos m)) e)
  | _ => None
  end.

Definition SH_C0 : spec_float := f32_literal 282095 1000000.

Definition c_half : spec_float := f32_literal 1 2.
Definition c_255 : spec_float := f32_literal 255 1.
Definition c_128 : spec_float := f32_literal 128 1.
Definition c_1e_8 : spec_float := f32_literal 1 100000000.

(** [clip(SH_C0 * fdc + 0.5, 0.0, 1.0)] *)
Definition decode_color (c : spec_float) : spec_float :=
  np_clip (F32.add (F32.mul SH_C0 c) c_half) f32_zero f32_one.

(** [quat / np.maximum(quat_norm, 1e-8)] on one row. *)
Definition normalize_quat (q : list spec_float) : list spec_float :=
  let d := np_maximum (np_norm q) c_1e_8 in
  map (fun x => F32.div x d) q.

Section Numpy.

(** [np.exp] on float32. *)
Variable exp32 : spec_float -> spec_float.

(** What the platform's C cast float32 -> uint8 returns when the truncated
    value does not fit in [0, 255] or the operand is NaN or infinite
    (undefined behaviour in C). *)
Variable cast_undefined : spec_float -> Z.

(** [.astype(np.uint8)] on float32. *)
Definition astype_uint8 (x : spec_float) : Z :=
  match SFtrunc x with
  | Some z => if (0 <=? z) && (z <=? 255) then z else cast_undefined x
  | None => cast_undefined x
  end.

Definition sigmoid (x : spec_float) : spec_float :=
  F32.div f32_one (F32.add f32_one (exp32 (F32.neg x))).

(** [(rgb * 255.0 + 0.5).astype(np.uint8)] *)
Definition quantize_unit (c : spec_float) : Z :=
  astype_uint8 (F32.add (F32.mul c c_255) c_half).

(** [np.clip(quat * 128.0 + 128.0, 0, 255).astype(np.uint8)] *)
Definition quantize_rot (q : spec_float) : Z :=
  astype_uint8
    (np_clip (F32.add (F32.mul q c_128) c_128) f32_zero c_255).

End Numpy.

(** ** Output files *)

Inductive content : Type :=
| Binary (bs : list byte)
| Text (s : string).

(** The files written so far, newest first. *)
Definition fs : Type := list (string * content).

Definition write (path : string) (c : content) (st : fs) : fs :=
  (path, c) :: st.

(** [arr.tofile] of a float32 array, C order. *)
Definition tofile_f32 (xs : list spec_float) : content :=
  Binary (List.concat (map F32.to_bytes xs)).

(** ** convert_ply_to_splat.py *)

Module ConvertPlyToSplat.

Section WithNumpy.

Context {env : Environment}.
Variable exp32 : spec_float -> spec_float.
Variable cast_undefined : spec_float -> Z.

(** [read_vertices]: through plyfile when it is installed, through the
    header and [np.fromfile] otherwise. *)
Definition read_vertices (ply_path : string) (f : ply_file)
  : result vertices :=
  match PlyData with
  | Some read =>
      ply <- read ply_path f ;;
      match ply with
      | None => Err (MissingVertexData ply_path)
      | Some data => Ok data
      end
  | None => read_vertices ply_path f
  end.

Definition required : list string :=
  ["x"; "y"; "z"; "f_dc_0"; "f_dc_1"; "f_dc_2"; "opacity";
   "scale_0"; "scale_1"; "scale_2"; "rot_0"; "rot_1"; "rot_2"; "rot_3"]%string.

(** One element of the structured output array (32 bytes). *)
Definition splat_record (p s : list spec_float) (rgb : list Z) (a : Z)
    (rot : list Z) : list byte :=
  F32.to_bytes (nth 0 p f32_zero) ++ F32.to_bytes (nth 1 p f32_zero)
  ++ F32.to_bytes (nth 2 p f32_zero)
  ++ F32.to_bytes (nth 0 s f32_zero) ++ F32.to_bytes (nth 1 s f32_zero)
  ++ F32.to_bytes (nth 2 s f32_zero)
  ++ [byte.of_Z (nth 0 rgb 0); byte.of_Z (nth 1 rgb 0);
      byte.of_Z (nth 2 rgb 0); byte.of_Z a]
  ++ [byte.of_Z (nth 0 rot 0); byte.of_Z (nth 1 rot 0);
      byte.of_Z (nth 2 rot 0); byte.of_Z (nth 3 rot 0)].

(** [os.path.dirname(p)] is empty exactly when [p] has no separator. *)
Fixpoint has_sep (p : string) : bool :=
  match p with
  | EmptyString => false
  | String c p' => Ascii.eqb c "/" || has_sep p'
  end.

(** The arrays of [convert_one] before they are written. *)
Record decoded : Type := {
  xyz : list (list spec_float);
  scale : list (list spec_float);
  quat : list (list spec_float);
  rgb_u8 : list (list Z);
  alpha_u8 : list Z;
  rot_u8 : list (list Z)
}.

Definition decode_vertices (ply_path : string) (v : vertices)
  : result decoded :=
  let missing := missing_fields required v in
  match missing with
  | _ :: _ => Err (MissingFields ply_path missing)
  | [] =>
      x <- getitem v "x" ;; y <- getitem v "y" ;; z <- getitem v "z" ;;
      let xyz := map (map astype_float32) (stack [x; y; z]) in
      s0 <- getitem v "scale_0" ;; s1 <- getitem v "scale_1" ;;
      s2 <- getitem v "scale_2" ;;
      let scale := map (map astype_float32) (stack [s0; s1; s2]) in
      let scale := map (map exp32) scale in
      r0 <- getitem v "rot_0" ;; r1 <- getitem v "rot_1" ;;
      r2 <- getitem v "rot_2" ;; r3 <- getitem v "rot_3" ;;
      let quat := map (map astype_float32) (stack [r0; r1; r2; r3]) in
      let quat := map normalize_quat quat in
      c0 <- getitem v "f_dc_0" ;; c1 <- getitem v "f_dc_1" ;;
      c2 <- getitem v "f_dc_2" ;;
      let fdc := map (map astype_float32) (stack [c0; c1; c2]) in
      let rgb := map (map decode_color) fdc in
      let rgb_u8 := map (map (quantize_unit cast_undefined)) rgb in
      op <- getitem_f32 v "opacity" ;;
      let alpha := map (sigmoid exp32) op in
      let alpha_u8 :=
        map (fun a => quantize_unit cast_undefined (np_clip a f32_zero f32_one))
            alpha in
      let rot_u8 := map (map (quantize_rot cast_undefined)) quat in
      Ok {| xyz := xyz; scale := scale; quat := quat; rgb_u8 := rgb_u8;
            alpha_u8 := alpha_u8; rot_u8 := rot_u8 |}
  end.

(** [out = np.empty(xyz.shape[0], dtype)] filled column by column. *)
Definition out_records (d : decoded) : list (list byte) :=
  map (fun j =>
         splat_record (nth j (xyz d) []) (nth j (scale d) [])
                      (nth j (rgb_u8 d) []) (nth j (alpha_u8 d) 0)
                      (nth j (rot_u8 d) []))
      (seq 0 (List.length (xyz d))).

Definition convert_one (ply_path : string) (f : ply_file)
    (splat_path : string) (st : fs) : fs * result unit :=
  match (v <- read_vertices ply_path f ;; decode_vertices ply_path v) with
  | Err e => (st, Err e)
  | Ok d =>
      let out := out_records d in
      if has_sep splat_path
      then (write splat_path (Binary (List.concat out)) st, Ok tt)
      else (st, Err (FileNotFound ""))
  end.

End WithNumpy.

End ConvertPlyToSplat.

(** ** render/pack_deltas.py *)

Module PackDeltas.

(** [Path.suffix]: from the last dot of the name, when that dot is neither
    the first nor the last character. *)
Fixpoint rfind_dot (s : string) (i : nat) : option nat :=
  match s with
  | EmptyString => None
  | String c s' =>
      match rfind_dot s' (S i) with
      | Some j => Some j
      | None => if Ascii.eqb c "." then Some i else None
      end
  end.

Definition suffix (name : string) : string :=
  match rfind_dot name 0 with
  | Some i =>
      if ((0 <? i) && (i <? String.length name - 1))%nat
      then substring i (String.length name - i) name
      else EmptyString
  | None => EmptyString
  end.

Definition lower_ascii (c : ascii) : ascii :=
  let n := nat_of_ascii c in
  if ((65 <=? n) && (n <=? 90))%nat then ascii_of_nat (n + 32) else c.

Fixpoint lower (s : string) : string :=
  match s with
  | EmptyString => EmptyString
  | String c s' => String (lower_ascii c) (lower s')
  end.

(** [p.suffix.lower() == ".ply"] *)
Definition is_ply (name : string) : bool :=
  String.eqb (lower (suffix name)) ".ply".

(** [sorted(...)] on paths of one directory: by name, code point order. *)
Fixpoint insert_by_name {A} (x : string * A) (l : list (string * A))
  : list (string * A) :=
  match l with
  | [] => [x]
  | y :: l' =>
      if String.leb (fst x) (fst y) then x :: l
      else y :: insert_by_name x l'
  end.

Definition sorted {A} (l : list (string * A)) : list (string * A) :=
  fold_right insert_by_name [] l.

(** [arr[i] = f(arr[i])] *)
Fixpoint update_nth {A} (i : nat) (f : A -> A) (l : list A) : list A :=
  match l, i with
  | [], _ => []
  | x :: l', O => f x :: l'
  | x :: l', S i' => x :: update_nth i' f l'
  end.

(** [arr[i, :, :c] = vals] for [vals] of shape (n, c). *)
Definition assign_slab (arr : list (list (list spec_float))) (i c : nat)
    (vals : list (list spec_float)) : list (list (list spec_float)) :=
  update_nth i
    (fun slab =>
       map (fun p : list spec_float * list spec_float =>
              fst p ++ skipn c (snd p))
           (combine vals slab))
    arr.

(** [np.zeros((k, n, c), dtype=np.float32)] *)
Definition zeros (k n c : nat) : list (list (list spec_float)) :=
  repeat (repeat (repeat f32_zero c) n) k.

(** [pos - pos0] for two (n, 3) arrays. *)
Definition sub_rows (a b : list (list spec_float)) : list (list spec_float) :=
  map (fun p : list spec_float * list spec_float =>
         map (fun q : spec_float * spec_float => F32.sub (fst q) (snd q))
             (combine (fst p) (snd p)))
      (combine a b).

(** [arr.tofile] of a float32 array of rank 2 or 3. *)
Definition tofile2 (a : list (list spec_float)) : content :=
  tofile_f32 (List.concat a).

Definition tofile3 (a : list (list (list spec_float))) : content :=
  tofile_f32 (List.concat (List.concat a)).

(** The manifest. *)
Inductive json_value : Type :=
| JInt (n : nat)
| JFloat (x : spec_float)
| JString (s : string)
| JNull.

Definition f_rest_fields : list string :=
  map (fun i => ("f_rest_" ++ NilZero.string_of_uint (Nat.to_uint i))%string)
      (seq 0 27).

Record frame : Type := {
  pos : list (list spec_float);
  rgba : list (list spec_float);
  scale : list (list spec_float);
  f_rest : option (list (list spec_float))
}.

Record arrays : Type := {
  a_delta : list (list (list spec_float));
  a_rgba : list (list (list spec_float));
  a_scale : list (list (list spec_float));
  a_f_rest : option (list (list (list spec_float)))
}.

Section WithNumpy.

Context {env : Environment}.
Variable exp32 : spec_float -> spec_float.

(** [repr] of a Python float, as [json.dumps] prints it. *)
Variable float_repr : spec_float -> string.

Definition quote : string := String "034" EmptyString.
Definition newline : string := String "010" EmptyString.

Definition dumps_value (v : json_value) : string :=
  match v with
  | JInt n => NilZero.string_of_uint (Nat.to_uint n)
  | JFloat x => float_repr x
  | JString s => (quote ++ s ++ quote)%string
  | JNull => "null"
  end.

(** [json.dumps(meta, indent=2)] for a flat dict whose keys and strings
    need no escaping. *)
Definition dumps_item (kv : string * json_value) : string :=
  ("  " ++ quote ++ fst kv ++ quote ++ ": " ++ dumps_value (snd kv))%string.

Definition json_dumps (d : list (string * json_value)) : string :=
  match d with
  | [] => "{}"%string
  | _ =>
      ("{" ++ newline
       ++ String.concat ("," ++ newline) (map dumps_item d)
       ++ newline ++ "}")%string
  end.

Definition load_frame (ply_path : string) (f : ply_file) : result frame :=
  v <- read_vertices ply_path f ;;
  let missing := missing_fields ["x"; "y"; "z"]%string v in
  match missing with
  | _ :: _ => Err (MissingFields ply_path missing)
  | [] =>
      x <- getitem v "x" ;; y <- getitem v "y" ;; z <- getitem v "z" ;;
      let pos := map (map astype_float32) (stack [x; y; z]) in
      let has_fdc := has_all ["f_dc_0"; "f_dc_1"; "f_dc_2"]%string v in
      let has_opacity := mem_string "opacity" (names v) in
      if negb has_fdc || negb has_opacity
      then Err (MissingColorOpacity ply_path)
      else
        c0 <- getitem v "f_dc_0" ;; c1 <- getitem v "f_dc_1" ;;
        c2 <- getitem v "f_dc_2" ;;
        let fdc := map (map astype_float32) (stack [c0; c1; c2]) in
        let color := map (map decode_color) fdc in
        op <- getitem_f32 v "opacity" ;;
        let opacity := map (fun o => [sigmoid exp32 o]) op in
        let has_scales :=
          has_all ["scale_0"; "scale_1"; "scale_2"]%string v in
        if negb has_scales then Err (MissingScale ply_path)
        else
          s0 <- getitem v "scale_0" ;; s1 <- getitem v "scale_1" ;;
          s2 <- getitem v "scale_2" ;;
          let scale := map (map astype_float32) (stack [s0; s1; s2]) in
          let scale := map (map exp32) scale in
          let rgba :=
            map (fun p : list spec_float * list spec_float => fst p ++ snd p)
                (combine color opacity) in
          fr <- (if has_all f_rest_fields v
                 then cols <- mapM (getitem v) f_rest_fields ;;
                      Ok (Some (map (map astype_float32) (stack cols)))
                 else Ok None) ;;
          Ok {| pos := pos; rgba := rgba; scale := scale; f_rest := fr |}
  end.

(** The body of [for i, ply_path in enumerate(files)]. *)
Fixpoint pack_frames (i : nat) (files : list (string * ply_file))
    (pos0 : list (list spec_float)) (n_points : nat) (a : arrays)
  : result arrays :=
  match files with
  | [] => Ok a
  | (ply_path, f) :: files' =>
      fr <- load_frame ply_path f ;;
      if negb (List.length (pos fr) =? n_points)%nat
      then Err (PointCountMismatch ply_path)
      else
        let delta := assign_slab (a_delta a) i 3 (sub_rows (pos fr) pos0) in
        let rgba := assign_slab (a_rgba a) i 4 (rgba fr) in
        let scale := assign_slab (a_scale a) i 3 (scale fr) in
        fr_arr <- match a_f_rest a with
                  | Some arr =>
                      match f_rest fr with
                      | None => Err (MissingFRest ply_path)
                      | Some frest => Ok (Some (assign_slab arr i 27 frest))
                      end
                  | None => Ok None
                  end ;;
        pack_frames (S i) files' pos0 n_points
          {| a_delta := delta; a_rgba := rgba; a_scale := scale;
             a_f_rest := fr_arr |}
  end.

Definition meta (n_points k_frames : nat) (fps : spec_float)
    (has_f_rest : bool) : list (string * json_value) :=
  [("width", JInt n_points);
   ("height", JInt k_frames);
   ("points", JInt n_points);
   ("frames", JInt k_frames);
   ("fps", JFloat fps);
   ("rgba", JString "rgba.bin");
   ("scale", JString "scale.bin");
   ("frest", if has_f_rest then JString "frest.bin" else JNull)]%string.

(** [input_dir] is the directory listing (name, file); the written paths
    are relative to [output_dir]. *)
Definition main (input_dir : list (string * ply_file)) (fps : spec_float)
    (st : fs) : fs * result unit :=
  let files := sorted (filter (fun p => is_ply (fst p)) input_dir) in
  match files with
  | [] => (st, Err NoPlyFiles)
  | (path0, f0) :: _ =>
      let packed :=
        fr0 <- load_frame path0 f0 ;;
        let n_points := List.length (pos fr0) in
        let k_frames := List.length files in
        let a0 :=
          {| a_delta := zeros k_frames n_points 4;
             a_rgba := zeros k_frames n_points 4;
             a_scale := zeros k_frames n_points 4;
             a_f_rest :=
               match f_rest fr0 with
               | Some _ => Some (zeros k_frames n_points 27)
               | None => None
               end |} in
        a <- pack_frames 0 files (pos fr0) n_points a0 ;;
        Ok (fr0, a) in
      match packed with
      | Err e => (st, Err e)
      | Ok (fr0, a) =>
          let n_points := List.length (pos fr0) in
          let k_frames := List.length files in
          let st := write "pos0.bin" (tofile2 (pos fr0)) st in
          let st := write "delta.bin" (tofile3 (a_delta a)) st in
          let st := write "rgba.bin" (tofile3 (a_rgba a)) st in
          let st := write "scale.bin" (tofile3 (a_scale a)) st in
          let st :=
            match a_f_rest a with
            | Some arr => write "frest.bin" (tofile3 arr) st
            | None => st
            end in
          let m :=
            meta n_points k_frames fps
              (match a_f_rest a with Some _ => true | None => false end) in
          (write "meta.json" (Text (json_dumps m)) st, Ok tt)
      end
  end.

End WithNumpy.

End PackDeltas.

(** ** The PLY header: [read_vertices] before [np.fromfile] *)

Module Header.

(** What the header code raises besides the errors of [error]. *)
Inductive header_error : Type :=
| UnexpectedEOF (path : string)
    (* ValueError("Unexpected EOF in header: {path}") *)
| NotBinaryLittleEndian (path : string)
    (* ValueError("Only binary_little_endian supported: {path}") *)
| IndexError
    (* parts[1], parts[2]: "list index out of range" *)
| IntValueError (tok : string)
    (* int(parts[2]): "invalid literal for int() with base 10", or the
       digit limit exceeded *).

Inductive header_result (A : Type) : Type :=
| Parsed (a : A)
| Raised (e : header_error).
Arguments Parsed {A} a.
Arguments Raised {A} e.

(** [f.readline()] on a binary file: the bytes up to and including the next
    newline, all remaining bytes when there is none; and what is left of
    the file. *)
Fixpoint readline (bs : list byte) : list byte * list byte :=
  match bs with
  | [] => ([], [])
  | b :: bs' =>
      if Byte.eqb b Byte.x0a then ([b], bs')
      else let (line, rest) := readline bs' in (b :: line, rest)
  end.

(** [line.decode("ascii", errors="ignore")]: bytes of 128 and more are
    dropped. *)
Definition decode_ascii (line : list byte) : string :=
  string_of_list_ascii
    (map ascii_of_byte (filter (fun b => byte.unsigned b <? 128) line)).

(** [str.isspace] on one ASCII character: TAB, LF, VT, FF, CR, the four
    separators FS, GS, RS, US, and the space. *)
Definition isspace (c : ascii) : bool :=
  let n := nat_of_ascii c in
  ((9 <=? n) && (n <=? 13) || (28 <=? n) && (n <=? 32))%nat.

Fixpoint lstrip (s : string) : string :=
  match s with
  | EmptyString => EmptyString
  | String c s' => if isspace c then lstrip s' else s
  end.

Fixpoint rstrip (s : string) : string :=
  match s with
  | EmptyString => EmptyString
  | String c s' =>
      match rstrip s' with
      | EmptyString => if isspace c then EmptyString else String c EmptyString
      | r => String c r
      end
  end.

(** [s.strip()] *)
Definition strip (s : string) : string := rstrip (lstrip s).

(** [s.split()]: the maximal runs of characters that are not whitespace. *)
Fixpoint split (s : string) : list string :=
  match s with
  | EmptyString => []
  | String c s' =>
      if isspace c then split s'
      else
        match s' with
        | EmptyString => [String c EmptyString]
        | String c' _ =>
            if isspace c' then String c EmptyString :: split s'
            else
              match split s' with
              | t :: ts => String c t :: ts
              | [] => [String c EmptyString]
              end
        end
  end.

(** The decimal digits of [int(s)]: at least one digit, and single
    underscores only between two digits.  [after_digit] tells whether the
    previous character was a digit. *)
Definition digit_of (c : ascii) : option Z :=
  let n := nat_of_ascii c in
  if ((48 <=? n) && (n <=? 57))%nat then Some (Z.of_nat (n - 48)) else None.

Fixpoint int_digits (acc : Z) (after_digit : bool) (s : string) : option Z :=
  match s with
  | EmptyString => if after_digit then Some acc else None
  | String c s' =>
      match digit_of c with
      | Some d => int_digits (10 * acc + d) true s'
      | None =>
          if Ascii.eqb c "_" && after_digit then int_digits acc false s'
          else None
      end
  end.

Fixpoint count_digits (s : string) : nat :=
  match s with
  | EmptyString => O
  | String c s' =>
      match digit_of c with
      | Some _ => S (count_digits s')
      | None => count_digits s'
      end
  end.

(** [int(s)] for a string without whitespace: an optional sign and the
    digits.  [max_str_digits] is [sys.get_int_max_str_digits()]: 0 for no
    limit (and before the limit existed), 4300 by default since. *)
Definition python_int (max_str_digits : nat) (s : string) : option Z :=
  if ((0 <? max_str_digits) && (max_str_digits <? count_digits s))%nat
  then None
  else
    match s with
    | String "-" s' => option_map Z.opp (int_digits 0 false s')
    | String "+" s' => int_digits 0 false s'
    | _ => int_digits 0 false s
    end.

(** The [while True] loop.  Every turn takes at least one byte off the
    file, so [fuel] above the length of the file is never used up. *)
Fixpoint header_loop (fuel : nat) (bs : list byte)
    (header_lines : list string) : option (list string * list byte) :=
  match fuel with
  | O => None
  | S fuel' =>
      match readline bs with
      | ([], _) => None
      | (line, rest) =>
          let s := strip (decode_ascii line) in
          let header_lines := (header_lines ++ [s])%list in
          if String.eqb s "end_header" then Some (header_lines, rest)
          else header_loop fuel' rest header_lines
      end
  end.

(** The variables of the [for line in header] loop. *)
Record scan : Type := {
  seen_count : option Z;
  seen_properties : list (string * string);
  in_vertex : bool
}.

Section WithLimit.

Context {env : Environment}.
Variable max_str_digits : nat.

(** One turn of [for line in header]. *)
Definition scan_line (s : scan) (line : string) : header_result scan :=
  match split line with
  | [] => Parsed s
  | p0 :: parts =>
      if String.eqb p0 "element" then
        match parts with
        | [] => Raised IndexError
        | p1 :: parts' =>
            if String.eqb p1 "vertex" then
              match parts' with
              | [] => Raised IndexError
              | p2 :: _ =>
                  match python_int max_str_digits p2 with
                  | None => Raised (IntValueError p2)
                  | Some n =>
                      Parsed {| seen_count := Some n;
                                seen_properties := seen_properties s;
                                in_vertex := true |}
                  end
              end
            else
              Parsed {| seen_count := seen_count s;
                        seen_properties := seen_properties s;
                        in_vertex := false |}
        end
      else if String.eqb p0 "property" && in_vertex s then
        match parts with
        | p1 :: p2 :: _ =>
            Parsed {| seen_count := seen_count s;
                      seen_properties :=
                        (seen_properties s ++ [(p2, p1)])%list;
                      in_vertex := in_vertex s |}
        | _ => Raised IndexError
        end
      else Parsed s
  end.

Fixpoint scan_lines (s : scan) (header : list string) : header_result scan :=
  match header with
  | [] => Parsed s
  | line :: header' =>
      match scan_line s line with
      | Parsed s' => scan_lines s' header'
      | Raised e => Raised e
      end
  end.

(** The header of the file at [ply_path], whose bytes are [file]. *)
Definition parse_header (ply_path : string) (file : list byte)
  : header_result ply_file :=
  match header_loop (S (List.length file)) file [] with
  | None => Raised (UnexpectedEOF ply_path)
  | Some (header, rest) =>
      if negb (mem_string "format binary_little_endian 1.0" header)
      then Raised (NotBinaryLittleEndian ply_path)
      else
        match scan_lines {| seen_count := None; seen_properties := [];
                            in_vertex := false |} header with
        | Raised e => Raised e
        | Parsed s =>
            Parsed {| vertex_count := seen_count s;
                      properties := seen_properties s;
                      payload := rest |}
        end
  end.

(** [read_vertices(ply_path)] from the bytes of the file. *)
Definition read_vertices (ply_path : string) (file : list byte)
  : header_result (result vertices) :=
  match parse_header ply_path file with
  | Raised e => Raised e
  | Parsed f => Parsed (read_vertices ply_path f)
  end.

End WithLimit.

End Header.

(** ** [main] of convert_ply_to_splat.py *)

Module ConvertPlyToSplatMain.

(** [Path.stem]: the name without its suffix. *)
Definition stem (name : string) : string :=
  match PackDeltas.rfind_dot name 0 with
  | Some i =>
      if ((0 <? i) && (i <? String.length name - 1))%nat
      then substring 0 i name
      else name
  | None => name
  end.

Fixpoint ends_with_slash (p : string) : bool :=
  match p with
  | EmptyString => false
  | String c EmptyString => Ascii.eqb c "/"
  | String _ p' => ends_with_slash p'
  end.

(** [str(dir / name)] for [dir] the string of a path ([str(Path(...))]: "."
    for the empty path, no trailing separator but for a root) and [name] a
    single component. *)
Definition joinpath (dir name : string) : string :=
  if String.eqb dir "." then name
  else if ends_with_slash dir then (dir ++ name)%string
  else (dir ++ "/" ++ name)%string.

Section WithNumpy.

Context {env : Environment}.
Variable exp32 : spec_float -> spec_float.
Variable cast_undefined : spec_float -> Z.

(** [for ply_path in files] *)
Fixpoint convert_files (input_dir output_dir : string)
    (files : list (string * ply_file)) (st : fs) : fs * result unit :=
  match files with
  | [] => (st, Ok tt)
  | (name, f) :: files' =>
      let splat_path := joinpath output_dir (stem name ++ ".splat") in
      match ConvertPlyToSplat.convert_one exp32 cast_undefined
              (joinpath input_dir name) f splat_path st with
      | (st', Ok _) => convert_files input_dir output_dir files' st'
      | (st', Err e) => (st', Err e)
      end
  end.

(** [input_dir] and [output_dir] are the strings of the two paths,
    [listing] the entries of the input directory (name, file). *)
Definition main (input_dir : string) (listing : list (string * ply_file))
    (output_dir : string) (st : fs) : fs * result unit :=
  let files :=
    PackDeltas.sorted
      (filter (fun p : string * ply_file => PackDeltas.is_ply (fst p))
              listing) in
  match files with
  | [] => (st, Err NoPlyFiles)
  | _ => convert_files input_dir output_dir files st
  end.

End WithNumpy.

End ConvertPlyToSplatMain.

(** * Vocabulary of the statements *)

(** The value of field [name] in one record. *)
Definition field_of (d : np_dtype) (name : string) (r : list byte) : scalar :=
  match field_at d name 0 with
  | Some (off, t) => decode t (firstn (itemsize t) (skipn off r))
  | None => Sint 0
  end.

Definition field_f32 (d : np_dtype) (name : string) (r : list byte)
  : spec_float :=
  astype_float32 (field_of d name r).

(** The number of records that [np.fromfile] asks of the file for the
    count [count]: the complete records of the payload when it is
    negative. *)
Definition requested (d : np_dtype) (bs : list byte) (count : Z) : nat :=
  if count <? 0 then (List.length bs / stride d)%nat else Z.to_nat count.

(** The array of that many records can be created: the count is a
    [Py_ssize_t], the size in bytes is an [npy_intp], and the bytes are
    granted. *)
Definition array_granted {env : Environment} (d : np_dtype) (bs : list byte)
    (count : Z) : Prop :=
  - 2 ^ 63 <= count <= ssize_max
  /\ Z.of_nat (requested d bs count * stride d) <= ssize_max
  /\ can_allocate (Z.of_nat (requested d bs count * stride d)) = true.

Section Vocabulary.

Context {env : Environment}.
Variable exp32 : spec_float -> spec_float.
Variable cast_undefined : spec_float -> Z.
Variable float_repr : spec_float -> string.

Import PackDeltas.

(** The 32-byte SplatRecord of one input record, field by field:
    position, post-exponential scale, RGBA, quantized rotation. *)
Definition SplatRecord (d : np_dtype) (r : list byte) : list byte :=
  let f name := field_f32 d name r in
  let q := normalize_quat [f "rot_0"; f "rot_1"; f "rot_2"; f "rot_3"]%string in
  F32.to_bytes (f "x"%string) ++ F32.to_bytes (f "y"%string)
  ++ F32.to_bytes (f "z"%string)
  ++ F32.to_bytes (exp32 (f "scale_0"%string))
  ++ F32.to_bytes (exp32 (f "scale_1"%string))
  ++ F32.to_bytes (exp32 (f "scale_2"%string))
  ++ [byte.of_Z (quantize_unit cast_undefined (decode_color (f "f_dc_0"%string)));
      byte.of_Z (quantize_unit cast_undefined (decode_color (f "f_dc_1"%string)));
      byte.of_Z (quantize_unit cast_undefined (decode_color (f "f_dc_2"%string)));
      byte.of_Z (quantize_unit cast_undefined
                   (np_clip (sigmoid exp32 (f "opacity"%string))
                            f32_zero f32_one))]
  ++ map (fun x => byte.of_Z (quantize_rot cast_undefined x)) q.


(** The frame of a vertex buffer, point by point. *)
Definition frame_of (v : vertices) : frame :=
  let f name r := field_f32 (dtype v) name r in
  {| pos := map (fun r => [f "x" r; f "y" r; f "z" r]%string) (records v);
     rgba :=
       map (fun r => [decode_color (f "f_dc_0" r);
                      decode_color (f "f_dc_1" r);
                      decode_color (f "f_dc_2" r);
                      sigmoid exp32 (f "opacity" r)]%string) (records v);
     scale :=
       map (fun r => [exp32 (f "scale_0" r); exp32 (f "scale_1" r);
                      exp32 (f "scale_2" r)]%string) (records v);
     f_rest :=
       if has_all f_rest_fields v
       then Some (map (fun r => map (fun n => f n r) f_rest_fields)
                      (records v))
       else None |}.

Definition loads (nf : string * ply_file) (fr : frame) : Prop :=
  load_frame exp32 (fst nf) (snd nf) = Ok fr.

(** The slabs written for one frame. *)
Definition delta_slab (pos0 : list (list spec_float)) (fr : frame) :=
  map (fun r => r ++ [f32_zero]) (sub_rows (pos fr) pos0).

Definition scale_slab (fr : frame) :=
  map (fun r => r ++ [f32_zero]) (scale fr).

Definition f_rest_slab (fr : frame) : list (list spec_float) :=
  match f_rest fr with Some x => x | None => [] end.

Definition ply_files (input_dir : list (string * ply_file)) :=
  sorted (filter (fun p : string * ply_file => is_ply (fst p)) input_dir).

Definition has_f_rest (fr : frame) : bool :=
  match f_rest fr with Some _ => true | None => false end.

(** A sequence that passes every validation of [main]. *)
Definition valid_sequence (files : list (string * ply_file))
    (frames : list frame) (fr0 : frame) : Prop :=
  Forall2 loads files frames
  /\ hd_error frames = Some fr0
  /\ Forall (fun fr => List.length (pos fr) = List.length (pos fr0)
                       /\ (has_f_rest fr0 = true -> f_rest fr <> None))
            frames.

Definition written (files : list (string * ply_file)) (frames : list frame)
    (fr0 : frame) (fps : spec_float) (st : fs) : fs :=
  let st := write "pos0.bin" (tofile2 (pos fr0)) st in
  let st := write "delta.bin"
              (tofile3 (map (delta_slab (pos fr0)) frames)) st in
  let st := write "rgba.bin" (tofile3 (map rgba frames)) st in
  let st := write "scale.bin" (tofile3 (map scale_slab frames)) st in
  let st := if has_f_rest fr0
            then write "frest.bin" (tofile3 (map f_rest_slab frames)) st
            else st in
  write "meta.json"
    (Text (json_dumps float_repr
             (meta (List.length (pos fr0)) (List.length files) fps
                   (has_f_rest fr0)))) st.

End Vocabulary.

Definition name_le {A} (a b : string * A) : Prop :=
  String.leb (fst a) (fst b) = true.

Definition is_finite (x : spec_float) : bool :=
  match x with
  | S754_zero _ | S754_finite _ _ _ => true
  | _ => false
  end.

Definition coord (rows : list (list spec_float)) (j c : nat) : spec_float :=
  nth c (nth j rows []) f32_zero.

Definition wide (w : nat) (rows : list (list spec_float)) : Prop :=
  Forall (fun r => List.length r = w) rows.

Definition basic_fields : list string :=
  ["x"; "y"; "z"; "f_dc_0"; "f_dc_1"; "f_dc_2"; "opacity";
   "scale_0"; "scale_1"; "scale_2"]%string.

(** ** binary32 rounding *)

Definition fexp32 (e : Z) : Z := Z.max (e - 24) (-149).

Definition bra_result (s : bool) (m e : Z) : spec_float :=
  match m with
  | Z0 => S754_zero s
  | Z.pos p => if e <=? 104 then S754_finite s p e else S754_infinity s
  | Z.neg _ => S754_nan
  end.

(** The three shapes of a rounded positive-or-zero number. *)
Inductive rounded (s : bool) (E : Z) : spec_float -> Prop :=
| rounded_zero : rounded s E (S754_zero s)
| rounded_inf : rounded s E (S754_infinity s)
| rounded_fin m e :
    Z.pos m < 2 ^ 24 -> E <= e <= 104 -> rounded s E (S754_finite s m e).

Definition pow2 (k : Z) : R := powerRZ 2 k.

(** The real number a float stands for (0 for NaN and the infinities). *)
Definition val (x : spec_float) : R :=
  match x with
  | S754_finite s m e =>
      ((if s then -1 else 1) * IZR (Z.pos m) * pow2 e)%R
  | _ => 0%R
  end.

Definition bounded32 (x : spec_float) : Prop :=
  match x with
  | S754_finite _ m e => Z.pos m < 2 ^ 24 /\ e <= 104
  | _ => True
  end.

Definition not_nan (x : spec_float) : Prop := F32.is_nan x = false.

(** The float [k + 1/2]. *)
Definition half_odd (k : Z) : spec_float :=
  binary_normalize F32.prec F32.emax (2 * k + 1) (-1) false.

(** What [np.clip(x, 0.0, 1.0)] returns. *)
Inductive unit_color : spec_float -> Prop :=
| unit_zero : unit_color (S754_zero false)
| unit_one : unit_color f32_one
| unit_frac m e :
    Z.pos m < 2 ^ 24 ->
    e < -23 \/ (e = -23 /\ Z.pos m < 2 ^ 23) ->
    unit_color (S754_finite false m e).

(** Zero, a positive finite number or plus infinity. *)
Definition nonneg32 (x : spec_float) : Prop :=
  match x with
  | S754_nan => False
  | S754_zero s | S754_infinity s | S754_finite s _ _ => s = false
  end.

Definition pinf : spec_float := S754_infinity false.

(** ** Concrete inputs *)

(** Closed examples need one function in place of [np.exp], of the
    undefined cast and of [repr], and one environment; the theorems they
    instantiate hold for every such function and every environment. *)
Definition exp32_example (x : spec_float) : spec_float := f32_one.

(** Every array is granted, and plyfile is not installed. *)
Definition env_example : Environment :=
  {| can_allocate := fun _ => true; PlyData := None |}.

(** No array above a kilobyte is granted. *)
Definition env_small : Environment :=
  {| can_allocate := fun n => n <=? 1024; PlyData := None |}.

Definition cast_example (x : spec_float) : Z := 0.

Definition float_repr_example (x : spec_float) : string := "12.0".

Definition fps_example : spec_float := F64.of_Z 12.

Definition float_fields (ns : list string) : list (string * string) :=
  map (fun n => (n, "float"%string)) ns.

(** A PLY of [n] declared points whose payload holds [k] all-zero
    records of the given float fields. *)
Definition zero_ply (ns : list string) (n : Z) (k : nat) : ply_file :=
  {| vertex_count := Some n;
     properties := float_fields ns;
     payload := repeat Byte.x00 (k * (4 * List.length ns)) |}.

Definition xyz_fields : list string := ["x"; "y"; "z"]%string.

(** C1: two points with all fourteen fields. *)
Definition splat_ply : ply_file :=
  zero_ply ConvertPlyToSplat.required 2 2.

(** C6: the fourteen fields but for [scale_0] and [scale_1]. *)
Definition no_scale01_fields : list string :=
  ["x"; "y"; "z"; "f_dc_0"; "f_dc_1"; "f_dc_2"; "opacity";
   "scale_2"; "rot_0"; "rot_1"; "rot_2"; "rot_3"]%string.

(** C4: the ten basic fields and [f_rest_0] alone. *)
Definition partial_rest_fields : list string :=
  (basic_fields ++ ["f_rest_0"])%list%string.

(** A frame file of [k] points with the ten basic fields. *)
Definition frame_ply (k : nat) : ply_file :=
  zero_ply basic_fields (Z.of_nat k) k.

(** C3: three frames, the third one point short of the base. *)
Definition short_sequence : list (string * ply_file) :=
  [("frame_002.ply", frame_ply 1); ("notes.txt", frame_ply 2);
   ("frame_000.ply", frame_ply 2); ("frame_001.ply", frame_ply 2)]%string.

(** C7, C8: four frames of five points, no colour detail. *)
Definition good_sequence : list (string * ply_file) :=
  [("frame_003.ply", frame_ply 5); ("frame_001.ply", frame_ply 5);
   ("frame_000.ply", frame_ply 5); ("frame_002.PLY", frame_ply 5)]%string.

(** C7: two frames of one point whose [x] is plus infinity (the pattern
    7f800000), the other nine fields zero. *)
Definition infinite_x_record : list byte :=
  [Byte.x00; Byte.x00; Byte.x80; Byte.x7f] ++ repeat Byte.x00 36.

Definition infinite_x_ply : ply_file :=
  {| vertex_count := Some 1;
     properties := float_fields basic_fields;
     payload := infinite_x_record |}.

Definition infinite_x_sequence : list (string * ply_file) :=
  [("frame_000.ply", infinite_x_ply); ("frame_001.ply", infinite_x_ply)]%string.

Definition infinite_x_frame : PackDeltas.frame :=
  frame_of exp32_example
    {| dtype := map (fun n => (n, F4)) basic_fields;
       records := [infinite_x_record] |}.

(** C9: the double [2 ^ 200], a finite number, as the eight bytes of a
    [double] field. *)
Definition double_2_200 : list byte :=
  [Byte.x00; Byte.x00; Byte.x00; Byte.x00;
   Byte.x00; Byte.x00; Byte.x70; Byte.x4c].

Definition good_frame : PackDeltas.frame :=
  frame_of exp32_example
    {| dtype := map (fun n => (n, F4)) basic_fields;
       records := repeat (repeat Byte.x00 40) 5 |}.

(** ** Vocabulary: header text *)

(** The bytes of an ASCII string. *)
Definition encode (s : string) : list byte :=
  map byte_of_ascii (list_ascii_of_string s).

(** A token: not empty, printable ASCII without the space. *)
Definition is_graph (c : ascii) : bool :=
  ((33 <=? nat_of_ascii c) && (nat_of_ascii c <=? 126))%nat.

Fixpoint all_graph (s : string) : bool :=
  match s with
  | EmptyString => true
  | String c s' => is_graph c && all_graph s'
  end.

Definition is_word (s : string) : bool :=
  negb (String.eqb s "") && all_graph s.

(** A line made of tokens with one space between them. *)
Definition line_of (toks : list string) : string := String.concat " " toks.

Definition LF : list byte := [Byte.x0a].
Definition CRLF : list byte := [Byte.x0d; Byte.x0a].

(** The text of a header: every line followed by [eol]. *)
Definition header_text (eol : list byte) (lines : list (list string))
  : list byte :=
  List.concat (map (fun toks => (encode (line_of toks) ++ eol)%list) lines).

Definition binary_format : list string :=
  ["format"; "binary_little_endian"; "1.0"]%string.

Definition property_line (p : string * string) : list string :=
  ["property"; snd p; fst p]%string.

(** The lines of a header that declares the vertex element alone. *)
Definition vertex_header (format : list string) (count : string)
    (props : list (string * string)) : list (list string) :=
  [["ply"%string]; format; ["element"%string; "vertex"%string; count]]
  ++ map property_line props.

Definition end_header : list (list string) := [["end_header"%string]].

Definition words (toks : list string) : Prop :=
  Forall (fun t => is_word t = true) toks.

(** A line of a foreign element: anything but the opening of the vertex
    element (an [element] line needs a name, other than [vertex]). *)
Definition is_foreign (toks : list string) : bool :=
  match toks with
  | p0 :: parts =>
      if String.eqb p0 "element" then
        match parts with
        | name :: _ => negb (String.eqb name "vertex")
        | [] => false
        end
      else true
  | [] => true
  end.

(** ** Vocabulary: the run of the single-frame converter *)

Section ConvertVocabulary.

Context {env : Environment}.
Variable exp32 : spec_float -> spec_float.
Variable cast_undefined : spec_float -> Z.

(** The [.splat] file of a vertex buffer: one [SplatRecord] per record. *)
Definition splat_bytes (v : vertices) : list byte :=
  List.concat (map (SplatRecord exp32 cast_undefined (dtype v)) (records v)).

Definition splat_path (output_dir name : string) : string :=
  ConvertPlyToSplatMain.joinpath output_dir
    (ConvertPlyToSplatMain.stem name ++ ".splat").

(** The file [name] of [input_dir] has the fourteen fields and converts to
    [out]. *)
Definition converts (input_dir : string) (nf : string * ply_file)
    (out : list byte) : Prop :=
  exists v,
    ConvertPlyToSplat.read_vertices
      (ConvertPlyToSplatMain.joinpath input_dir (fst nf)) (snd nf)
    = Ok v
    /\ has_all ConvertPlyToSplat.required v = true
    /\ out = splat_bytes v.

(** The files written for [files], newest first. *)
Definition splat_files (output_dir : string)
    (files : list (string * ply_file)) (outs : list (list byte)) : fs :=
  rev (map (fun p : (string * ply_file) * list byte =>
              (splat_path output_dir (fst (fst p)), Binary (snd p)))
           (combine files outs)).

End ConvertVocabulary.

(** ** Concrete inputs: colour detail, headers, directories *)

(** The ten basic fields followed by the 27 fields of colour detail. *)
Definition detail_fields : list string :=
  (basic_fields ++ PackDeltas.f_rest_fields)%list.

Definition detail_ply (k : nat) : ply_file :=
  zero_ply detail_fields (Z.of_nat k) k.

(** Two frames of two points with colour detail. *)
Definition detail_sequence : list (string * ply_file) :=
  [("frame_001.ply", detail_ply 2); ("frame_000.ply", detail_ply 2)]%string.

Definition detail_frame : PackDeltas.frame :=
  frame_of exp32_example
    {| dtype := map (fun n => (n, F4)) detail_fields;
       records := repeat (repeat Byte.x00 148) 2 |}.

(** A base with colour detail and a second frame without. *)
Definition mixed_sequence : list (string * ply_file) :=
  [("frame_000.ply", detail_ply 2); ("frame_001.ply", frame_ply 2)]%string.

(** The buffer read from [splat_ply]. *)
Definition splat_vertices : vertices :=
  {| dtype := map (fun n => (n, F4)) ConvertPlyToSplat.required;
     records := repeat (repeat Byte.x00 56) 2 |}.

Definition splat_listing : list (string * ply_file) :=
  [("b.ply", splat_ply); ("notes.txt", splat_ply);
   ("a.PLY", splat_ply)]%string.

(** A directory whose second [.ply] file lacks two scale fields. *)
Definition broken_listing : list (string * ply_file) :=
  [("b.ply", zero_ply no_scale01_fields 1 1); ("a.ply", splat_ply);
   ("c.ply", splat_ply)]%string.

Definition xyz_properties : list (string * string) := float_fields xyz_fields.

(** The text of a header with Windows line ends, and a file of two points. *)
Definition xyz_header : list byte :=
  header_text CRLF (vertex_header binary_format "2" xyz_properties ++ end_header).

Definition xyz_file : list byte := (xyz_header ++ repeat Byte.x00 24)%list.

Definition ascii_format : list string := ["format"; "ascii"; "1.0"]%string.

Definition face_lines : list (list string) :=
  [["comment"; "faces"];
   ["property"; "list"; "uchar"; "int"; "vertex_indices"];
   ["element"; "edge"; "0"];
   ["property"; "int"; "vertex1"]]%string.

(** * Lemmas and theorems *)

(** * Lists and strings *)

Lemma mem_string_In s l : mem_string s l = true <-> In s l.
Proof.
  unfold mem_string. rewrite existsb_exists. split.
  - intros [x [Hin Heq]]. apply String.eqb_eq in Heq. now subst.
  - intros Hin. exists s. split; [assumption | apply String.eqb_refl].
Qed.

Lemma mem_string_false s l : mem_string s l = false <-> ~ In s l.
Proof.
  rewrite <- mem_string_In. destruct (mem_string s l); split; congruence.
Qed.

Lemma missing_fields_spec required v k :
  In k (missing_fields required v) <-> In k required /\ ~ In k (names v).
Proof.
  unfold missing_fields. rewrite filter_In, negb_true_iff, mem_string_false.
  reflexivity.
Qed.

Lemma missing_fields_nil required v :
  missing_fields required v = [] <-> has_all required v = true.
Proof.
  unfold missing_fields, has_all. induction required as [|k ks IH]; simpl.
  - tauto.
  - destruct (mem_string k (names v)); simpl; [exact IH | split; discriminate].
Qed.

(** * The record reader *)

Lemma read_items_length size n bs :
  (0 < size)%nat ->
  List.length (read_items size n bs) = Nat.min n (List.length bs / size).
Proof.
  intros Hsize. revert bs. induction n as [|n IH]; intros bs; simpl.
  - reflexivity.
  - destruct (Nat.leb_spec size (List.length bs)) as [Hle | Hlt].
    + simpl. rewrite IH, length_skipn.
      assert (Hdiv : (List.length bs / size
                      = S ((List.length bs - size) / size))%nat).
      { replace (List.length bs) with (1 * size + (List.length bs - size))%nat
          at 1 by lia.
        rewrite Nat.div_add_l by lia. reflexivity. }
      rewrite Hdiv. reflexivity.
    + rewrite Nat.div_small by assumption. reflexivity.
Qed.

Lemma read_items_stride size n bs :
  Forall (fun r => List.length r = size) (read_items size n bs).
Proof.
  revert bs. induction n as [|n IH]; intros bs; simpl.
  - constructor.
  - destruct (Nat.leb_spec size (List.length bs)) as [Hle | Hlt].
    + constructor; [rewrite length_firstn; lia | apply IH].
    + constructor.
Qed.

Lemma read_items_nth size n bs j :
  (j < List.length (read_items size n bs))%nat ->
  nth j (read_items size n bs) [] = firstn size (skipn (size * j) bs).
Proof.
  revert bs j. induction n as [|n IH]; intros bs j; simpl.
  - lia.
  - destruct (Nat.leb_spec size (List.length bs)) as [Hle | Hlt]; simpl; [|lia].
    destruct j as [|j]; intros Hj.
    + now rewrite Nat.mul_0_r.
    + rewrite IH by lia. rewrite skipn_skipn. do 2 f_equal. lia.
Qed.

Section RecordReader.

Context {env : Environment}.

(** [np.fromfile] on a dtype with fields: it succeeds exactly when the
    array can be created, and then holds what [fread] finds. *)
Lemma fromfile_granted bs d count :
  stride d <> 0%nat ->
  array_granted d bs count ->
  fromfile bs d count
  = Ok {| dtype := d;
          records := read_items (stride d) (requested d bs count) bs |}.
Proof.
  intros Hs (Hc & Hfit & Hmem). unfold fromfile.
  destruct (Z.ltb_spec count (- 2 ^ 63)) as [H | _]; [lia|].
  destruct (Z.ltb_spec ssize_max count) as [H | _]; [lia|].
  cbn [orb].
  destruct (Nat.eqb_spec (stride d) 0) as [H0 | _]; [contradiction|].
  assert (Hn : (if count <? 0
                then Z.of_nat (List.length bs / stride d) else count)
               = Z.of_nat (requested d bs count)).
  { unfold requested. destruct (Z.ltb_spec count 0); [reflexivity | lia]. }
  rewrite Hn, <- Nat2Z.inj_mul.
  destruct (Z.ltb_spec ssize_max
              (Z.of_nat (requested d bs count * stride d))) as [H | _];
    [lia|].
  rewrite Hmem. cbn [negb]. now rewrite Nat2Z.id.
Qed.

Lemma fromfile_inv bs d count v :
  stride d <> 0%nat ->
  fromfile bs d count = Ok v ->
  array_granted d bs count
  /\ v = {| dtype := d;
            records := read_items (stride d) (requested d bs count) bs |}.
Proof.
  intros Hs. unfold fromfile.
  destruct (Z.ltb_spec count (- 2 ^ 63)) as [H | Hlo]; [discriminate|].
  destruct (Z.ltb_spec ssize_max count) as [H | Hhi]; [discriminate|].
  cbn [orb].
  destruct (Nat.eqb_spec (stride d) 0) as [H0 | _]; [contradiction|].
  assert (Hn : (if count <? 0
                then Z.of_nat (List.length bs / stride d) else count)
               = Z.of_nat (requested d bs count)).
  { unfold requested. destruct (Z.ltb_spec count 0); [reflexivity | lia]. }
  rewrite Hn, <- Nat2Z.inj_mul.
  destruct (Z.ltb_spec ssize_max
              (Z.of_nat (requested d bs count * stride d))) as [H | Hfit];
    [discriminate|].
  destruct (can_allocate (Z.of_nat (requested d bs count * stride d)))
    eqn:Hmem; [|discriminate].
  cbn [negb]. rewrite Nat2Z.id. intros [= <-].
  split; [|reflexivity]. repeat split; assumption.
Qed.



Lemma read_vertices_ok path f count d :
  vertex_count f = Some count ->
  0 <= count ->
  map_types path (properties f) = Ok d ->
  first_duplicate (map fst d) = None ->
  stride d <> 0%nat ->
  array_granted d (payload f) count ->
  exists v,
    read_vertices path f = Ok v
    /\ dtype v = d
    /\ List.length (records v)
       = Nat.min (Z.to_nat count) (List.length (payload f) / stride d)
    /\ Forall (fun r => List.length r = stride d) (records v).
Proof.
  intros Hc Hpos Hd Hdup Hs Hg. unfold read_vertices. rewrite Hc, Hd.
  cbn [bind]. unfold make_dtype. rewrite Hdup. cbn [bind].
  rewrite (fromfile_granted _ _ _ Hs Hg).
  eexists. split; [reflexivity|]. cbn [dtype records].
  split; [reflexivity|].
  assert (Hreq : requested d (payload f) count = Z.to_nat count).
  { unfold requested. destruct (Z.ltb_spec count 0); [lia | reflexivity]. }
  rewrite Hreq. split.
  - apply read_items_length. lia.
  - apply read_items_stride.
Qed.

(** C5, as amended. The statement is about [read_vertices] of pack_deltas.py, which is also the reader of the converter when plyfile is not installed. For a schema of supported, distinctly named fields with a non-zero record size that declares [count >= 0] records, and when the array of [count] records can be created (its size in bytes is within [ssize_max] and granted by the allocator), the record reader does not fail on the payload: it returns the complete records that are present, [min count (length / stride)] of them, each of [stride] bytes. A truncated payload therefore yields fewer than [count] records. *)
Theorem read_vertices_complete_records path f count d :
  vertex_count f = Some count ->
  0 <= count ->
  map_types path (properties f) = Ok d ->
  first_duplicate (map fst d) = None ->
  stride d <> 0%nat ->
  count * Z.of_nat (stride d) <= ssize_max ->
  can_allocate (count * Z.of_nat (stride d)) = true ->
  exists v,
    read_vertices path f = Ok v
    /\ (PlyData = None -> ConvertPlyToSplat.read_vertices path f = Ok v)
    /\ dtype v = d
    /\ List.length (records v)
       = Nat.min (Z.to_nat count) (List.length (payload f) / stride d)
    /\ Forall (fun r => List.length r = stride d) (records v).
Proof.
  intros Hc Hpos Hd Hdup Hs Hfit Hmem.
  assert (Hreq : Z.of_nat (requested d (payload f) count * stride d)
                 = count * Z.of_nat (stride d)).
  { unfold requested. destruct (Z.ltb_spec count 0); [lia|].
    rewrite Nat2Z.inj_mul, Z2Nat.id by assumption. reflexivity. }
  assert (Hg : array_granted d (payload f) count).
  { unfold array_granted. rewrite Hreq. repeat split; try assumption; [lia|].
    assert (1 <= Z.of_nat (stride d)) by lia. nia. }
  destruct (read_vertices_ok path f count d Hc Hpos Hd Hdup Hs Hg)
    as (v & Hv & Hrest).
  exists v. split; [exact Hv|]. split; [|exact Hrest].
  intros Hnone. unfold ConvertPlyToSplat.read_vertices. now rewrite Hnone.
Qed.

End RecordReader.

(** * Columns and rows *)

Lemma field_at_present d name off :
  In name (map fst d) -> exists o t, field_at d name off = Some (o, t).
Proof.
  revert off. induction d as [|[n t] d IH]; intros off Hin; simpl in *.
  - contradiction.
  - destruct (String.eqb_spec n name) as [-> | Hne].
    + eauto.
    + destruct Hin as [Heq | Hin]; [contradiction | apply IH, Hin].
Qed.

Lemma getitem_present v name :
  In name (names v) ->
  getitem v name = Ok (map (field_of (dtype v) name) (records v)).
Proof.
  intros Hin. unfold getitem, field_of.
  destruct (field_at_present (dtype v) name 0%nat Hin) as [o [t ->]].
  reflexivity.
Qed.

Lemma getitem_f32_present v name :
  In name (names v) ->
  getitem_f32 v name = Ok (map (field_f32 (dtype v) name) (records v)).
Proof.
  intros Hin. unfold getitem_f32. rewrite getitem_present by assumption.
  simpl. now rewrite map_map.
Qed.

Lemma has_all_In ks v k : has_all ks v = true -> In k ks -> In k (names v).
Proof.
  unfold has_all. rewrite forallb_forall. intros H Hin.
  apply mem_string_In, H, Hin.
Qed.

Lemma stack3_map {A B} (g1 g2 g3 : A -> B) rows :
  stack [map g1 rows; map g2 rows; map g3 rows]
  = map (fun r => [g1 r; g2 r; g3 r]) rows.
Proof. induction rows as [|r rows IH]; simpl in *; congruence. Qed.

Lemma stack4_map {A B} (g1 g2 g3 g4 : A -> B) rows :
  stack [map g1 rows; map g2 rows; map g3 rows; map g4 rows]
  = map (fun r => [g1 r; g2 r; g3 r; g4 r]) rows.
Proof. induction rows as [|r rows IH]; simpl in *; congruence. Qed.

Lemma map_seq_nth {A B} (F : nat -> B) (G : A -> B) (l : list A) :
  (forall j d, (j < List.length l)%nat -> F j = G (nth j l d)) ->
  map F (seq 0 (List.length l)) = map G l.
Proof.
  revert F. induction l as [|a l IH]; intros F HF; simpl.
  - reflexivity.
  - f_equal.
    + apply (HF 0%nat a). simpl. lia.
    + rewrite <- seq_shift, map_map. apply IH.
      intros j d Hj. apply (HF (S j) d). simpl. lia.
Qed.

Lemma nth_map_in {A B} (g : A -> B) l j d d' :
  (j < List.length l)%nat -> nth j (map g l) d' = g (nth j l d).
Proof.
  intros Hj. rewrite (nth_indep _ d' (g d)) by (now rewrite length_map).
  apply map_nth.
Qed.

(** Chunks of one size laid end to end. *)
Lemma concat_length_uniform {A} (k : nat) (l : list (list A)) :
  Forall (fun r => List.length r = k) l ->
  List.length (List.concat l) = (k * List.length l)%nat.
Proof.
  induction 1 as [|r l Hr _ IH]; simpl.
  - lia.
  - rewrite length_app, IH, Hr. lia.
Qed.

Lemma concat_chunk {A} (k : nat) (l : list (list A)) j :
  Forall (fun r => List.length r = k) l ->
  (j < List.length l)%nat ->
  firstn k (skipn (k * j) (List.concat l)) = nth j l [].
Proof.
  intros Hall. revert j. induction Hall as [|r l Hr _ IH]; intros j Hj; simpl in *.
  - lia.
  - destruct j as [|j].
    + rewrite Nat.mul_0_r. simpl. rewrite firstn_app, Hr, Nat.sub_diag.
      simpl. rewrite app_nil_r, <- Hr. apply firstn_all.
    + replace (k * S j)%nat with (List.length r + k * j)%nat by lia.
      rewrite skipn_app, skipn_all2 by lia. simpl.
      replace (List.length r + k * j - List.length r)%nat with (k * j)%nat by lia.
      apply IH. lia.
Qed.

Section SingleFrame.

Context {env : Environment}.
Variable exp32 : spec_float -> spec_float.
Variable cast_undefined : spec_float -> Z.

Import ConvertPlyToSplat.


Lemma decode_vertices_rows path v :
  has_all required v = true ->
  exists d,
    decode_vertices exp32 cast_undefined path v = Ok d
    /\ List.length (xyz d) = List.length (records v)
    /\ out_records d = map (SplatRecord exp32 cast_undefined (dtype v)) (records v).
Proof.
  intros Hall.
  assert (Hin : forall k, In k required -> In k (names v))
    by (intros k; apply has_all_In, Hall).
  unfold decode_vertices.
  apply missing_fields_nil in Hall. rewrite Hall.
  rewrite !getitem_present, getitem_f32_present
    by (apply Hin; unfold required; simpl; tauto).
  cbn [bind]. rewrite !stack3_map, stack4_map, !map_map.
  eexists. split; [reflexivity|].
  split; [cbn [xyz]; now rewrite length_map|].
  unfold out_records.
  cbn [xyz ConvertPlyToSplat.scale rgb_u8 alpha_u8 rot_u8].
  rewrite length_map.
  apply map_seq_nth. intros j r0 Hj.
  rewrite !(nth_map_in _ _ _ r0) by assumption.
  reflexivity.
Qed.





End SingleFrame.

(** * Frames of the delta packer *)

Lemma combine_map_same {A B C} (g : A -> B) (h : A -> C) l :
  combine (map g l) (map h l) = map (fun r => (g r, h r)) l.
Proof. induction l as [|a l IH]; simpl; congruence. Qed.

Lemma stack_maps {A B} (gs : list (A -> B)) rows :
  gs <> [] ->
  stack (map (fun g => map g rows) gs)
  = map (fun r => map (fun g => g r) gs) rows.
Proof.
  induction gs as [|g gs IH]; intros Hne; [contradiction|].
  destruct gs as [|g' gs].
  - simpl. now rewrite map_map.
  - change (stack (map (fun g0 => map g0 rows) (g :: g' :: gs)))
      with (map (fun p : B * list B => fst p :: snd p)
              (combine (map g rows)
                 (stack (map (fun g0 => map g0 rows) (g' :: gs))))).
    rewrite IH by discriminate.
    rewrite combine_map_same, map_map. reflexivity.
Qed.

Lemma mapM_getitem v ks :
  (forall k, In k ks -> In k (names v)) ->
  mapM (getitem v) ks
  = Ok (map (fun g => map g (records v)) (map (field_of (dtype v)) ks)).
Proof.
  induction ks as [|k ks IH]; intros Hin; simpl.
  - reflexivity.
  - rewrite getitem_present by (apply Hin; now left).
    cbn [bind]. rewrite IH by (intros k' Hk'; apply Hin; now right).
    reflexivity.
Qed.

Section Frames.

Context {env : Environment}.
Variable exp32 : spec_float -> spec_float.

Import PackDeltas.

(** Every outcome of [load_frame] on a buffer that was read. *)
Lemma load_frame_cases path f v :
  read_vertices path f = Ok v ->
  load_frame exp32 path f =
    match missing_fields ["x"; "y"; "z"]%string v with
    | _ :: _ => Err (MissingFields path (missing_fields ["x"; "y"; "z"]%string v))
    | [] =>
        if negb (has_all ["f_dc_0"; "f_dc_1"; "f_dc_2"]%string v)
           || negb (mem_string "opacity" (names v))
        then Err (MissingColorOpacity path)
        else if negb (has_all ["scale_0"; "scale_1"; "scale_2"]%string v)
        then Err (MissingScale path)
        else Ok (frame_of exp32 v)
    end.
Proof.
  intros Hv. unfold load_frame. rewrite Hv. cbn [bind].
  destruct (missing_fields ["x"; "y"; "z"]%string v) eqn:Hm; [|reflexivity].
  apply missing_fields_nil in Hm.
  rewrite !getitem_present
    by (eapply has_all_In; [exact Hm | simpl; tauto]).
  cbn [bind].
  destruct (has_all ["f_dc_0"; "f_dc_1"; "f_dc_2"]%string v) eqn:Hc;
    [|reflexivity].
  destruct (mem_string "opacity" (names v)) eqn:Ho; [|reflexivity].
  cbn [negb orb].
  rewrite !getitem_present
    by (eapply has_all_In; [exact Hc | simpl; tauto]).
  cbn [bind].
  rewrite getitem_f32_present by (now apply mem_string_In).
  cbn [bind].
  destruct (has_all ["scale_0"; "scale_1"; "scale_2"]%string v) eqn:Hs;
    [|reflexivity].
  cbn [negb].
  rewrite !getitem_present
    by (eapply has_all_In; [exact Hs | simpl; tauto]).
  cbn [bind].
  rewrite !stack3_map, !map_map.
  rewrite combine_map_same, map_map.
  unfold frame_of.
  destruct (has_all f_rest_fields v) eqn:Hr.
  - rewrite mapM_getitem by (intros k; apply has_all_In, Hr).
    cbn [bind].
    rewrite stack_maps by discriminate.
    rewrite !map_map. reflexivity.
  - cbn [bind]. reflexivity.
Qed.

End Frames.

(** * The packing loop *)

Lemma update_nth_app {A} (f : A -> A) l1 x l2 :
  PackDeltas.update_nth (List.length l1) f (l1 ++ x :: l2) = l1 ++ f x :: l2.
Proof. induction l1 as [|a l1 IH]; simpl; congruence. Qed.

Lemma skipn_repeat {A} (z : A) c w : skipn c (repeat z w) = repeat z (w - c).
Proof.
  revert c. induction w as [|w IH]; intros [|c]; simpl; auto.
Qed.

Lemma assign_zero_slab (vals : list (list spec_float)) c w :
  map (fun p : list spec_float * list spec_float => fst p ++ skipn c (snd p))
      (combine vals (repeat (repeat f32_zero w) (List.length vals)))
  = map (fun r => r ++ repeat f32_zero (w - c)) vals.
Proof.
  induction vals as [|r vals IH]; simpl.
  - reflexivity.
  - rewrite IH, skipn_repeat. reflexivity.
Qed.

Lemma assign_slab_next done_ vals c w k tail i n :
  List.length done_ = i -> List.length vals = n ->
  PackDeltas.assign_slab (done_ ++ PackDeltas.zeros (S k) n w ++ tail)
    i c vals
  = (done_ ++ [map (fun r => r ++ repeat f32_zero (w - c)) vals])
    ++ PackDeltas.zeros k n w ++ tail.
Proof.
  intros <- <-.
  unfold PackDeltas.assign_slab, PackDeltas.zeros. simpl.
  rewrite update_nth_app, assign_zero_slab, <- app_assoc. reflexivity.
Qed.

Section Loop.

Context {env : Environment}.
Variable exp32 : spec_float -> spec_float.

Import PackDeltas.

Lemma load_frame_inv path f fr :
  load_frame exp32 path f = Ok fr ->
  exists v, read_vertices path f = Ok v /\ fr = frame_of exp32 v.
Proof.
  intros H. destruct (read_vertices path f) as [v|e] eqn:Hv.
  - exists v. split; [reflexivity|].
    erewrite load_frame_cases in H by exact Hv.
    destruct (missing_fields _ v); [|discriminate].
    destruct (_ || _); [discriminate|].
    destruct (negb _); [discriminate|]. congruence.
  - unfold load_frame in H. rewrite Hv in H. discriminate.
Qed.

(** All arrays of a loaded frame have one row per point. *)
Lemma load_frame_shape path f fr :
  load_frame exp32 path f = Ok fr ->
  List.length (rgba fr) = List.length (pos fr)
  /\ List.length (scale fr) = List.length (pos fr)
  /\ forall x, f_rest fr = Some x -> List.length x = List.length (pos fr).
Proof.
  intros H. destruct (load_frame_inv _ _ _ H) as [v [_ ->]].
  unfold frame_of. cbn [pos rgba scale f_rest].
  rewrite !length_map. repeat split.
  intros x. destruct (has_all f_rest_fields v); [|discriminate].
  intros [= <-]. now rewrite length_map.
Qed.

Lemma sub_rows_length a b :
  List.length a = List.length b -> List.length (sub_rows a b) = List.length a.
Proof.
  intros H. unfold sub_rows. rewrite length_map, length_combine. lia.
Qed.

Lemma map_app_nil (l : list (list spec_float)) :
  map (fun r => r ++ []) l = l.
Proof. induction l; simpl; rewrite ?app_nil_r; congruence. Qed.

Lemma pack_frames_ok files : forall frames i pos0 dd dr ds df td tr ts tf
    (has_rest : bool),
  Forall2 (loads exp32) files frames ->
  Forall (fun fr => List.length (pos fr) = List.length pos0
                    /\ (has_rest = true -> f_rest fr <> None)) frames ->
  List.length dd = i -> List.length dr = i -> List.length ds = i ->
  List.length df = i ->
  pack_frames exp32 i files pos0 (List.length pos0)
    {| a_delta := dd ++ zeros (List.length files) (List.length pos0) 4 ++ td;
       a_rgba := dr ++ zeros (List.length files) (List.length pos0) 4 ++ tr;
       a_scale := ds ++ zeros (List.length files) (List.length pos0) 4 ++ ts;
       a_f_rest :=
         if has_rest
         then Some (df ++ zeros (List.length files) (List.length pos0) 27
                       ++ tf)
         else None |}
  = Ok {| a_delta := dd ++ map (delta_slab pos0) frames ++ td;
          a_rgba := dr ++ map rgba frames ++ tr;
          a_scale := ds ++ map scale_slab frames ++ ts;
          a_f_rest := if has_rest
                      then Some (df ++ map f_rest_slab frames ++ tf)
                      else None |}.
Proof.
  induction files as [|[p f] files IH];
    intros frames i pos0 dd dr ds df td tr ts tf has_rest
           Hload Hall Hdd Hdr Hds Hdf;
    inversion Hload as [|? fr ? frames' Hl Hload']; subst.
  - destruct has_rest; reflexivity.
  - inversion Hall as [|? ? [Hn Hrest] Hall']; subst.
    unfold loads in Hl. simpl in Hl.
    cbn [pack_frames List.length]. rewrite Hl. cbn [bind].
    destruct (load_frame_shape _ _ _ Hl) as [Hr [Hs Hf]].
    rewrite Hn, Nat.eqb_refl. cbn [negb a_delta a_rgba a_scale a_f_rest].
    rewrite (assign_slab_next dd (sub_rows (pos fr) pos0) 3 4 _ td _ _
               eq_refl (eq_trans (sub_rows_length _ _ Hn) Hn)).
    rewrite (assign_slab_next dr (rgba fr) 4 4 _ tr _ _ Hdr
               (eq_trans Hr Hn)).
    rewrite (assign_slab_next ds (scale fr) 3 4 _ ts _ _ Hds
               (eq_trans Hs Hn)).
    cbn [Nat.sub repeat]. rewrite map_app_nil.
    fold (delta_slab pos0 fr). fold (scale_slab fr).
    destruct has_rest.
    + destruct (f_rest fr) as [x|] eqn:Hx;
        [|exfalso; now apply Hrest].
      cbn [bind].
      rewrite (assign_slab_next df x 27 27 _ tf _ _ Hdf
                 (eq_trans (Hf x eq_refl) Hn)).
      cbn [Nat.sub repeat]. rewrite map_app_nil.
      rewrite (IH frames' (S (List.length dd)) pos0
                 (dd ++ [delta_slab pos0 fr]) (dr ++ [rgba fr])
                 (ds ++ [scale_slab fr]) (df ++ [x]) td tr ts tf true);
        try assumption; try (rewrite length_app; simpl; lia).
      cbn [map]. unfold f_rest_slab at 2. rewrite Hx.
      rewrite <- !app_assoc. reflexivity.
    + cbn [bind].
      rewrite (IH frames' (S (List.length dd)) pos0
                 (dd ++ [delta_slab pos0 fr]) (dr ++ [rgba fr])
                 (ds ++ [scale_slab fr]) (df ++ [[]]) td tr ts tf false);
        try assumption; try (rewrite length_app; simpl; lia).
      cbn [map]. rewrite <- !app_assoc. reflexivity.
Qed.

End Loop.

(** * Ordering of the frames *)

Lemma insert_by_name_perm {A} (x : string * A) l :
  Permutation (PackDeltas.insert_by_name x l) (x :: l).
Proof.
  induction l as [|y l IH]; simpl.
  - apply Permutation_refl.
  - destruct (String.leb (fst x) (fst y)).
    + apply Permutation_refl.
    + eapply perm_trans; [apply perm_skip, IH | apply perm_swap].
Qed.

Lemma sorted_perm {A} (l : list (string * A)) :
  Permutation (PackDeltas.sorted l) l.
Proof.
  induction l as [|x l IH]; simpl.
  - apply perm_nil.
  - eapply perm_trans; [apply insert_by_name_perm | apply perm_skip, IH].
Qed.

Lemma insert_by_name_hd {A} (x y : string * A) l :
  name_le y x -> HdRel name_le y l ->
  HdRel name_le y (PackDeltas.insert_by_name x l).
Proof.
  intros Hyx Hhd. destruct l as [|z l]; simpl.
  - now constructor.
  - destruct (String.leb (fst x) (fst z)); constructor.
    + exact Hyx.
    + now inversion Hhd.
Qed.

Lemma insert_by_name_sorted {A} (x : string * A) l :
  Sorted name_le l -> Sorted name_le (PackDeltas.insert_by_name x l).
Proof.
  induction 1 as [|y l Hs IH Hhd]; simpl.
  - repeat constructor.
  - destruct (String.leb (fst x) (fst y)) eqn:Hxy.
    + constructor; [now constructor | now constructor].
    + constructor; [exact IH|].
      apply insert_by_name_hd; [|exact Hhd].
      destruct (String.leb_total (fst x) (fst y)) as [H | H];
        [congruence | exact H].
Qed.

Lemma sorted_sorted {A} (l : list (string * A)) :
  Sorted name_le (PackDeltas.sorted l).
Proof.
  induction l as [|x l IH]; simpl.
  - constructor.
  - now apply insert_by_name_sorted.
Qed.

(** * The whole run *)

Section Main.

Context {env : Environment}.
Variable exp32 : spec_float -> spec_float.
Variable float_repr : spec_float -> string.

Import PackDeltas.

Lemma main_ok input_dir fps st frames fr0 :
  valid_sequence exp32 (ply_files input_dir) frames fr0 ->
  main exp32 float_repr input_dir fps st
  = (written float_repr (ply_files input_dir) frames fr0 fps st, Ok tt).
Proof.
  intros [Hload [Hhd Hall]]. unfold main. fold (ply_files input_dir).
  destruct (ply_files input_dir) as [|[p0 f0] rest] eqn:Hfiles.
  - inversion Hload; subst. discriminate.
  - pose proof Hload as Hload0.
    inversion Hload0 as [|? fr ? frames' Hl _]; subst.
    simpl in Hhd. injection Hhd as ->.
    unfold loads in Hl. simpl in Hl. rewrite Hl. cbn [bind].
    pose proof (pack_frames_ok exp32 ((p0, f0) :: rest) (fr0 :: frames')
                  0%nat (pos fr0) [] [] [] [] [] [] [] []
                  (has_f_rest fr0) Hload Hall eq_refl eq_refl eq_refl
                  eq_refl) as Hpack.
    rewrite !app_nil_r in Hpack. cbn [app] in Hpack.
    unfold written, has_f_rest in *.
    destruct (f_rest fr0); rewrite Hpack; reflexivity.
Qed.

(** Nothing is written by a run that fails. *)
Lemma main_all_or_nothing input_dir fps st e :
  snd (main exp32 float_repr input_dir fps st) = Err e ->
  fst (main exp32 float_repr input_dir fps st) = st.
Proof.
  unfold main. destruct (sorted _) as [|[p0 f0] rest]; [reflexivity|].
  destruct (bind _ _) as [[fr0 a]|e']; [discriminate | reflexivity].
Qed.

Lemma pack_frames_mismatch pre : forall frames i pos0 a pj fj post frj
    (has_rest : bool),
  Forall2 (loads exp32) pre frames ->
  Forall (fun fr => List.length (pos fr) = List.length pos0
                    /\ (has_rest = true -> f_rest fr <> None)) frames ->
  (a_f_rest a <> None -> has_rest = true) ->
  load_frame exp32 pj fj = Ok frj ->
  List.length (pos frj) <> List.length pos0 ->
  pack_frames exp32 i (pre ++ (pj, fj) :: post) pos0 (List.length pos0) a
  = Err (PointCountMismatch pj).
Proof.
  induction pre as [|[p f] pre IH];
    intros frames i pos0 a pj fj post frj has_rest Hload Hall Ha Hj Hne;
    inversion Hload as [|? fr ? frames' Hl Hload']; subst;
    cbn [app pack_frames].
  - rewrite Hj. cbn [bind].
    destruct (Nat.eqb_spec (List.length (pos frj)) (List.length pos0));
      [contradiction | reflexivity].
  - inversion Hall as [|? ? [Hn Hrest] Hall']; subst.
    unfold loads in Hl. simpl in Hl. rewrite Hl. cbn [bind].
    rewrite Hn, Nat.eqb_refl. cbn [negb].
    destruct (a_f_rest a) as [arr|] eqn:Harr.
    + destruct (f_rest fr) as [x|] eqn:Hx.
      * cbn [bind]. eapply IH; eauto.
        intros _. apply Ha. discriminate.
      * exfalso. apply Hrest; [apply Ha; discriminate | reflexivity].
    + cbn [bind]. eapply IH; eauto.
Qed.

End Main.

(** * Position deltas *)

Lemma F32_sub_self x : is_finite x = true -> F32.sub x x = f32_zero.
Proof.
  destruct x as [s|s| |s m e]; try discriminate; intros _.
  - now destruct s.
  - unfold F32.sub, SFsub. rewrite Z.sub_diag. reflexivity.
Qed.

Lemma wide_nth w rows j :
  wide w rows -> (j < List.length rows)%nat ->
  List.length (nth j rows []) = w.
Proof.
  intros Hw Hj. unfold wide in Hw. rewrite Forall_forall in Hw.
  apply Hw, nth_In, Hj.
Qed.

Lemma delta_slab_nth pos0 fr j :
  List.length (PackDeltas.pos fr) = List.length pos0 ->
  wide 3 (PackDeltas.pos fr) -> wide 3 pos0 ->
  (j < List.length pos0)%nat ->
  nth j (delta_slab pos0 fr) []
  = [F32.sub (coord (PackDeltas.pos fr) j 0) (coord pos0 j 0);
     F32.sub (coord (PackDeltas.pos fr) j 1) (coord pos0 j 1);
     F32.sub (coord (PackDeltas.pos fr) j 2) (coord pos0 j 2);
     f32_zero].
Proof.
  intros Hlen Hw Hw0 Hj. unfold delta_slab, PackDeltas.sub_rows.
  rewrite map_map.
  rewrite (nth_map_in _ _ _ ([], []))
    by (rewrite length_combine; lia).
  rewrite combine_nth by assumption. cbn [fst snd].
  unfold coord.
  pose proof (wide_nth 3 _ j Hw ltac:(lia)) as H1.
  pose proof (wide_nth 3 _ j Hw0 Hj) as H2.
  destruct (nth j (PackDeltas.pos fr) []) as [|a [|b [|c [|]]]];
    try discriminate.
  destruct (nth j pos0 []) as [|a0 [|b0 [|c0 [|]]]]; try discriminate.
  reflexivity.
Qed.

Lemma delta_slab_self fr :
  wide 3 (PackDeltas.pos fr) ->
  Forall (fun r => forallb is_finite r = true) (PackDeltas.pos fr) ->
  delta_slab (PackDeltas.pos fr) fr
  = repeat (repeat f32_zero 4) (List.length (PackDeltas.pos fr)).
Proof.
  unfold delta_slab, PackDeltas.sub_rows, wide.
  induction (PackDeltas.pos fr) as [|r rows IH]; intros Hw Hfin; simpl.
  - reflexivity.
  - inversion Hw as [|? ? Hr Hw']; inversion Hfin as [|? ? Hf Hfin']; subst.
    rewrite IH by assumption. f_equal.
    destruct r as [|a [|b [|c [|]]]]; try discriminate.
    simpl in Hf. rewrite !andb_true_iff in Hf.
    destruct Hf as [Ha [Hb [Hc _]]]. simpl.
    now rewrite !F32_sub_self.
Qed.

Lemma delta_slab_shape pos0 fr :
  List.length (PackDeltas.pos fr) = List.length pos0 ->
  wide 3 (PackDeltas.pos fr) -> wide 3 pos0 ->
  List.length (delta_slab pos0 fr) = List.length pos0
  /\ wide 4 (delta_slab pos0 fr).
Proof.
  intros Hlen Hw Hw0. split.
  - unfold delta_slab. rewrite length_map, sub_rows_length; assumption.
  - unfold wide. apply Forall_forall. intros r Hr.
    destruct (In_nth _ _ [] Hr) as [j [Hj <-]].
    unfold delta_slab in Hj. rewrite length_map, sub_rows_length in Hj
      by assumption.
    rewrite delta_slab_nth by (assumption || lia). reflexivity.
Qed.

Lemma tofile3_length (a : list (list (list spec_float))) k n w bs :
  List.length a = k ->
  Forall (fun slab => List.length slab = n /\ wide w slab) a ->
  PackDeltas.tofile3 a = Binary bs ->
  List.length bs = (4 * (k * n * w))%nat.
Proof.
  intros Hk Hall [= <-].
  rewrite (concat_length_uniform 4).
  2:{ apply Forall_forall. intros b Hb. apply in_map_iff in Hb.
      destruct Hb as [x [<- _]]. apply length_le_split. }
  rewrite length_map. f_equal.
  rewrite (concat_length_uniform w).
  2:{ apply Forall_forall. intros p Hp. apply in_concat in Hp.
      destruct Hp as [slab [Hslab Hp]].
      rewrite Forall_forall in Hall. destruct (Hall _ Hslab) as [_ Hw].
      unfold wide in Hw. rewrite Forall_forall in Hw. now apply Hw. }
  rewrite (concat_length_uniform n).
  2:{ eapply Forall_impl; [|exact Hall]. now intros slab [? _]. }
  rewrite Hk. lia.
Qed.

Section DeltaPack.

Context {env : Environment}.
Variable exp32 : spec_float -> spec_float.
Variable float_repr : spec_float -> string.

Import PackDeltas.

Lemma load_frame_wide path f fr :
  load_frame exp32 path f = Ok fr -> wide 3 (pos fr).
Proof.
  intros H. destruct (load_frame_inv _ _ _ _ H) as [v [_ ->]].
  unfold frame_of, wide. cbn [pos]. apply Forall_forall.
  intros r Hr. apply in_map_iff in Hr. now destruct Hr as [r0 [<- _]].
Qed.

Lemma valid_sequence_frames files frames fr0 fr :
  valid_sequence exp32 files frames fr0 -> In fr frames ->
  List.length (pos fr) = List.length (pos fr0) /\ wide 3 (pos fr).
Proof.
  intros [Hload [_ Hall]] Hin. split.
  - rewrite Forall_forall in Hall. now apply Hall.
  - clear Hall. induction Hload as [|[p f] fr' files frames Hl _ IH].
    + contradiction.
    + destruct Hin as [-> | Hin]; [|now apply IH].
      eapply load_frame_wide, Hl.
Qed.

(** C7, as amended. Delta pack. On a sequence that passes every validation, the frames are the [.ply] files of the directory sorted by name (code-point order), the base is the first of them, and [delta.bin] holds for frame [i] and point [j] the float32 differences of the three coordinates with the base followed by 0.0: [K * N * 4] float32 values, 16 bytes per point. The slab of frame 0 is all zero when the base coordinates, as the float32 values they are converted to, are finite numbers; an infinite or NaN coordinate of the base gives NaN there. *)
Theorem delta_pack_layout input_dir fps st frames fr0 :
  valid_sequence exp32 (ply_files input_dir) frames fr0 ->
  let files := ply_files input_dir in
  let K := List.length files in
  let N := List.length (pos fr0) in
  Sorted name_le files
  /\ Permutation files
       (filter (fun p : string * ply_file => is_ply (fst p)) input_dir)
  /\ (exists p0 f0 rest,
        files = (p0, f0) :: rest /\ load_frame exp32 p0 f0 = Ok fr0)
  /\ exists delta bs,
       main exp32 float_repr input_dir fps st
       = (written float_repr files frames fr0 fps st, Ok tt)
       /\ In ("delta.bin"%string, Binary bs)
             (fst (main exp32 float_repr input_dir fps st))
       /\ tofile3 delta = Binary bs
       /\ List.length bs = (4 * (K * N * 4))%nat
       /\ List.length delta = K
       /\ (forall i fr j,
             nth_error frames i = Some fr -> (j < N)%nat ->
             nth j (nth i delta []) []
             = [F32.sub (coord (pos fr) j 0) (coord (pos fr0) j 0);
                F32.sub (coord (pos fr) j 1) (coord (pos fr0) j 1);
                F32.sub (coord (pos fr) j 2) (coord (pos fr0) j 2);
                f32_zero])
       /\ (Forall (fun r => forallb is_finite r = true) (pos fr0) ->
           nth 0 delta [] = repeat (repeat f32_zero 4) N).
Proof.
  intros Hvalid files K N.
  pose proof Hvalid as [Hload [Hhd Hall]].
  split; [apply sorted_sorted|]. split; [apply sorted_perm|].
  assert (Hlen : List.length frames = K)
    by (symmetry; eapply Forall2_length, Hload).
  assert (Hin0 : In fr0 frames).
  { destruct frames as [|fr frames']; [discriminate|].
    injection Hhd as ->. now left. }
  destruct (valid_sequence_frames _ _ _ _ Hvalid Hin0) as [_ Hw0].
  split.
  { fold files in Hload. destruct Hload as [|[p0 f0] fr rest frames' Hl _];
      [discriminate|].
    injection Hhd as ->. now exists p0, f0, rest. }
  exists (map (delta_slab (pos fr0)) frames).
  destruct (tofile3 (map (delta_slab (pos fr0)) frames)) as [bs|] eqn:Hbs;
    [|discriminate].
  exists bs. rewrite (main_ok exp32 float_repr input_dir fps st frames fr0 Hvalid).
  split; [reflexivity|]. split.
  { unfold written, write. cbn [fst]. fold files. rewrite Hbs.
    destruct (has_f_rest fr0); simpl; tauto. }
  split; [reflexivity|]. split.
  { apply tofile3_length with (a := map (delta_slab (pos fr0)) frames);
      [now rewrite length_map | | exact Hbs].
    apply Forall_forall. intros slab Hslab. apply in_map_iff in Hslab.
    destruct Hslab as [fr [<- Hfr]].
    destruct (valid_sequence_frames _ _ _ _ Hvalid Hfr) as [Hn Hw].
    now apply delta_slab_shape. }
  split; [now rewrite length_map|]. split.
  - intros i fr j Hi Hj.
    assert (Hfr : In fr frames) by (eapply nth_error_In, Hi).
    destruct (valid_sequence_frames _ _ _ _ Hvalid Hfr) as [Hn Hw].
    rewrite (nth_map_in _ _ _ fr)
      by (apply nth_error_Some; congruence).
    rewrite (nth_error_nth _ _ fr Hi).
    now apply delta_slab_nth.
  - intros Hfin. destruct frames as [|fr frames']; [discriminate|].
    injection Hhd as ->. cbn [map nth].
    now apply delta_slab_self.
Qed.

End DeltaPack.

Lemma append_assoc (a b c : string) :
  ((a ++ b) ++ c = a ++ (b ++ c))%string.
Proof. induction a as [|x a IH]; simpl; congruence. Qed.

Section Claims.

Context {env : Environment}.
Variable exp32 : spec_float -> spec_float.
Variable cast_undefined : spec_float -> Z.
Variable float_repr : spec_float -> string.

Import PackDeltas.

(** C3. Point-count mismatch. When the sorted sequence reaches a frame that decodes to a point count other than the base frame's, every earlier frame having passed its validations, [main] fails with [PointCountMismatch] carrying that frame's path and leaves the output files as they were; and whenever [main] fails, on any input, nothing has been written. *)
Theorem point_count_mismatch_aborts input_dir fps st
    pre pj fj post frames fr0 frj :
  ply_files input_dir = pre ++ (pj, fj) :: post ->
  Forall2 (loads exp32) pre frames ->
  hd_error frames = Some fr0 ->
  Forall (fun fr => List.length (pos fr) = List.length (pos fr0)
                    /\ (has_f_rest fr0 = true -> f_rest fr <> None))
         frames ->
  load_frame exp32 pj fj = Ok frj ->
  List.length (pos frj) <> List.length (pos fr0) ->
  main exp32 float_repr input_dir fps st = (st, Err (PointCountMismatch pj))
  /\ forall input_dir' fps' st' e,
       snd (main exp32 float_repr input_dir' fps' st') = Err e ->
       fst (main exp32 float_repr input_dir' fps' st') = st'.
Proof.
  intros Hfiles Hload Hhd Hall Hj Hne. split.
  - unfold main. fold (ply_files input_dir). rewrite Hfiles.
    destruct Hload as [|[p0 f0] fr pre' frames' Hl Hload'];
      [discriminate|].
    simpl in Hhd. injection Hhd as ->.
    cbn [app]. unfold loads in Hl. simpl in Hl. rewrite Hl. cbn [bind].
    change ((p0, f0) :: pre' ++ (pj, fj) :: post)
      with (((p0, f0) :: pre') ++ (pj, fj) :: post).
    erewrite pack_frames_mismatch with (has_rest := has_f_rest fr0);
      [reflexivity | | exact Hall | | exact Hj | exact Hne].
    + constructor; assumption.
    + cbn [a_f_rest]. unfold has_f_rest.
      destruct (f_rest fr0); [reflexivity | congruence].
  - intros input_dir' fps' st' e He. now apply main_all_or_nothing with (e := e).
Qed.

(** C8, as amended. When the base frame has no complete [f_rest] set, a run that passes every validation writes [pos0.bin], [delta.bin], [rgba.bin], [scale.bin] and [meta.json] and no [frest.bin]; the manifest has the eight keys width, height, points, frames, fps, rgba, scale and frest, with point count, frame count and playback rate, and its last entry is the key [frest] with the value [null]. *)
Theorem manifest_without_color_detail input_dir fps st frames fr0 :
  valid_sequence exp32 (ply_files input_dir) frames fr0 ->
  f_rest fr0 = None ->
  let N := List.length (pos fr0) in
  let K := List.length (ply_files input_dir) in
  let m := meta N K fps false in
  main exp32 float_repr input_dir fps st
  = (write "meta.json" (Text (json_dumps float_repr m))
       (write "scale.bin" (tofile3 (map scale_slab frames))
          (write "rgba.bin" (tofile3 (map rgba frames))
             (write "delta.bin"
                (tofile3 (map (delta_slab (pos fr0)) frames))
                (write "pos0.bin" (tofile2 (pos fr0)) st)))),
     Ok tt)
  /\ m = [("width", JInt N); ("height", JInt K); ("points", JInt N);
          ("frames", JInt K); ("fps", JFloat fps);
          ("rgba", JString "rgba.bin"); ("scale", JString "scale.bin");
          ("frest", JNull)]%string
  /\ exists prefix,
       json_dumps float_repr m
       = (prefix ++ "," ++ newline ++ "  " ++ quote ++ "frest" ++ quote
          ++ ": null" ++ newline ++ "}")%string.
Proof.
  intros Hvalid Hnone N K m. split; [|split].
  - rewrite (main_ok exp32 float_repr input_dir fps st frames fr0 Hvalid).
    unfold written, has_f_rest. rewrite Hnone. reflexivity.
  - reflexivity.
  - unfold m, meta, json_dumps. cbn [map String.concat].
    set (sep := ("," ++ newline)%string).
    eexists
      ("{" ++ newline
       ++ dumps_item float_repr ("width", JInt N) ++ sep
       ++ dumps_item float_repr ("height", JInt K) ++ sep
       ++ dumps_item float_repr ("points", JInt N) ++ sep
       ++ dumps_item float_repr ("frames", JInt K) ++ sep
       ++ dumps_item float_repr ("fps", JFloat fps) ++ sep
       ++ dumps_item float_repr ("rgba", JString "rgba.bin") ++ sep
       ++ dumps_item float_repr ("scale", JString "scale.bin"))%string.
    unfold sep. rewrite !append_assoc. reflexivity.
Qed.

Lemma load_frame_basic path f v :
  read_vertices path f = Ok v ->
  has_all basic_fields v = true ->
  load_frame exp32 path f = Ok (frame_of exp32 v).
Proof.
  intros Hv Hb. rewrite (load_frame_cases exp32 path f v Hv).
  unfold has_all, basic_fields in Hb. cbn [forallb] in Hb.
  rewrite !andb_true_iff in Hb.
  destruct Hb as (Hx & Hy & Hz & H0 & H1 & H2 & Ho & Hs0 & Hs1 & Hs2 & _).
  unfold missing_fields, has_all. cbn [filter forallb].
  rewrite Hx, Hy, Hz, H0, H1, H2, Ho, Hs0, Hs1, Hs2. reflexivity.
Qed.

(** C4, as amended. A vertex buffer with the ten basic fields decodes without error whatever part of [f_rest_0 .. f_rest_26] it has: with fewer than all 27 the colour detail of the frame is absent ([None]), exactly as when none is present, and with all 27 it is an array of 27 values per point. *)
Theorem partial_f_rest_is_absent path f v :
  read_vertices path f = Ok v ->
  has_all basic_fields v = true ->
  exists fr,
    load_frame exp32 path f = Ok fr
    /\ (has_all f_rest_fields v = false -> f_rest fr = None)
    /\ (has_all f_rest_fields v = true ->
        exists x, f_rest fr = Some x
                  /\ List.length x = List.length (pos fr) /\ wide 27 x).
Proof.
  intros Hv Hb. exists (frame_of exp32 v).
  split; [now apply load_frame_basic|].
  unfold frame_of. cbn [f_rest pos]. split; intros ->; [reflexivity|].
  eexists. split; [reflexivity|]. rewrite !length_map. split; [reflexivity|].
  apply Forall_forall. intros r Hr. apply in_map_iff in Hr.
  destruct Hr as [r0 [<- _]]. rewrite length_map. reflexivity.
Qed.

(** C6. Missing required fields. The list carried by [MissingFields] is the required list filtered by absence: a name is in it exactly when it is required and absent from the buffer. [convert_one] (fourteen required fields) and [load_frame] (required list x, y, z), each on the buffer its own [read_vertices] returns, fail with that one error as soon as the list is not empty; a buffer that lacks exactly [scale_0] and [scale_1] of the fourteen makes [convert_one] fail with the list [scale_0; scale_1]. *)
Theorem missing_fields_all_listed path f v splat_path st :
  (forall required k,
      In k (missing_fields required v)
      <-> In k required /\ ~ In k (names v))
  /\ (ConvertPlyToSplat.read_vertices path f = Ok v ->
      missing_fields ConvertPlyToSplat.required v <> [] ->
      ConvertPlyToSplat.convert_one exp32 cast_undefined path f splat_path st
      = (st, Err (MissingFields path
                    (missing_fields ConvertPlyToSplat.required v))))
  /\ (read_vertices path f = Ok v ->
      missing_fields ["x"; "y"; "z"]%string v <> [] ->
      load_frame exp32 path f
      = Err (MissingFields path (missing_fields ["x"; "y"; "z"]%string v)))
  /\ (ConvertPlyToSplat.read_vertices path f = Ok v ->
      (forall k, In k ConvertPlyToSplat.required ->
         (In k (names v) <-> k <> "scale_0"%string /\ k <> "scale_1"%string))
      ->
      ConvertPlyToSplat.convert_one exp32 cast_undefined path f splat_path st
      = (st, Err (MissingFields path ["scale_0"; "scale_1"]%string))).
Proof.
  assert (Hconv : forall l,
            ConvertPlyToSplat.read_vertices path f = Ok v ->
            missing_fields ConvertPlyToSplat.required v = l ->
            l <> [] ->
            ConvertPlyToSplat.convert_one exp32 cast_undefined path f
              splat_path st
            = (st, Err (MissingFields path l))).
  { intros l Hv Hl Hne. unfold ConvertPlyToSplat.convert_one.
    rewrite Hv. cbn [bind]. unfold ConvertPlyToSplat.decode_vertices.
    rewrite Hl. destruct l; [congruence | reflexivity]. }
  split; [intros; apply missing_fields_spec|].
  split; [intros Hv Hne; now apply Hconv|].
  split.
  - intros Hv. rewrite (load_frame_cases exp32 path f v Hv).
    destruct (missing_fields ["x"; "y"; "z"]%string v);
      [congruence | reflexivity].
  - intros Hv Hnames. apply Hconv; [exact Hv| |discriminate].
    unfold missing_fields.
    rewrite (filter_ext_in _
               (fun k => String.eqb k "scale_0" || String.eqb k "scale_1"));
      [reflexivity|].
    intros k Hk. specialize (Hnames k Hk).
    destruct (mem_string k (names v)) eqn:Hm.
    + apply mem_string_In, Hnames in Hm. destruct Hm as [H0 H1].
      apply String.eqb_neq in H0, H1. now rewrite H0, H1.
    + apply mem_string_false in Hm.
      destruct (String.eqb_spec k "scale_0") as [|H0]; [reflexivity|].
      destruct (String.eqb_spec k "scale_1") as [|H1]; [reflexivity|].
      exfalso. apply Hm, Hnames. now split.
Qed.

End Claims.

(** * binary32 rounding *)

Lemma fexp32_eq e : fexp F32.prec F32.emax e = fexp32 e.
Proof. reflexivity. Qed.

Lemma digits2_pos_bounds p :
  2 ^ (Z.pos (digits2_pos p) - 1) <= Z.pos p < 2 ^ Z.pos (digits2_pos p).
Proof.
  induction p as [p IH | p IH |]; cbn [digits2_pos].
  - rewrite Pos2Z.inj_succ.
    replace (Z.succ (Z.pos (digits2_pos p)) - 1)
      with (Z.succ (Z.pos (digits2_pos p) - 1)) by lia.
    rewrite !Z.pow_succ_r by lia. lia.
  - rewrite Pos2Z.inj_succ.
    replace (Z.succ (Z.pos (digits2_pos p)) - 1)
      with (Z.succ (Z.pos (digits2_pos p) - 1)) by lia.
    rewrite !Z.pow_succ_r by lia. lia.
  - simpl. lia.
Qed.

Lemma Zdigits2_log2 m : 0 < m -> Zdigits2 m = Z.log2 m + 1.
Proof.
  intros Hm. destruct m as [|p|p]; try lia. cbn [Zdigits2].
  pose proof (digits2_pos_bounds p) as [Hlo Hhi].
  assert (Z.log2 (Z.pos p) = Z.pos (digits2_pos p) - 1); [|lia].
  apply Z.log2_unique; [lia|].
  replace (Z.succ (Z.pos (digits2_pos p) - 1)) with (Z.pos (digits2_pos p))
    by lia.
  lia.
Qed.

Lemma Zdigits2_nonneg m : 0 <= Zdigits2 m.
Proof. destruct m; simpl; lia. Qed.

Lemma Zdigits2_lt m : 0 <= m -> m < 2 ^ Zdigits2 m.
Proof.
  intros Hm. destruct m as [|p|p]; try lia.
  - simpl. lia.
  - apply digits2_pos_bounds.
Qed.

Lemma Zdigits2_ge m : 0 < m -> 2 ^ (Zdigits2 m - 1) <= m.
Proof.
  intros Hm. destruct m as [|p|p]; try lia. apply digits2_pos_bounds.
Qed.

(** [m < 2 ^ k] bounds the number of digits. *)
Lemma Zdigits2_le_of_lt m k : 0 <= m -> 0 <= k -> m < 2 ^ k -> Zdigits2 m <= k.
Proof.
  intros Hm Hk Hlt. destruct (Z.eq_dec m 0) as [-> | Hne]; [simpl; lia|].
  pose proof (Zdigits2_ge m ltac:(lia)) as Hge.
  destruct (Z.le_gt_cases (Zdigits2 m) k) as [H | H]; [exact H|].
  exfalso.
  assert (2 ^ k <= 2 ^ (Zdigits2 m - 1)) by (apply Z.pow_le_mono_r; lia).
  lia.
Qed.

Lemma Zdigits2_ge_of_le m k : 0 <= k -> 2 ^ k <= m -> k + 1 <= Zdigits2 m.
Proof.
  intros Hk Hle.
  assert (0 < m) by (pose proof (Z.pow_pos_nonneg 2 k); lia).
  pose proof (Zdigits2_lt m ltac:(lia)) as Hlt.
  pose proof (Zdigits2_nonneg m).
  destruct (Z.le_gt_cases (k + 1) (Zdigits2 m)) as [H' | H']; [exact H'|].
  exfalso.
  assert (2 ^ Zdigits2 m <= 2 ^ k) by (apply Z.pow_le_mono_r; lia).
  lia.
Qed.

(** ** Shifting *)

Lemma shr_1_m mrs : 0 <= shr_m mrs -> shr_m (shr_1 mrs) = shr_m mrs / 2.
Proof.
  destruct mrs as [m r s]. cbn [shr_m]. intros Hm.
  destruct m as [|[p|p|]|p]; cbn [shr_1 shr_m]; try lia.
  - reflexivity.
  - rewrite Pos2Z.inj_xI.
    apply (Z.div_unique _ _ _ 1); lia.
  - rewrite Pos2Z.inj_xO.
    apply (Z.div_unique _ _ _ 0); lia.
  - reflexivity.
Qed.

Lemma iter_shr_1_m p : forall mrs,
  0 <= shr_m mrs ->
  shr_m (SpecFloat.iter_pos shr_1 p mrs) = shr_m mrs / 2 ^ Z.pos p.
Proof.
  assert (Hnn : forall mrs, 0 <= shr_m mrs -> 0 <= shr_m (shr_1 mrs)).
  { intros mrs H. rewrite shr_1_m by assumption.
    apply Z.div_pos; lia. }
  induction p as [p IH | p IH |]; intros mrs Hm; cbn [SpecFloat.iter_pos].
  - rewrite IH, IH, shr_1_m; try assumption.
    + rewrite !Z.div_div by (try apply Z.pow_pos_nonneg; lia).
      f_equal. rewrite Pos2Z.inj_xI.
      rewrite <- Z.pow_add_r, <- (Z.pow_succ_r 2) by lia. f_equal. lia.
    + now apply Hnn.
    + rewrite IH by (now apply Hnn).
      apply Z.div_pos; [now apply Hnn | apply Z.pow_pos_nonneg; lia].
  - rewrite IH, IH; try assumption.
    + rewrite !Z.div_div by (try apply Z.pow_pos_nonneg; lia).
      f_equal. rewrite Pos2Z.inj_xO, <- Z.pow_add_r by lia. f_equal. lia.
    + rewrite IH by assumption.
      apply Z.div_pos; [assumption | apply Z.pow_pos_nonneg; lia].
  - now rewrite shr_1_m.
Qed.

Lemma shr_record_of_loc_m m l : shr_m (shr_record_of_loc m l) = m.
Proof. destruct l as [|[]]; reflexivity. Qed.

(** The exponent and mantissa after [shr_fexp]. *)
Lemma shr_fexp_spec M E l :
  0 <= M ->
  let e' := Z.max E (fexp32 (Zdigits2 M + E)) in
  snd (shr_fexp F32.prec F32.emax M E l) = e'
  /\ shr_m (fst (shr_fexp F32.prec F32.emax M E l)) = M / 2 ^ (e' - E).
Proof.
  intros HM e'. unfold shr_fexp, shr. rewrite fexp32_eq.
  fold (Z.sub (fexp32 (Zdigits2 M + E)) E).
  destruct (fexp32 (Zdigits2 M + E) - E) as [|p|p] eqn:Hn; cbn [fst snd].
  - rewrite shr_record_of_loc_m. unfold e'.
    replace (Z.max E (fexp32 (Zdigits2 M + E))) with E by lia.
    rewrite Z.sub_diag, Z.div_1_r. auto.
  - rewrite iter_shr_1_m by (rewrite shr_record_of_loc_m; assumption).
    rewrite shr_record_of_loc_m. unfold e'.
    replace (Z.max E (fexp32 (Zdigits2 M + E))) with (E + Z.pos p) by lia.
    replace (E + Z.pos p - E) with (Z.pos p) by lia. auto.
  - rewrite shr_record_of_loc_m. unfold e'.
    replace (Z.max E (fexp32 (Zdigits2 M + E))) with E by lia.
    rewrite Z.sub_diag, Z.div_1_r. auto.
Qed.

Lemma round_nearest_even_bounds m l :
  m <= round_nearest_even m l <= m + 1.
Proof.
  destruct l as [|[]]; cbn [round_nearest_even]; try lia.
  destruct (Z.even m); lia.
Qed.

Lemma loc_of_shr_record_of_loc m l :
  loc_of_shr_record (shr_record_of_loc m l) = l.
Proof. destruct l as [|[]]; reflexivity. Qed.

(** ** [binary_round_aux] *)

Lemma binary_round_aux_spec s M E l :
  0 <= M ->
  exists m1,
    let e' := Z.max E (fexp32 (Zdigits2 M + E)) in
    let e'' := Z.max e' (fexp32 (Zdigits2 m1 + e')) in
    M / 2 ^ (e' - E) <= m1 <= M / 2 ^ (e' - E) + 1
    /\ (l = loc_Exact -> e' = E -> m1 = M)
    /\ binary_round_aux F32.prec F32.emax s M E l
       = bra_result s (m1 / 2 ^ (e'' - e')) e''.
Proof.
  intros HM.
  pose proof (shr_fexp_spec M E l HM) as [He1 Hm1].
  unfold binary_round_aux.
  destruct (shr_fexp F32.prec F32.emax M E l) as [mrs' e1] eqn:H1.
  cbn [fst snd] in He1, Hm1. rewrite <- He1 in Hm1.
  set (m1 := round_nearest_even (shr_m mrs') (loc_of_shr_record mrs')).
  assert (Hb : shr_m mrs' <= m1 <= shr_m mrs' + 1)
    by apply round_nearest_even_bounds.
  assert (Hq : 0 <= M / 2 ^ (e1 - E)).
  { apply Z.div_pos; [assumption|]. apply Z.pow_pos_nonneg; lia. }
  assert (Hm1nn : 0 <= m1) by lia.
  pose proof (shr_fexp_spec m1 e1 loc_Exact Hm1nn) as [He2 Hm2].
  destruct (shr_fexp F32.prec F32.emax m1 e1 loc_Exact) as [mrs'' e2] eqn:H2.
  cbn [fst snd] in He2, Hm2.
  exists m1. cbv zeta. rewrite <- He1.
  split; [lia|]. split.
  - intros -> HeE. unfold m1.
    unfold shr_fexp, shr in H1. rewrite fexp32_eq in H1.
    destruct (fexp32 (Zdigits2 M + E) - E) as [|p|p] eqn:Hn; try lia;
      injection H1 as <- _; reflexivity.
  - rewrite Hm2, He2. reflexivity.
Qed.

Lemma bra_result_cases s m e :
  0 <= m ->
  (m = 0 /\ bra_result s m e = S754_zero s)
  \/ (0 < m /\ 104 < e /\ bra_result s m e = S754_infinity s)
  \/ (0 < m /\ e <= 104
      /\ bra_result s m e = S754_finite s (Z.to_pos m) e).
Proof.
  intros Hm. destruct m as [|p|p]; try lia.
  - left. auto.
  - right. unfold bra_result. destruct (Z.leb_spec e 104).
    + right. repeat split; try lia. 
    + left. repeat split; lia.
Qed.

(** After the second shift the mantissa fits in 24 bits. *)
Lemma final_mantissa_lt m1 e' :
  0 <= m1 ->
  m1 / 2 ^ (Z.max e' (fexp32 (Zdigits2 m1 + e')) - e') < 2 ^ 24.
Proof.
  intros Hm1.
  pose proof (Zdigits2_lt m1 Hm1) as Hlt.
  pose proof (Zdigits2_nonneg m1) as Hd.
  set (k := Z.max e' (fexp32 (Zdigits2 m1 + e')) - e').
  assert (Hk : 0 <= k) by (unfold k; lia).
  assert (Hd24 : Zdigits2 m1 <= k + 24) by (unfold k, fexp32; lia).
  apply Z.div_lt_upper_bound; [apply Z.pow_pos_nonneg; lia|].
  rewrite <- Z.pow_add_r by lia.
  eapply Z.lt_le_trans; [exact Hlt|].
  apply Z.pow_le_mono_r; lia.
Qed.

Lemma binary_round_aux_rounded s M E l :
  0 <= M -> rounded s E (binary_round_aux F32.prec F32.emax s M E l).
Proof.
  intros HM.
  destruct (binary_round_aux_spec s M E l HM) as [m1 [Hb [_ ->]]].
  cbv zeta in *.
  set (e' := Z.max E (fexp32 (Zdigits2 M + E))) in *.
  set (e'' := Z.max e' (fexp32 (Zdigits2 m1 + e'))).
  assert (Hq : 0 <= M / 2 ^ (e' - E)).
  { apply Z.div_pos; [assumption|]. apply Z.pow_pos_nonneg; lia. }
  assert (Hm1 : 0 <= m1) by lia.
  pose proof (final_mantissa_lt m1 e' Hm1) as Hlt. fold e'' in Hlt.
  assert (Hm : 0 <= m1 / 2 ^ (e'' - e')).
  { apply Z.div_pos; [assumption|]. apply Z.pow_pos_nonneg; lia. }
  destruct (bra_result_cases s _ e'' Hm) as [[_ ->] | [(_ & _ & ->) | (Hp & He & ->)]].
  - constructor.
  - constructor.
  - constructor; [rewrite Z2Pos.id by lia; exact Hlt | lia].
Qed.

(** ** Real values *)

Lemma pow2_pos k : (0 < pow2 k)%R.
Proof. apply powerRZ_lt. lra. Qed.

Lemma pow2_add a b : pow2 (a + b) = (pow2 a * pow2 b)%R.
Proof. apply powerRZ_add. lra. Qed.

Lemma pow2_IZR k : 0 <= k -> IZR (2 ^ k) = pow2 k.
Proof.
  intros Hk. destruct k as [|p|p]; try lia.
  - reflexivity.
  - apply Zpower_pos_powerRZ.
Qed.

Lemma pow2_ge_1 k : 0 <= k -> (1 <= pow2 k)%R.
Proof.
  intros Hk. rewrite <- pow2_IZR by assumption. apply IZR_le.
  pose proof (Z.pow_pos_nonneg 2 k). lia.
Qed.

Lemma pow2_le a b : a <= b -> (pow2 a <= pow2 b)%R.
Proof.
  intros Hab. replace b with (a + (b - a)) by lia. rewrite pow2_add.
  pose proof (pow2_pos a). pose proof (pow2_ge_1 (b - a) ltac:(lia)).
  nra.
Qed.

Lemma pow2_lt a b : a < b -> (pow2 a < pow2 b)%R.
Proof.
  intros Hab. replace b with (a + 1 + (b - a - 1)) by lia.
  rewrite !pow2_add.
  pose proof (pow2_pos a). pose proof (pow2_ge_1 (b - a - 1) ltac:(lia)).
  replace (pow2 1) with 2%R by (unfold pow2; simpl; lra). nra.
Qed.

Lemma pow2_lt_inv a b : (pow2 a < pow2 b)%R -> a < b.
Proof.
  intros H. destruct (Z.lt_ge_cases a b) as [Hlt | Hge]; [exact Hlt|].
  pose proof (pow2_le b a Hge). lra.
Qed.

Lemma IZR_mul_pow2 m k : 0 <= k -> (IZR m * pow2 k)%R = IZR (m * 2 ^ k).
Proof. intros Hk. now rewrite mult_IZR, pow2_IZR. Qed.

(** Dividing by a power of two loses less than one unit. *)
Lemma div_pow2_le m k :
  0 <= m -> 0 <= k -> (IZR (m / 2 ^ k) * pow2 k <= IZR m)%R.
Proof.
  intros Hm Hk. rewrite IZR_mul_pow2 by assumption. apply IZR_le.
  pose proof (Z.pow_pos_nonneg 2 k ltac:(lia) Hk).
  rewrite Z.mul_comm. apply Z.mul_div_le. lia.
Qed.

Lemma div_pow2_gt m k :
  0 <= m -> 0 <= k -> (IZR m < (IZR (m / 2 ^ k) + 1) * pow2 k)%R.
Proof.
  intros Hm Hk. rewrite <- plus_IZR, IZR_mul_pow2 by assumption.
  apply IZR_lt.
  pose proof (Z.pow_pos_nonneg 2 k ltac:(lia) Hk) as Hp.
  pose proof (Z.mul_succ_div_gt m (2 ^ k) Hp). lia.
Qed.

Lemma binary_round_aux_value s M E l m e :
  0 <= M ->
  binary_round_aux F32.prec F32.emax s M E l = S754_finite s m e ->
  let e' := Z.max E (fexp32 (Zdigits2 M + E)) in
  (IZR (Z.pos m) * pow2 e <= IZR M * pow2 E + pow2 e')%R
  /\ (IZR M * pow2 E - pow2 e' < IZR (Z.pos m) * pow2 e + pow2 e)%R
  /\ e <= Z.max e' (fexp32 (Zdigits2 M + E) + 1).
Proof.
  intros HM HR e'.
  destruct (binary_round_aux_spec s M E l HM) as [m1 [Hb [_ Heq]]].
  cbv zeta in *. fold e' in Hb, Heq.
  set (e'' := Z.max e' (fexp32 (Zdigits2 m1 + e'))) in *.
  assert (Hk1 : 0 <= e' - E) by (unfold e'; lia).
  assert (Hk2 : 0 <= e'' - e') by (unfold e''; lia).
  assert (Hq : 0 <= M / 2 ^ (e' - E)).
  { apply Z.div_pos; [assumption|]. apply Z.pow_pos_nonneg; lia. }
  assert (Hm1 : 0 <= m1) by lia.
  assert (Hm : 0 <= m1 / 2 ^ (e'' - e')).
  { apply Z.div_pos; [assumption|]. apply Z.pow_pos_nonneg; lia. }
  rewrite HR in Heq.
  destruct (bra_result_cases s _ e'' Hm) as [[_ H] | [(_ & _ & H) | (Hp & He & H)]];
    rewrite H in Heq; try discriminate.
  injection Heq as Hmm Hee. subst e.
  assert (Hmz : Z.pos m = m1 / 2 ^ (e'' - e')) by (rewrite Hmm; lia).
  rewrite Hmz.
  pose proof (div_pow2_le m1 (e'' - e') Hm1 Hk2) as H1.
  pose proof (div_pow2_gt m1 (e'' - e') Hm1 Hk2) as H1'.
  pose proof (div_pow2_le M (e' - E) HM Hk1) as H2.
  pose proof (div_pow2_gt M (e' - E) HM Hk1) as H2'.
  pose proof Hb as [Hz1 Hz2].
  destruct Hb as [Hb1 Hb2]. apply IZR_le in Hb1, Hb2.
  rewrite plus_IZR in Hb2.
  set (a := IZR (m1 / 2 ^ (e'' - e'))) in *.
  set (b := IZR (M / 2 ^ (e' - E))) in *.
  set (p2 := pow2 (e'' - e')) in *. set (p1 := pow2 (e' - E)) in *.
  set (pE := pow2 E) in *.
  assert (Hp2 : (0 < p2)%R) by apply pow2_pos.
  assert (Hp1 : (0 < p1)%R) by apply pow2_pos.
  assert (HpE : (0 < pE)%R) by apply pow2_pos.
  assert (He' : pow2 e' = (p1 * pE)%R).
  { unfold p1, pE. rewrite <- pow2_add. f_equal. lia. }
  assert (He'' : pow2 e'' = (p2 * (p1 * pE))%R).
  { rewrite <- He'. unfold p2. rewrite <- pow2_add. f_equal. lia. }
  assert (Hq0 : (0 < p1 * pE)%R) by (apply Rmult_lt_0_compat; assumption).
  rewrite He'', He'.
  split; [|split].
  - assert (S1 : (a * p2 * (p1 * pE) <= (b + 1) * (p1 * pE))%R)
      by (apply Rmult_le_compat_r; lra).
    assert (S2 : (b * p1 * pE <= IZR M * pE)%R)
      by (apply Rmult_le_compat_r; lra).
    lra.
  - assert (S1 : (IZR M * pE < (b + 1) * p1 * pE)%R)
      by (apply Rmult_lt_compat_r; lra).
    assert (S2 : ((b + 1) * (p1 * pE) <= (IZR m1 + 1) * (p1 * pE))%R)
      by (apply Rmult_le_compat_r; lra).
    assert (S3 : (IZR m1 * (p1 * pE) < (a + 1) * p2 * (p1 * pE))%R)
      by (apply Rmult_lt_compat_r; lra).
    lra.
  - (* the exponent grows by at most one binade *)
    unfold e''.
    assert (He'lo : fexp32 (Zdigits2 M + E) <= e') by (unfold e'; lia).
    assert (Zdigits2 m1 + e' <= Z.max (Zdigits2 M + E) e' + 1);
      [|unfold fexp32 in *; lia].
    destruct (Z.eq_dec m1 0) as [-> | Hne]; [simpl; lia|].
    assert (Hd : Zdigits2 m1 <= Z.max (Zdigits2 M - (e' - E)) 0 + 1);
      [|lia].
    apply Zdigits2_le_of_lt; [lia | lia |].
    pose proof (Zdigits2_lt M HM) as HltM.
    pose proof (Zdigits2_nonneg M).
    assert (M / 2 ^ (e' - E) < 2 ^ Z.max (Zdigits2 M - (e' - E)) 0).
    { apply Z.div_lt_upper_bound; [apply Z.pow_pos_nonneg; lia|].
      rewrite <- Z.pow_add_r by lia.
      eapply Z.lt_le_trans; [exact HltM|].
      apply Z.pow_le_mono_r; lia. }
    rewrite Z.pow_add_r by lia. change (2 ^ 1) with 2. lia.
Qed.

Lemma digits_le_of_value M E k :
  0 < M -> (IZR M * pow2 E < pow2 k)%R -> Zdigits2 M + E <= k.
Proof.
  intros HM Hlt.
  pose proof (Zdigits2_ge M HM) as Hge.
  assert (Hd : 1 <= Zdigits2 M).
  { destruct M; try lia. simpl. lia. }
  apply IZR_le in Hge. rewrite pow2_IZR in Hge by lia.
  assert (pow2 (Zdigits2 M - 1 + E) < pow2 k)%R.
  { rewrite pow2_add. pose proof (pow2_pos E).
    eapply Rle_lt_trans; [|exact Hlt].
    apply Rmult_le_compat_r; lra. }
  apply pow2_lt_inv in H. lia.
Qed.

Lemma rounded_bounded32 s E x : rounded s E x -> bounded32 x.
Proof. intros [| |m e Hm He]; simpl; auto. split; [assumption | lia]. Qed.

(** A positive number below [2 ^ k] rounds to zero or to a finite float,
    at most one unit of the last place above it. *)
Lemma binary_round_aux_small s M E l k :
  0 < M -> (IZR M * pow2 E < pow2 k)%R -> E <= 104 -> k <= 127 ->
  binary_round_aux F32.prec F32.emax s M E l = S754_zero s
  \/ exists m e,
       binary_round_aux F32.prec F32.emax s M E l = S754_finite s m e
       /\ Z.pos m < 2 ^ 24 /\ E <= e <= 104
       /\ (IZR (Z.pos m) * pow2 e
           <= IZR M * pow2 E + pow2 (Z.max E (fexp32 k)))%R.
Proof.
  intros HM Hlt HE Hk.
  pose proof (digits_le_of_value M E k HM Hlt) as Hd.
  pose proof (binary_round_aux_rounded s M E l ltac:(lia)) as Hr.
  remember (binary_round_aux F32.prec F32.emax s M E l) as R eqn:HR.
  symmetry in HR. destruct Hr as [| |m e Hm24 He104].
  - now left.
  - (* no overflow *)
    exfalso.
    destruct (binary_round_aux_spec s M E l ltac:(lia)) as [m1 [Hb [_ Heq]]].
    cbv zeta in *. rewrite HR in Heq.
    set (e' := Z.max E (fexp32 (Zdigits2 M + E))) in *.
    set (e'' := Z.max e' (fexp32 (Zdigits2 m1 + e'))) in *.
    assert (Hq : 0 <= M / 2 ^ (e' - E)).
    { apply Z.div_pos; [lia|]. apply Z.pow_pos_nonneg; unfold e'; lia. }
    assert (Hm : 0 <= m1 / 2 ^ (e'' - e')).
    { apply Z.div_pos; [lia|]. apply Z.pow_pos_nonneg; unfold e''; lia. }
    destruct (bra_result_cases s _ e'' Hm)
      as [[_ H] | [(Hp & He & H) | (_ & _ & H)]];
      rewrite H in Heq; try discriminate.
    (* e'' > 104 is impossible *)
    assert (He' : e' <= 104) by (unfold e', fexp32; lia).
    assert (Hd1 : Zdigits2 m1 <= Z.max (Zdigits2 M - (e' - E)) 0 + 1).
    { destruct (Z.eq_dec m1 0) as [-> | Hne]; [simpl; lia|].
      apply Zdigits2_le_of_lt; [lia | lia |].
      pose proof (Zdigits2_lt M ltac:(lia)) as HltM.
      pose proof (Zdigits2_nonneg M).
      assert (M / 2 ^ (e' - E) < 2 ^ Z.max (Zdigits2 M - (e' - E)) 0).
      { apply Z.div_lt_upper_bound;
          [apply Z.pow_pos_nonneg; unfold e'; lia|].
        rewrite <- Z.pow_add_r by (unfold e'; lia).
        eapply Z.lt_le_trans; [exact HltM|].
        apply Z.pow_le_mono_r; unfold e'; lia. }
      rewrite Z.pow_add_r by lia. change (2 ^ 1) with 2. lia. }
    assert (He'lo : E <= e') by (unfold e'; lia).
    unfold e'', fexp32 in He. lia.
  - right. exists m, e. split; [reflexivity|].
    pose proof (binary_round_aux_value s M E l m e ltac:(lia) HR)
      as [Hv [_ _]]. cbv zeta in Hv.
    repeat split; try assumption; try lia.
    eapply Rle_trans; [exact Hv|].
    apply Rplus_le_compat_l, pow2_le. unfold fexp32. lia.
Qed.

(** ** [shl_align] and [binary_round] *)

Lemma iter_xO m d : Z.pos (Pos.iter xO m d) = Z.pos m * 2 ^ Z.pos d.
Proof.
  induction d as [|d IH] using Pos.peano_ind.
  - simpl. lia.
  - rewrite Pos.iter_succ, Pos2Z.inj_xO, IH, Pos2Z.inj_succ.
    rewrite Z.pow_succ_r by lia. lia.
Qed.

Lemma shl_align_spec m e e' :
  snd (shl_align m e e') = Z.min e e'
  /\ Z.pos (fst (shl_align m e e')) = Z.pos m * 2 ^ (e - Z.min e e').
Proof.
  unfold shl_align. destruct (e' - e) as [|d|d] eqn:Hd; cbn [fst snd].
  - replace (Z.min e e') with e by lia. rewrite Z.sub_diag. lia.
  - replace (Z.min e e') with e by lia. rewrite Z.sub_diag. lia.
  - replace (Z.min e e') with e' by lia. split; [reflexivity|].
    rewrite iter_xO. f_equal. f_equal. lia.
Qed.

Lemma shl_align_value m e e' :
  (IZR (Z.pos (fst (shl_align m e e'))) * pow2 (snd (shl_align m e e'))
   = IZR (Z.pos m) * pow2 e)%R.
Proof.
  destruct (shl_align_spec m e e') as [-> ->].
  rewrite <- IZR_mul_pow2 by lia. rewrite Rmult_assoc, <- pow2_add.
  do 2 f_equal. lia.
Qed.

Lemma binary_round_rounded s m e :
  exists E, rounded s E (binary_round F32.prec F32.emax s m e).
Proof.
  unfold binary_round.
  destruct (shl_align m e _) as [mz ez].
  exists ez. apply binary_round_aux_rounded. lia.
Qed.

Lemma binary_round_small s m e k :
  (IZR (Z.pos m) * pow2 e < pow2 k)%R -> e <= 104 -> k <= 127 ->
  binary_round F32.prec F32.emax s m e = S754_zero s
  \/ exists m' e',
       binary_round F32.prec F32.emax s m e = S754_finite s m' e'
       /\ Z.pos m' < 2 ^ 24 /\ e' <= 104
       /\ (IZR (Z.pos m') * pow2 e'
           <= IZR (Z.pos m) * pow2 e + pow2 (Z.max e (fexp32 k)))%R.
Proof.
  intros Hlt He Hk. unfold binary_round.
  pose proof (shl_align_spec m e
                (fexp F32.prec F32.emax (Z.pos (digits2_pos m) + e)))
    as [Hez _].
  pose proof (shl_align_value m e
                (fexp F32.prec F32.emax (Z.pos (digits2_pos m) + e))) as Hv.
  destruct (shl_align m e _) as [mz ez]. cbn [fst snd] in *.
  rewrite <- Hv in Hlt.
  destruct (binary_round_aux_small s (Z.pos mz) ez loc_Exact k
              ltac:(lia) Hlt ltac:(lia) Hk)
    as [Hz | [m' [e' (HR & Hm' & He' & Hval)]]].
  - now left.
  - right. exists m', e'. rewrite Hv in Hval.
    repeat split; try assumption; try lia.
    eapply Rle_trans; [exact Hval|].
    apply Rplus_le_compat_l, pow2_le. lia.
Qed.

(** ** The operations *)

Lemma rounded_not_nan s E x : rounded s E x -> not_nan x.
Proof. now intros [| |m e Hm He]. Qed.

Lemma binary_normalize_bounded z e :
  bounded32 (binary_normalize F32.prec F32.emax z e false)
  /\ not_nan (binary_normalize F32.prec F32.emax z e false).
Proof.
  destruct z as [|m|m]; cbn [binary_normalize].
  - now split.
  - destruct (binary_round_rounded false m e) as [E Hr].
    split; [eapply rounded_bounded32 | eapply rounded_not_nan]; exact Hr.
  - destruct (binary_round_rounded true m e) as [E Hr].
    split; [eapply rounded_bounded32 | eapply rounded_not_nan]; exact Hr.
Qed.

Lemma mul_bounded a b : bounded32 (F32.mul a b).
Proof.
  destruct a as [sa|sa| |sa ma ea], b as [sb|sb| |sb mb eb]; simpl; trivial.
  eapply rounded_bounded32, binary_round_aux_rounded. lia.
Qed.

Lemma mul_const_not_nan a s m e :
  not_nan a -> not_nan (F32.mul a (S754_finite s m e)).
Proof.
  destruct a as [sa|sa| |sa ma ea]; try discriminate; intros _;
    try reflexivity.
  eapply rounded_not_nan, binary_round_aux_rounded. lia.
Qed.

Lemma add_bounded a b : bounded32 a -> bounded32 b -> bounded32 (F32.add a b).
Proof.
  destruct a as [sa|sa| |sa ma ea], b as [sb|sb| |sb mb eb];
    intros Ha Hb; simpl; trivial;
    try (destruct sa, sb; simpl; trivial; fail).
  apply binary_normalize_bounded.
Qed.

Lemma add_const_not_nan a s m e :
  not_nan a -> not_nan (F32.add a (S754_finite s m e)).
Proof.
  destruct a as [sa|sa| |sa ma ea]; try discriminate; intros _;
    try reflexivity.
  apply binary_normalize_bounded.
Qed.

(** ** Rotation quantization *)

Lemma c_255_eq : c_255 = S754_finite false 16711680 (-16).
Proof. reflexivity. Qed.

Lemma c_128_eq : c_128 = S754_finite false 8388608 (-16).
Proof. reflexivity. Qed.

Lemma c_half_eq : c_half = S754_finite false 8388608 (-24).
Proof. reflexivity. Qed.

Lemma f32_one_eq : f32_one = S754_finite false 8388608 (-23).
Proof. reflexivity. Qed.

Lemma shiftl_small m e k :
  e < 0 -> 0 <= k -> Z.pos m < 2 ^ k * 2 ^ (- e) ->
  0 <= Z.shiftl (Z.pos m) e < 2 ^ k.
Proof.
  intros He Hk Hm. rewrite Z.shiftl_div_pow2 by lia.
  pose proof (Z.pow_pos_nonneg 2 (- e) ltac:(lia) ltac:(lia)).
  split.
  - apply Z.div_pos; lia.
  - apply Z.div_lt_upper_bound; lia.
Qed.

Lemma clip_0_255 x :
  bounded32 x -> not_nan x ->
  exists b,
    SFtrunc (np_clip x f32_zero c_255) = Some b /\ 0 <= b <= 255.
Proof.
  rewrite c_255_eq.
  destruct x as [s|s| |s m e]; intros Hb Hn; try discriminate.
  - exists 0. now destruct s.
  - destruct s; [exists 0 | exists 255]; split; (reflexivity || lia).
  - destruct s.
    + exists 0. split; [reflexivity | lia].
    + destruct Hb as [Hm He].
      unfold np_clip, F32.is_nan, F32.gt, F32.lt, SFltb, f32_zero.
      cbn [SFcompare].
      destruct (Z.compare_spec e (-16)) as [-> | Hlt | Hgt].
      * destruct (Pos.compare_cont Eq m 16711680) eqn:Hc.
        -- exists 255. split; [reflexivity | lia].
        -- exists (Z.shiftl (Z.pos m) (-16)). split; [reflexivity|].
           change (Pos.compare m 16711680 = Lt) in Hc.
           change (Z.pos m < 16711680) in Hc.
           rewrite Z.shiftl_div_pow2 by lia.
           change (2 ^ (- (-16))) with 65536.
           assert (Z.pos m / 65536 < 255)
             by (apply Z.div_lt_upper_bound; lia).
           assert (0 <= Z.pos m / 65536) by (apply Z.div_pos; lia).
           lia.
        -- exists 255. split; [reflexivity | lia].
      * exists (Z.shiftl (Z.pos m) e). split; [reflexivity|].
        assert (0 <= Z.shiftl (Z.pos m) e < 2 ^ 7); [|lia].
        apply shiftl_small; try lia.
        eapply Z.lt_le_trans; [exact Hm|].
        rewrite <- Z.pow_add_r by lia. apply Z.pow_le_mono_r; lia.
      * exists 255. split; [reflexivity | lia].
Qed.

(** C10. Rotation quantization. For every component [q] that is not NaN, hence for every [q] of [-1, 1], the value [q * 128 + 128] is clamped into [0, 255] before the cast: the byte is the integer part of the clamped value, lies between 0 and 255 and does not depend on what the platform does on casts that do not fit. For [q = 1.0] the affine image is 256 and the byte is 255. *)
Theorem rotation_quantization_clamps (q : spec_float) :
  F32.is_nan q = false ->
  exists b,
    0 <= b <= 255
    /\ SFtrunc (np_clip (F32.add (F32.mul q c_128) c_128) f32_zero c_255)
       = Some b
    /\ (forall cast_undefined, quantize_rot cast_undefined q = b)
    /\ F32.add (F32.mul f32_one c_128) c_128 = F32.of_Z 256
    /\ (forall cast_undefined, quantize_rot cast_undefined f32_one = 255).
Proof.
  intros Hq.
  assert (Hx : bounded32 (F32.add (F32.mul q c_128) c_128)
               /\ not_nan (F32.add (F32.mul q c_128) c_128)).
  { rewrite c_128_eq. split.
    - apply add_bounded; [apply mul_bounded | simpl; lia].
    - apply add_const_not_nan, mul_const_not_nan, Hq. }
  destruct Hx as [Hb Hn].
  destruct (clip_0_255 _ Hb Hn) as [b [Ht Hr]].
  exists b. split; [exact Hr|]. split; [exact Ht|]. split.
  - intros cast_undefined. unfold quantize_rot, astype_uint8. rewrite Ht.
    destruct (Z.leb_spec 0 b); [|lia].
    destruct (Z.leb_spec b 255); [reflexivity | lia].
  - split; [reflexivity | intros; reflexivity].
Qed.

(** ** Colour quantization *)

(** [SFfloor] is the floor of the real value. *)
Lemma SFfloor_spec s m e :
  let b := Z.shiftl (cond_Zopp s (Z.pos m)) e in
  (IZR b <= val (S754_finite s m e) < IZR b + 1)%R.
Proof.
  cbv zeta. unfold val.
  set (z := cond_Zopp s (Z.pos m)).
  assert (Hz : ((if s then -1 else 1) * IZR (Z.pos m) = IZR z)%R).
  { unfold z. destruct s; cbn [cond_Zopp].
    - rewrite opp_IZR. lra.
    - lra. }
  rewrite Hz. clear Hz. clearbody z.
  destruct (Z.le_gt_cases 0 e) as [He | He].
  - rewrite Z.shiftl_mul_pow2 by assumption.
    rewrite <- IZR_mul_pow2 by assumption. lra.
  - rewrite Z.shiftl_div_pow2 by lia.
    pose proof (Z.pow_pos_nonneg 2 (- e) ltac:(lia) ltac:(lia)) as Hp.
    pose proof (Z.mul_div_le z (2 ^ (- e)) Hp) as Hle.
    pose proof (Z.mul_succ_div_gt z (2 ^ (- e)) Hp) as Hgt.
    apply IZR_le in Hle. apply IZR_lt in Hgt.
    rewrite mult_IZR in Hle, Hgt. rewrite pow2_IZR in Hle, Hgt by lia.
    unfold Z.succ in Hgt. rewrite plus_IZR in Hgt.
    pose proof (pow2_pos e) as Hpe. pose proof (pow2_pos (- e)) as Hpn.
    assert (Hinv : (pow2 (- e) * pow2 e = 1)%R).
    { rewrite <- pow2_add. replace (- e + e) with 0 by lia. reflexivity. }
    set (q := IZR (z / 2 ^ (- e))) in *. set (pn := pow2 (- e)) in *.
    set (pe := pow2 e) in *.
    assert (H1 : (pn * q * pe <= IZR z * pe)%R)
      by (apply Rmult_le_compat_r; lra).
    assert (H2 : (IZR z * pe < pn * (q + 1) * pe)%R)
      by (apply Rmult_lt_compat_r; lra).
    replace (pn * q * pe)%R with (q * (pn * pe))%R in H1 by ring.
    replace (pn * (q + 1) * pe)%R with ((q + 1) * (pn * pe))%R in H2 by ring.
    rewrite Hinv in H1, H2. lra.
Qed.

Lemma floor_below m e K :
  (val (S754_finite false m e) < IZR K)%R ->
  0 <= Z.shiftl (Z.pos m) e < K.
Proof.
  intros Hlt.
  pose proof (SFfloor_spec false m e) as [Hlo _]. cbv zeta in Hlo.
  cbn [cond_Zopp] in Hlo.
  split.
  - destruct (Z.le_gt_cases 0 e).
    + rewrite Z.shiftl_mul_pow2 by assumption.
      pose proof (Z.pow_pos_nonneg 2 e ltac:(lia) ltac:(lia)). nia.
    + rewrite Z.shiftl_div_pow2 by lia. apply Z.div_pos; [lia|].
      apply Z.pow_pos_nonneg; lia.
  - apply lt_IZR. lra.
Qed.

Lemma clip_unit x :
  bounded32 x -> not_nan x -> unit_color (np_clip x f32_zero f32_one).
Proof.
  rewrite f32_one_eq.
  destruct x as [s|s| |s m e]; intros Hb Hn; try discriminate.
  - destruct s; constructor.
  - destruct s; [constructor | apply unit_one].
  - destruct s; [constructor|].
    destruct Hb as [Hm He].
    unfold np_clip, F32.is_nan, F32.gt, F32.lt, SFltb, f32_zero.
    cbn [SFcompare].
    destruct (Z.compare_spec e (-23)) as [-> | Hlt | Hgt].
    + destruct (Pos.compare_cont Eq m 8388608) eqn:Hc.
      * apply unit_one.
      * change (Z.pos m < 8388608) in Hc.
        apply unit_frac; [assumption | right; split; [reflexivity|]].
        change (2 ^ 23) with 8388608. exact Hc.
      * apply unit_one.
    + apply unit_frac; [assumption | now left].
    + apply unit_one.
Qed.

Lemma pow2_neg16 : pow2 (-16) = (/ 65536)%R.
Proof. unfold pow2. simpl. lra. Qed.

Lemma unit_color_val y : unit_color y -> (0 <= val y <= 1)%R.
Proof.
  intros [|  |m e Hm He].
  - simpl. lra.
  - rewrite f32_one_eq. unfold val.
    replace (pow2 (-23)) with (/ 8388608)%R by (unfold pow2; simpl; lra).
    lra.
  - unfold val. pose proof (pow2_pos e) as Hp.
    assert (H0 : (0 < IZR (Z.pos m))%R) by (apply IZR_lt; lia).
    split; [nra|].
    destruct He as [He | [-> Hm']].
    + assert (Hle : (pow2 e <= pow2 (-24))%R) by (apply pow2_le; lia).
      apply IZR_lt in Hm. rewrite pow2_IZR in Hm by lia.
      assert (H1 : (pow2 24 * pow2 (-24) = 1)%R).
      { rewrite <- pow2_add. reflexivity. }
      pose proof (pow2_pos 24). pose proof (pow2_pos (-24)).
      assert (IZR (Z.pos m) * pow2 e <= pow2 24 * pow2 (-24))%R.
      { apply Rmult_le_compat; lra. }
      lra.
    + apply IZR_lt in Hm'. rewrite pow2_IZR in Hm' by lia.
      assert (H1 : (pow2 23 * pow2 (-23) = 1)%R).
      { rewrite <- pow2_add. reflexivity. }
      pose proof (pow2_pos 23). pose proof (pow2_pos (-23)).
      assert (IZR (Z.pos m) * pow2 (-23) <= pow2 23 * pow2 (-23))%R.
      { apply Rmult_le_compat_r; lra. }
      lra.
Qed.

Lemma unit_color_finite y : unit_color y -> is_finite y = true.
Proof. now intros [| |m e Hm He]. Qed.

(** [color * 255.0] for a colour in the unit interval. *)
Lemma mul_255_small m e :
  Z.pos m < 2 ^ 24 ->
  e < -23 \/ (e = -23 /\ Z.pos m < 2 ^ 23) ->
  let y := S754_finite false m e in
  F32.mul y c_255 = S754_zero false
  \/ exists m' e',
       F32.mul y c_255 = S754_finite false m' e'
       /\ e' <= 104
       /\ (val (F32.mul y c_255) <= 255 + / 65536)%R.
Proof.
  intros Hm He y.
  pose proof (unit_color_val y (unit_frac m e Hm He)) as [Hy0 Hy1].
  unfold y in *. rewrite c_255_eq.
  change (F32.mul (S754_finite false m e) (S754_finite false 16711680 (-16)))
    with (binary_round_aux F32.prec F32.emax false
            (Z.pos (m * 16711680)) (e + -16) loc_Exact).
  assert (Hval : (IZR (Z.pos (m * 16711680)) * pow2 (e + -16)
                  = 255 * val (S754_finite false m e))%R).
  { rewrite Pos2Z.inj_mul, mult_IZR, pow2_add, pow2_neg16. unfold val.
    lra. }
  assert (Hlt : (IZR (Z.pos (m * 16711680)) * pow2 (e + -16) < pow2 8)%R).
  { rewrite Hval. replace (pow2 8) with 256%R by (unfold pow2; simpl; lra).
    lra. }
  destruct (binary_round_aux_small false (Z.pos (m * 16711680)) (e + -16)
              loc_Exact 8 ltac:(lia) Hlt ltac:(lia) ltac:(lia))
    as [Hz | [m' [e' (HR & Hm' & He' & Hv)]]].
  - now left.
  - right. exists m', e'. rewrite HR. split; [reflexivity|].
    split; [lia|]. unfold val.
    replace (Z.max (e + -16) (fexp32 8)) with (-16) in Hv
      by (unfold fexp32; lia).
    rewrite pow2_neg16, Hval in Hv. lra.
Qed.

(** [p + 0.5] for a product below 256. *)
Lemma add_half_small m e :
  e <= 104 ->
  (val (S754_finite false m e) <= 255 + / 65536)%R ->
  let t := F32.add (S754_finite false m e) c_half in
  exists b, SFtrunc t = Some b /\ SFfloor t = Some b /\ 0 <= b <= 255.
Proof.
  intros He Hv t. unfold t. rewrite c_half_eq.
  unfold F32.add, SFadd. cbn [cond_Zopp].
  set (ez := Z.min e (-24)).
  pose proof (shl_align_spec m e ez) as [_ Ha].
  pose proof (shl_align_value m e ez) as Hva.
  pose proof (shl_align_spec 8388608 (-24) ez) as [_ Hb].
  pose proof (shl_align_value 8388608 (-24) ez) as Hvb.
  assert (Hsa : snd (shl_align m e ez) = ez)
    by (destruct (shl_align_spec m e ez) as [-> _]; unfold ez; lia).
  assert (Hsb : snd (shl_align 8388608 (-24) ez) = ez)
    by (destruct (shl_align_spec 8388608 (-24) ez) as [-> _]; unfold ez; lia).
  rewrite Hsa in Hva. rewrite Hsb in Hvb.
  set (ma := fst (shl_align m e ez)) in *.
  set (mb := fst (shl_align 8388608 (-24) ez)) in *.
  change (Z.pos ma + Z.pos mb) with (Z.pos (ma + mb)).
  cbn [binary_normalize].
  assert (Hsum : (IZR (Z.pos (ma + mb)) * pow2 ez
                  = val (S754_finite false m e) + / 2)%R).
  { rewrite Pos2Z.inj_add, plus_IZR, Rmult_plus_distr_r, Hva, Hvb.
    unfold val.
    replace (pow2 (-24)) with (/ 16777216)%R by (unfold pow2; simpl; lra).
    lra. }
  assert (Hlt : (IZR (Z.pos (ma + mb)) * pow2 ez < pow2 8)%R).
  { rewrite Hsum. replace (pow2 8) with 256%R by (unfold pow2; simpl; lra).
    lra. }
  destruct (binary_round_small false (ma + mb) ez 8 Hlt
              ltac:(unfold ez; lia) ltac:(lia))
    as [-> | [m' [e' (-> & Hm' & He' & Hv')]]].
  - exists 0. repeat split; lia.
  - replace (Z.max ez (fexp32 8)) with (-16) in Hv'
      by (unfold ez, fexp32; lia).
    rewrite pow2_neg16, Hsum in Hv'.
    assert (Hb256 : (val (S754_finite false m' e') < IZR 256)%R)
      by (unfold val; lra).
    pose proof (floor_below m' e' 256 Hb256) as Hfl.
    exists (Z.shiftl (Z.pos m') e'). repeat split; lia.
Qed.

(** Every half-integer below 255 rounds up. *)
Lemma half_odd_rounds_up k :
  0 <= k <= 254 -> SFtrunc (F32.add (half_odd k) c_half) = Some (k + 1).
Proof.
  intros Hk.
  assert (Hall : forallb
            (fun n =>
               match SFtrunc (F32.add (half_odd (Z.of_nat n)) c_half) with
               | Some z => z =? Z.of_nat n + 1
               | None => false
               end) (seq 0 255) = true) by (vm_compute; reflexivity).
  rewrite forallb_forall in Hall.
  specialize (Hall (Z.to_nat k)). rewrite Z2Nat.id in Hall by lia.
  assert (Hin : In (Z.to_nat k) (seq 0 255)) by (apply in_seq; lia).
  specialize (Hall Hin).
  destruct (SFtrunc (F32.add (half_odd k) c_half)) as [z|];
    [|discriminate].
  apply Z.eqb_eq in Hall. now subst.
Qed.

(** C2. Colour decode and quantization. The decoded channel is [np_clip (SH_C0 * c + 0.5) 0 1] in float32, with [SH_C0] the float32 nearest to 0.282095. For every [c] that is not NaN the colour is a finite number of [0, 1] and its byte is the floor of the float32 value [color * 255 + 0.5], between 0 and 255, whatever the platform does on casts that do not fit. Colour 1.0 gives 255, colour 0.0 gives 0, and a product [color * 255] that is exactly [k + 1/2] gives [k + 1] for every [k] from 0 to 254 (half up, also for even [k]). *)
Theorem color_quantization (cast_undefined : spec_float -> Z)
    (c : spec_float) :
  SH_C0 = S754_finite false 9465537 (-25)
  /\ decode_color c
     = np_clip (F32.add (F32.mul SH_C0 c) c_half) f32_zero f32_one
  /\ (F32.is_nan c = false ->
      let color := decode_color c in
      let t := F32.add (F32.mul color c_255) c_half in
      is_finite color = true
      /\ (0 <= val color <= 1)%R
      /\ exists b,
           quantize_unit cast_undefined color = b
           /\ SFfloor t = Some b
           /\ 0 <= b <= 255)
  /\ quantize_unit cast_undefined f32_one = 255
  /\ quantize_unit cast_undefined f32_zero = 0
  /\ (forall color k,
        0 <= k <= 254 ->
        F32.mul color c_255 = half_odd k ->
        quantize_unit cast_undefined color = k + 1).
Proof.
  split; [reflexivity|]. split; [reflexivity|]. split; [|split; [|split]].
  - intros Hc color t.
    assert (Hu : unit_color color).
    { unfold color, decode_color. apply clip_unit.
      - rewrite c_half_eq. apply add_bounded; [apply mul_bounded | simpl; lia].
      - rewrite c_half_eq. apply add_const_not_nan.
        destruct c as [s|s| |s m e]; try discriminate; try reflexivity.
        eapply rounded_not_nan, binary_round_aux_rounded. lia. }
    split; [now apply unit_color_finite|].
    split; [now apply unit_color_val|].
    assert (Hq : forall b, SFtrunc t = Some b -> 0 <= b <= 255 ->
                 quantize_unit cast_undefined color = b).
    { intros b Ht Hb. unfold quantize_unit, astype_uint8. fold t.
      rewrite Ht. destruct (Z.leb_spec 0 b); [|lia].
      destruct (Z.leb_spec b 255); [reflexivity | lia]. }
    unfold t in *. clear t. clearbody color.
    destruct Hu as [| |m e Hm He].
    + exists 0. split; [apply Hq; [reflexivity | lia]|].
      split; [reflexivity | lia].
    + exists 255. split; [apply Hq; [reflexivity | lia]|].
      split; [reflexivity | lia].
    + destruct (mul_255_small m e Hm He)
        as [Hz | [m' [e' (HR & He' & Hv)]]]; cbv zeta in *.
      * rewrite Hz in *. exists 0.
        split; [apply Hq; [reflexivity | lia]|].
        split; [reflexivity | lia].
      * rewrite HR in *.
        destruct (add_half_small m' e' He' Hv) as [b (Ht & Hf & Hb)].
        exists b. split; [now apply Hq|]. split; assumption.
  - reflexivity.
  - reflexivity.
  - intros color k Hk Hp. unfold quantize_unit, astype_uint8.
    rewrite Hp, (half_odd_rounds_up k Hk).
    destruct (Z.leb_spec 0 (k + 1)); [|lia].
    destruct (Z.leb_spec (k + 1) 255); [reflexivity | lia].
Qed.

(** ** Overflow *)

Lemma Zdigits2_div_pow2 M k :
  0 <= M -> 0 <= k ->
  Zdigits2 (M / 2 ^ k) <= Z.max (Zdigits2 M - k) 0.
Proof.
  intros HM Hk.
  pose proof (Zdigits2_lt M HM) as HltM.
  pose proof (Zdigits2_nonneg M).
  apply Zdigits2_le_of_lt; [|lia|].
  - apply Z.div_pos; [assumption | apply Z.pow_pos_nonneg; lia].
  - apply Z.div_lt_upper_bound; [apply Z.pow_pos_nonneg; lia|].
    rewrite <- Z.pow_add_r by lia.
    eapply Z.lt_le_trans; [exact HltM|].
    apply Z.pow_le_mono_r; lia.
Qed.

Lemma Zdigits2_succ_bound a b :
  0 <= a -> a <= b + 1 -> 0 <= b -> Zdigits2 a <= Zdigits2 b + 1.
Proof.
  intros Ha Hab Hb.
  pose proof (Zdigits2_lt b Hb) as Hlt.
  pose proof (Zdigits2_nonneg b).
  apply Zdigits2_le_of_lt; [assumption | lia |].
  rewrite Z.pow_add_r by lia. change (2 ^ 1) with 2. lia.
Qed.

Lemma Zdigits2_mono a b : 0 <= a <= b -> Zdigits2 a <= Zdigits2 b.
Proof.
  intros [Ha Hab].
  pose proof (Zdigits2_lt b ltac:(lia)).
  pose proof (Zdigits2_nonneg b).
  apply Zdigits2_le_of_lt; lia.
Qed.

(** A number with at most 127 binary digits before the point does not
    round to an infinity. *)
Lemma binary_round_aux_no_overflow s M E l :
  0 <= M -> E <= 104 -> Zdigits2 M + E <= 127 ->
  is_finite (binary_round_aux F32.prec F32.emax s M E l) = true.
Proof.
  intros HM HE Hd.
  destruct (binary_round_aux_spec s M E l HM) as [m1 [Hb [_ ->]]].
  cbv zeta in *.
  set (e' := Z.max E (fexp32 (Zdigits2 M + E))) in *.
  set (e'' := Z.max e' (fexp32 (Zdigits2 m1 + e'))) in *.
  assert (He'lo : E <= e') by (unfold e'; lia).
  assert (Hq : 0 <= M / 2 ^ (e' - E)).
  { apply Z.div_pos; [lia|]. apply Z.pow_pos_nonneg; lia. }
  assert (Hm : 0 <= m1 / 2 ^ (e'' - e')).
  { apply Z.div_pos; [lia|]. apply Z.pow_pos_nonneg; unfold e''; lia. }
  destruct (bra_result_cases s _ e'' Hm)
    as [[_ ->] | [(Hp & He & _) | (_ & _ & ->)]]; try reflexivity.
  exfalso.
  assert (He' : e' <= 104) by (unfold e', fexp32; lia).
  pose proof (Zdigits2_div_pow2 M (e' - E) HM ltac:(lia)) as Hdq.
  pose proof (Zdigits2_succ_bound m1 (M / 2 ^ (e' - E)) ltac:(lia)
                ltac:(lia) Hq) as Hd1.
  unfold e'', fexp32 in He. lia.
Qed.

(** A number with more than 128 digits before the point overflows. *)
Lemma binary_round_aux_overflow s M E l :
  0 < M -> 129 <= Zdigits2 M + E ->
  binary_round_aux F32.prec F32.emax s M E l = S754_infinity s.
Proof.
  intros HM Hd.
  destruct (binary_round_aux_spec s M E l ltac:(lia)) as [m1 [Hb [_ ->]]].
  cbv zeta in *.
  set (e' := Z.max E (fexp32 (Zdigits2 M + E))) in *.
  set (e'' := Z.max e' (fexp32 (Zdigits2 m1 + e'))) in *.
  assert (He' : 105 <= e') by (unfold e', fexp32; lia).
  assert (He'' : e' <= e'') by (unfold e''; lia).
  assert (Hk : 0 <= e' - E) by (unfold e'; lia).
  pose proof (Z.pow_pos_nonneg 2 (e' - E) ltac:(lia) Hk) as Hp1.
  pose proof (Z.pow_pos_nonneg 2 (e'' - e') ltac:(lia) ltac:(lia)) as Hp2.
  (* the first shift keeps a non-zero mantissa *)
  assert (Hq : 0 < M / 2 ^ (e' - E)).
  { apply Z.div_str_pos. split; [lia|].
    pose proof (Zdigits2_ge M HM) as Hge.
    eapply Z.le_trans; [|exact Hge].
    assert (1 <= Zdigits2 M) by (destruct M; simpl; lia).
    apply Z.pow_le_mono_r; [lia|]. unfold e', fexp32 in *. lia. }
  assert (Hm1 : 0 < m1) by lia.
  (* and so does the second *)
  assert (Hm : 0 < m1 / 2 ^ (e'' - e')).
  { apply Z.div_str_pos. split; [lia|].
    pose proof (Zdigits2_ge m1 Hm1) as Hge.
    eapply Z.le_trans; [|exact Hge].
    assert (1 <= Zdigits2 m1) by (destruct m1; simpl; lia).
    apply Z.pow_le_mono_r; [lia|]. unfold e'', fexp32 in *. lia. }
  destruct (m1 / 2 ^ (e'' - e')) as [|p|p] eqn:Hmm; try lia.
  unfold bra_result.
  destruct (Z.leb_spec e'' 104); [lia | reflexivity].
Qed.

(** ** Quaternion normalization *)

Lemma rounded_nonneg32 E x : rounded false E x -> nonneg32 x.
Proof. now intros [| |m e Hm He]. Qed.

Lemma mul_self_nonneg x : is_finite x = true -> nonneg32 (F32.mul x x).
Proof.
  destruct x as [s|s| |s m e]; try discriminate; intros _.
  - simpl. apply xorb_nilpotent.
  - unfold F32.mul, SFmul. rewrite xorb_nilpotent.
    eapply rounded_nonneg32, binary_round_aux_rounded. lia.
Qed.

(** The square of a number of 2^64 or more is plus infinity. *)
Lemma mul_self_overflow s m e :
  65 <= Zdigits2 (Z.pos m) + e ->
  F32.mul (S754_finite s m e) (S754_finite s m e) = pinf.
Proof.
  intros Hd. unfold F32.mul, SFmul. rewrite xorb_nilpotent.
  apply binary_round_aux_overflow; [lia|].
  pose proof (Zdigits2_ge (Z.pos m) ltac:(lia)) as Hge.
  assert (Hd1 : 1 <= Zdigits2 (Z.pos m)) by (simpl; lia).
  assert (Hsq : 2 ^ (2 * Zdigits2 (Z.pos m) - 2) <= Z.pos (m * m)).
  { replace (2 * Zdigits2 (Z.pos m) - 2)
      with ((Zdigits2 (Z.pos m) - 1) + (Zdigits2 (Z.pos m) - 1)) by lia.
    rewrite Z.pow_add_r by lia. rewrite Pos2Z.inj_mul.
    pose proof (Z.pow_pos_nonneg 2 (Zdigits2 (Z.pos m) - 1)
                  ltac:(lia) ltac:(lia)).
    nia. }
  assert (Hk : 0 <= 2 * Zdigits2 (Z.pos m) - 2) by lia.
  pose proof (Zdigits2_ge_of_le _ _ Hk Hsq). lia.
Qed.

Lemma add_nonneg a b : nonneg32 a -> nonneg32 b -> nonneg32 (F32.add a b).
Proof.
  destruct a as [sa|sa| |sa ma ea], b as [sb|sb| |sb mb eb];
    simpl; intros Ha Hb; subst; try contradiction; try reflexivity.
  unfold F32.add, SFadd. cbn [cond_Zopp].
  match goal with
  | |- context [Z.pos ?a + Z.pos ?b] =>
      change (Z.pos a + Z.pos b) with (Z.pos (a + b))
  end.
  cbn [binary_normalize].
  destruct (binary_round_rounded false
              (fst (shl_align ma ea (Z.min ea eb))
               + fst (shl_align mb eb (Z.min ea eb))) (Z.min ea eb))
    as [E Hr].
  eapply rounded_nonneg32, Hr.
Qed.

Lemma add_pinf_l b : nonneg32 b -> F32.add pinf b = pinf.
Proof.
  destruct b as [sb|sb| |sb mb eb]; simpl; intros Hb; subst;
    try contradiction; reflexivity.
Qed.

Lemma add_pinf_r a : nonneg32 a -> F32.add a pinf = pinf.
Proof.
  destruct a as [sa|sa| |sa ma ea]; simpl; intros Ha; subst;
    try contradiction; reflexivity.
Qed.

Lemma fold_add_nonneg r : forall acc,
  nonneg32 acc -> Forall nonneg32 r ->
  nonneg32 (fold_left F32.add r acc)
  /\ (acc = pinf \/ In pinf r -> fold_left F32.add r acc = pinf).
Proof.
  induction r as [|x r IH]; intros acc Hacc Hr; simpl.
  - split; [assumption|]. intros [H | []]. exact H.
  - inversion Hr as [|? ? Hx Hr']; subst.
    destruct (IH (F32.add acc x) (add_nonneg _ _ Hacc Hx) Hr') as [H1 H2].
    split; [exact H1|].
    intros [-> | [-> | Hin]]; apply H2.
    + left. now apply add_pinf_l.
    + left. now apply add_pinf_r.
    + now right.
Qed.

Lemma np_sum_nonneg l :
  Forall nonneg32 l ->
  nonneg32 (np_sum l) /\ (In pinf l -> np_sum l = pinf).
Proof.
  destruct l as [|x r]; intros Hl.
  - split; [reflexivity | contradiction].
  - inversion Hl as [|? ? Hx Hr]; subst. unfold np_sum.
    destruct (fold_add_nonneg r x Hx Hr) as [H1 H2].
    split; [exact H1|]. intros [-> | Hin]; apply H2; auto.
Qed.

Lemma sqrtrem_nonneg n : 0 <= n -> 0 <= fst (Z.sqrtrem n).
Proof.
  intros Hn. pose proof (Z.sqrtrem_spec n Hn) as H.
  destruct (Z.sqrtrem n) as [q r]. simpl. lia.
Qed.

Lemma sqrt_nonneg a :
  nonneg32 a ->
  nonneg32 (F32.sqrt a) /\ (a = pinf -> F32.sqrt a = pinf).
Proof.
  destruct a as [s|s| |s m e]; simpl; intros Ha; subst;
    try contradiction.
  - split; [reflexivity | discriminate].
  - split; [reflexivity | reflexivity].
  - split; [|discriminate].
    unfold F32.sqrt, SFsqrt, SFsqrt_core_binary.
    set (m' := match e - 2 * _ with
               | Z.pos _ => Z.shiftl (Z.pos m) _
               | 0 => Z.pos m
               | Z.neg _ => 0 end).
    assert (Hm' : 0 <= m').
    { unfold m'.
      destruct (e - 2 * _) as [|p|p]; try lia.
      apply Z.shiftl_nonneg. lia. }
    pose proof (sqrtrem_nonneg m' Hm') as Hq.
    destruct (Z.sqrtrem m') as [q r]. simpl in Hq.
    eapply rounded_nonneg32, binary_round_aux_rounded. exact Hq.
Qed.

Lemma c_1e_8_eq : c_1e_8 = S754_finite false 11258999 (-50).
Proof. reflexivity. Qed.

(** The divisor [np.maximum(norm, 1e-8)]. *)
Lemma maximum_floor n :
  nonneg32 n ->
  let d := np_maximum n c_1e_8 in
  F32.ge d c_1e_8 = true
  /\ ((n = pinf /\ d = pinf)
      \/ (n <> pinf /\ exists m e, d = S754_finite false m e /\ -50 <= e)).
Proof.
  rewrite c_1e_8_eq. intros Hn. cbv zeta. unfold np_maximum.
  destruct (F32.ge n (S754_finite false 11258999 (-50))) eqn:Hge;
    cbn [orb].
  - split; [exact Hge|].
    destruct n as [s|s| |s m e]; simpl in Hn; subst; try contradiction;
      try discriminate.
    + left. auto.
    + right. split; [discriminate|]. exists m, e. split; [reflexivity|].
      unfold F32.ge in Hge. cbn [SFcompare] in Hge.
      destruct (Z.compare_spec e (-50)); try discriminate; lia.
  - assert (Hnan : F32.is_nan n = false)
      by (destruct n; simpl in Hn; try contradiction; reflexivity).
    rewrite Hnan. split; [reflexivity|].
    right. split; [intros ->; discriminate|].
    exists 11258999%positive, (-50). split; [reflexivity | lia].
Qed.

(** The quotient of a number below 2^64 by a divisor of at least 2^-50 is
    finite. *)
Lemma div_finite sx mx ex md ed :
  Zdigits2 (Z.pos mx) + ex <= 64 -> -50 <= ed ->
  is_finite (F32.div (S754_finite sx mx ex) (S754_finite false md ed))
  = true.
Proof.
  intros Hx Hd. unfold F32.div, SFdiv, SFdiv_core_binary.
  rewrite !fexp32_eq.
  set (d1 := Zdigits2 (Z.pos mx)) in *.
  set (d2 := Zdigits2 (Z.pos md)).
  assert (Hd2 : 1 <= d2) by (unfold d2; simpl; lia).
  set (e' := Z.min (fexp32 (d1 + ex - (d2 + ed))) (ex - ed)).
  set (m' := match ex - ed - e' with
             | Z.pos _ => Z.shiftl (Z.pos mx) (ex - ed - e')
             | 0 => Z.pos mx
             | Z.neg _ => 0
             end).
  assert (Hs : 0 <= ex - ed - e') by (unfold e'; lia).
  assert (Hm' : m' = Z.pos mx * 2 ^ (ex - ed - e')).
  { unfold m'. destruct (ex - ed - e') as [|p|p] eqn:Hsp; try lia.
    apply Z.shiftl_mul_pow2. lia. }
  pose proof (Z.pow_pos_nonneg 2 (ex - ed - e') ltac:(lia) Hs) as Hp.
  assert (Hm'pos : 0 < m') by (rewrite Hm'; nia).
  destruct (Z.div_eucl m' (Z.pos md)) as [q r] eqn:Hdiv.
  assert (Hq : q = m' / Z.pos md) by (unfold Z.div; now rewrite Hdiv).
  assert (Hq0 : 0 <= q) by (subst q; apply Z.div_pos; lia).
  assert (Hqle : q <= m').
  { subst q. apply Z.div_le_upper_bound; [lia|]. nia. }
  apply binary_round_aux_no_overflow; [exact Hq0 | |].
  - unfold e', fexp32. lia.
  - pose proof (Zdigits2_mono q m' ltac:(lia)) as Hmono.
    assert (Hdm : Zdigits2 m' <= d1 + (ex - ed - e')).
    { pose proof (Zdigits2_lt (Z.pos mx) ltac:(lia)) as Hlt. fold d1 in Hlt.
      assert (Hd1 : 1 <= d1) by (unfold d1; simpl; lia).
      apply Zdigits2_le_of_lt; [lia | lia |].
      rewrite Hm', Z.pow_add_r by lia. nia. }
    lia.
Qed.

Lemma div_by_pinf x :
  is_finite x = true -> is_finite (F32.div x pinf) = true.
Proof. now destruct x. Qed.

Lemma div_zero s md ed :
  is_finite (F32.div (S754_zero s) (S754_finite false md ed)) = true.
Proof. reflexivity. Qed.

(** C9, as amended. [q] is a row of the array [quat], the four rotation fields once converted to float32 by [.astype(np.float32)]. For every such row whose components are finite float32 values (zero included), each component is divided by [np_maximum norm 1e-8], a divisor that compares greater than or equal to the float32 1e-8, and every decoded component is finite: neither NaN nor an infinity. A finite [double] field beyond the float32 range is infinite once converted, and is not covered. *)
Theorem normalize_quat_finite (q : list spec_float) :
  Forall (fun x => is_finite x = true) q ->
  F32.ge (np_maximum (np_norm q) c_1e_8) c_1e_8 = true
  /\ normalize_quat q
     = map (fun x => F32.div x (np_maximum (np_norm q) c_1e_8)) q
  /\ Forall (fun x => is_finite x = true) (normalize_quat q).
Proof.
  intros Hq.
  assert (Hsq : Forall nonneg32 (map (fun x => F32.mul x x) q)).
  { apply Forall_forall. intros y Hy. apply in_map_iff in Hy.
    destruct Hy as [x [<- Hx]]. apply mul_self_nonneg.
    rewrite Forall_forall in Hq. now apply Hq. }
  destruct (np_sum_nonneg _ Hsq) as [Hsum Hsuminf].
  destruct (sqrt_nonneg _ Hsum) as [Hnorm Hnorminf].
  fold (np_norm q) in Hnorm, Hnorminf.
  destruct (maximum_floor _ Hnorm) as [Hge Hd]. cbv zeta in Hge, Hd.
  split; [exact Hge|]. split; [reflexivity|].
  unfold normalize_quat. apply Forall_forall. intros y Hy.
  apply in_map_iff in Hy. destruct Hy as [x [<- Hx]].
  rewrite Forall_forall in Hq. specialize (Hq x Hx).
  destruct Hd as [[_ ->] | [Hnotinf [m [e [-> He]]]]].
  - now apply div_by_pinf.
  - destruct x as [s|s| |s mx ex]; try discriminate.
    + apply div_zero.
    + apply div_finite; [|exact He].
      destruct (Z.le_gt_cases (Zdigits2 (Z.pos mx) + ex) 64) as [H|H];
        [exact H|].
      exfalso. apply Hnotinf, Hnorminf, Hsuminf.
      apply in_map_iff. exists (S754_finite s mx ex).
      split; [apply mul_self_overflow; lia | exact Hx].
Qed.

(** * The buffers of the delta packer, byte by byte *)

Lemma concat_map_concat {A B} (g : A -> list B) (l : list (list A)) :
  List.concat (map g (List.concat l))
  = List.concat (map (fun r => List.concat (map g r)) l).
Proof.
  induction l as [|r l IH]; simpl.
  - reflexivity.
  - rewrite map_app, concat_app, IH. reflexivity.
Qed.

Lemma nth_concat_uniform {A} (n : nat) (l : list (list A)) i j d :
  Forall (fun s => List.length s = n) l ->
  (i < List.length l)%nat -> (j < n)%nat ->
  nth (i * n + j) (List.concat l) d = nth j (nth i l []) d.
Proof.
  intros Hall. revert i. induction Hall as [|s l Hs _ IH]; intros i Hi Hj.
  - simpl in Hi. lia.
  - destruct i as [|i]; simpl.
    + rewrite app_nth1 by lia. reflexivity.
    + rewrite app_nth2 by lia.
      replace (n + i * n + j - List.length s)%nat with (i * n + j)%nat by lia.
      apply IH; [simpl in Hi; lia | assumption].
Qed.

Lemma row_bytes_length (r : list spec_float) :
  List.length (List.concat (map F32.to_bytes r)) = (4 * List.length r)%nat.
Proof.
  rewrite (concat_length_uniform 4).
  - now rewrite length_map.
  - apply Forall_forall. intros b Hb. apply in_map_iff in Hb.
    destruct Hb as [x [<- _]]. apply length_le_split.
Qed.

(** The bytes of row [j] in the file of a rank-2 array. *)
Lemma tofile2_chunk (rows : list (list spec_float)) w j bs :
  wide w rows -> PackDeltas.tofile2 rows = Binary bs ->
  (j < List.length rows)%nat ->
  List.length bs = (4 * w * List.length rows)%nat
  /\ firstn (4 * w) (skipn (4 * w * j) bs)
     = List.concat (map F32.to_bytes (nth j rows [])).
Proof.
  intros Hw [= <-] Hj. rewrite concat_map_concat.
  assert (Huni : Forall (fun c => List.length c = (4 * w)%nat)
                   (map (fun r => List.concat (map F32.to_bytes r)) rows)).
  { apply Forall_forall. intros c Hc. apply in_map_iff in Hc.
    destruct Hc as [r [<- Hr]]. rewrite row_bytes_length.
    unfold wide in Hw. rewrite Forall_forall in Hw. now rewrite (Hw r Hr). }
  split.
  - rewrite (concat_length_uniform _ _ Huni), length_map. reflexivity.
  - rewrite (concat_chunk _ _ _ Huni) by (now rewrite length_map).
    now rewrite (nth_map_in _ _ _ []).
Qed.

(** The bytes of point [j] of frame [i] in the file of a rank-3 array. *)
Lemma tofile3_chunk (a : list (list (list spec_float))) n w i j bs :
  Forall (fun slab => List.length slab = n /\ wide w slab) a ->
  PackDeltas.tofile3 a = Binary bs ->
  (i < List.length a)%nat -> (j < n)%nat ->
  firstn (4 * w) (skipn (4 * w * (i * n + j)) bs)
  = List.concat (map F32.to_bytes (nth j (nth i a []) [])).
Proof.
  intros Hall Hbs Hi Hj.
  assert (Hn : Forall (fun slab => List.length slab = n) a)
    by (eapply Forall_impl; [|exact Hall]; now intros s [? _]).
  assert (Hw : wide w (List.concat a)).
  { unfold wide. apply Forall_forall. intros r Hr. apply in_concat in Hr.
    destruct Hr as [slab [Hslab Hr]]. rewrite Forall_forall in Hall.
    destruct (Hall _ Hslab) as [_ Hws]. unfold wide in Hws.
    rewrite Forall_forall in Hws. now apply Hws. }
  assert (Hlen : List.length (List.concat a) = (n * List.length a)%nat)
    by (now apply concat_length_uniform).
  destruct (tofile2_chunk (List.concat a) w (i * n + j) bs Hw Hbs)
    as [_ Hchunk]; [rewrite Hlen; nia|].
  rewrite Hchunk. now rewrite (nth_concat_uniform n).
Qed.

Section Buffers.

Context {env : Environment}.
Variable exp32 : spec_float -> spec_float.
Variable float_repr : spec_float -> string.

Import PackDeltas.

(** The file and the frame at one index of a loaded sequence. *)
Lemma loaded_at files frames i name f :
  Forall2 (loads exp32) files frames ->
  nth_error files i = Some (name, f) ->
  exists v,
    read_vertices name f = Ok v
    /\ nth_error frames i = Some (frame_of exp32 v).
Proof.
  intros Hload. revert i.
  induction Hload as [|[p g] fr files frames Hl _ IH]; intros i Hi.
  - destruct i; discriminate.
  - destruct i as [|i]; simpl in Hi.
    + injection Hi as -> ->. unfold loads in Hl. simpl in Hl.
      destruct (load_frame_inv exp32 _ _ _ Hl) as [v [Hv ->]].
      exists v. split; [exact Hv | reflexivity].
    + simpl. now apply IH.
Qed.

Lemma frame_of_lengths v :
  List.length (pos (frame_of exp32 v)) = List.length (records v)
  /\ List.length (rgba (frame_of exp32 v)) = List.length (records v)
  /\ List.length (scale (frame_of exp32 v)) = List.length (records v).
Proof. unfold frame_of. cbn [pos rgba scale]. now rewrite !length_map. Qed.

Lemma written_files files frames fr0 fps st name c :
  In (name, c)
     [("pos0.bin"%string, tofile2 (pos fr0));
      ("rgba.bin"%string, tofile3 (map rgba frames));
      ("scale.bin"%string, tofile3 (map scale_slab frames))] ->
  In (name, c) (written float_repr files frames fr0 fps st).
Proof.
  unfold written, write. intros Hin. simpl in Hin.
  destruct (has_f_rest fr0); simpl; tauto.
Qed.

Lemma valid_sequence_at files frames fr0 i name f :
  valid_sequence exp32 files frames fr0 ->
  nth_error files i = Some (name, f) ->
  exists v,
    read_vertices name f = Ok v
    /\ nth_error frames i = Some (frame_of exp32 v)
    /\ List.length (records v) = List.length (pos fr0)
    /\ (i < List.length frames)%nat.
Proof.
  intros [Hload [_ Hall]] Hi.
  destruct (loaded_at _ _ _ _ _ Hload Hi) as [v [Hv Hfr]].
  exists v. split; [exact Hv|]. split; [exact Hfr|].
  rewrite Forall_forall in Hall.
  destruct (Hall _ (nth_error_In _ _ Hfr)) as [Hn _].
  destruct (frame_of_lengths v) as [Hp _]. split; [congruence|].
  apply nth_error_Some. congruence.
Qed.

Lemma valid_sequence_length files frames fr0 :
  valid_sequence exp32 files frames fr0 ->
  List.length frames = List.length files.
Proof. intros [Hload _]. symmetry. eapply Forall2_length, Hload. Qed.

Lemma valid_sequence_rows files frames fr0 fr :
  valid_sequence exp32 files frames fr0 -> In fr frames ->
  List.length (rgba fr) = List.length (pos fr0)
  /\ wide 4 (rgba fr)
  /\ List.length (scale_slab fr) = List.length (pos fr0)
  /\ wide 4 (scale_slab fr).
Proof.
  intros Hvalid Hin.
  destruct (valid_sequence_frames exp32 _ _ _ _ Hvalid Hin) as [Hn _].
  destruct Hvalid as [Hload _].
  assert (Hv : exists v, fr = frame_of exp32 v).
  { clear Hn. induction Hload as [|[p g] fr' files frames Hl _ IH].
    - contradiction.
    - destruct Hin as [-> | Hin]; [|now apply IH].
      unfold loads in Hl. simpl in Hl.
      destruct (load_frame_inv exp32 _ _ _ Hl) as [v [_ ->]]. now exists v. }
  destruct Hv as [v ->].
  unfold scale_slab, frame_of in *. cbn [pos rgba scale] in *.
  rewrite !length_map in *.
  repeat split; try assumption; unfold wide; apply Forall_forall;
    intros r Hr; repeat (apply in_map_iff in Hr; destruct Hr as [? [<- Hr]]);
    reflexivity.
Qed.

(** X7. [rgba.bin]. On a sequence that passes every validation [rgba.bin] holds [16 * K * N] bytes; the 16 bytes at offset [16 * (i * N + j)] are the little-endian float32 values of the three decoded colour channels and of [sigmoid (opacity)] of point [j] of the [i]-th file in name order. *)
Theorem rgba_buffer_layout input_dir fps st frames fr0 :
  valid_sequence exp32 (ply_files input_dir) frames fr0 ->
  let files := ply_files input_dir in
  let K := List.length files in
  let N := List.length (pos fr0) in
  exists bs,
    In ("rgba.bin"%string, Binary bs)
       (fst (main exp32 float_repr input_dir fps st))
    /\ List.length bs = (16 * (K * N))%nat
    /\ forall i name f j,
         nth_error files i = Some (name, f) -> (j < N)%nat ->
         exists v,
           read_vertices name f = Ok v
           /\ let c k := field_f32 (dtype v) k (nth j (records v) []) in
              firstn 16 (skipn (16 * (i * N + j)) bs)
              = F32.to_bytes (decode_color (c "f_dc_0"%string))
                ++ F32.to_bytes (decode_color (c "f_dc_1"%string))
                ++ F32.to_bytes (decode_color (c "f_dc_2"%string))
                ++ F32.to_bytes (sigmoid exp32 (c "opacity"%string)).
Proof.
  intros Hvalid files K N.
  destruct (tofile3 (map rgba frames)) as [bs|] eqn:Hbs; [|discriminate].
  exists bs.
  assert (Hall : Forall (fun slab => List.length slab = N /\ wide 4 slab)
                   (map rgba frames)).
  { apply Forall_forall. intros slab Hs. apply in_map_iff in Hs.
    destruct Hs as [fr [<- Hfr]].
    destruct (valid_sequence_rows _ _ _ _ Hvalid Hfr) as (H1 & H2 & _).
    now split. }
  split; [|split].
  - rewrite (main_ok exp32 float_repr input_dir fps st frames fr0 Hvalid).
    cbn [fst]. apply written_files. rewrite Hbs. simpl. tauto.
  - rewrite (tofile3_length (map rgba frames) K N 4 bs); [lia | | exact Hall
      | exact Hbs].
    rewrite length_map. now apply valid_sequence_length with (fr0 := fr0).
  - intros i name f j Hi Hj.
    destruct (valid_sequence_at _ _ _ _ _ _ Hvalid Hi)
      as [v (Hv & Hfr & Hn & Hlt)].
    exists v. split; [exact Hv|]. cbv zeta.
    change 16%nat with (4 * 4)%nat.
    rewrite (tofile3_chunk (map rgba frames) N 4 i j bs Hall Hbs)
      by (rewrite ?length_map; assumption).
    rewrite (nth_map_in _ _ _ (frame_of exp32 v)) by assumption.
    rewrite (nth_error_nth _ _ _ Hfr).
    unfold frame_of. cbn [rgba].
    rewrite (nth_map_in _ _ _ []) by (fold N in Hn; lia).
    cbn [map List.concat]. rewrite app_nil_r. reflexivity.
Qed.


(** X8. [scale.bin]. On a sequence that passes every validation [scale.bin] holds [16 * K * N] bytes; the 16 bytes at offset [16 * (i * N + j)] are the little-endian float32 values of [exp] of the three scales of point [j] of the [i]-th file in name order, followed by the four zero bytes of the padding 0.0. *)
Theorem scale_buffer_layout input_dir fps st frames fr0 :
  valid_sequence exp32 (ply_files input_dir) frames fr0 ->
  let files := ply_files input_dir in
  let K := List.length files in
  let N := List.length (pos fr0) in
  exists bs,
    In ("scale.bin"%string, Binary bs)
       (fst (main exp32 float_repr input_dir fps st))
    /\ List.length bs = (16 * (K * N))%nat
    /\ forall i name f j,
         nth_error files i = Some (name, f) -> (j < N)%nat ->
         exists v,
           read_vertices name f = Ok v
           /\ let c k := field_f32 (dtype v) k (nth j (records v) []) in
              firstn 16 (skipn (16 * (i * N + j)) bs)
              = F32.to_bytes (exp32 (c "scale_0"%string))
                ++ F32.to_bytes (exp32 (c "scale_1"%string))
                ++ F32.to_bytes (exp32 (c "scale_2"%string))
                ++ [Byte.x00; Byte.x00; Byte.x00; Byte.x00].
Proof.
  intros Hvalid files K N.
  destruct (tofile3 (map scale_slab frames)) as [bs|] eqn:Hbs;
    [|discriminate].
  exists bs.
  assert (Hall : Forall (fun slab => List.length slab = N /\ wide 4 slab)
                   (map scale_slab frames)).
  { apply Forall_forall. intros slab Hs. apply in_map_iff in Hs.
    destruct Hs as [fr [<- Hfr]].
    destruct (valid_sequence_rows _ _ _ _ Hvalid Hfr) as (_ & _ & H1 & H2).
    now split. }
  split; [|split].
  - rewrite (main_ok exp32 float_repr input_dir fps st frames fr0 Hvalid).
    cbn [fst]. apply written_files. rewrite Hbs. simpl. tauto.
  - rewrite (tofile3_length (map scale_slab frames) K N 4 bs);
      [lia | | exact Hall | exact Hbs].
    rewrite length_map. now apply valid_sequence_length with (fr0 := fr0).
  - intros i name f j Hi Hj.
    destruct (valid_sequence_at _ _ _ _ _ _ Hvalid Hi)
      as [v (Hv & Hfr & Hn & Hlt)].
    exists v. split; [exact Hv|]. cbv zeta.
    change 16%nat with (4 * 4)%nat.
    rewrite (tofile3_chunk (map scale_slab frames) N 4 i j bs Hall Hbs)
      by (rewrite ?length_map; assumption).
    rewrite (nth_map_in _ _ _ (frame_of exp32 v)) by assumption.
    rewrite (nth_error_nth _ _ _ Hfr).
    unfold scale_slab, frame_of. cbn [scale]. rewrite map_map.
    rewrite (nth_map_in _ _ _ []) by (fold N in Hn; lia).
    reflexivity.
Qed.

(** X9. [pos0.bin]. On a sequence that passes every validation [pos0.bin] holds [12 * N] bytes: for each point of the first file in name order the little-endian float32 values of x, y and z, without padding. *)
Theorem pos0_buffer_layout input_dir fps st frames fr0 :
  valid_sequence exp32 (ply_files input_dir) frames fr0 ->
  let N := List.length (pos fr0) in
  exists name0 f0 rest v0 bs,
    ply_files input_dir = (name0, f0) :: rest
    /\ read_vertices name0 f0 = Ok v0
    /\ List.length (records v0) = N
    /\ In ("pos0.bin"%string, Binary bs)
          (fst (main exp32 float_repr input_dir fps st))
    /\ List.length bs = (12 * N)%nat
    /\ forall j, (j < N)%nat ->
         let c k := field_f32 (dtype v0) k (nth j (records v0) []) in
         firstn 12 (skipn (12 * j) bs)
         = F32.to_bytes (c "x"%string) ++ F32.to_bytes (c "y"%string)
           ++ F32.to_bytes (c "z"%string).
Proof.
  intros Hvalid N.
  pose proof Hvalid as [Hload [Hhd _]].
  destruct (ply_files input_dir) as [|[name0 f0] rest] eqn:Hfiles.
  { inversion Hload; subst. discriminate. }
  destruct (valid_sequence_at _ _ _ 0%nat name0 f0 Hvalid eq_refl)
    as [v0 (Hv & Hfr & Hn & _)].
  assert (Hfr0 : fr0 = frame_of exp32 v0).
  { destruct frames as [|fr frames']; [discriminate|].
    simpl in Hhd, Hfr. congruence. }
  destruct (tofile2 (pos fr0)) as [bs|] eqn:Hbs; [|discriminate].
  exists name0, f0, rest, v0, bs.
  split; [reflexivity|]. split; [exact Hv|]. split; [exact Hn|].
  assert (Hw : wide 3 (pos fr0)).
  { apply (valid_sequence_frames exp32 _ _ _ _ Hvalid).
    destruct frames as [|fr frames']; [discriminate|].
    injection Hhd as ->. now left. }
  split; [|split].
  - rewrite <- Hfiles in Hvalid.
    rewrite (main_ok exp32 float_repr input_dir fps st frames fr0 Hvalid).
    cbn [fst]. apply written_files. rewrite Hbs. simpl. tauto.
  - destruct N as [|N'] eqn:HN.
    + injection Hbs as <-. unfold N in HN.
      apply length_zero_iff_nil in HN. rewrite HN. reflexivity.
    + destruct (tofile2_chunk (pos fr0) 3 0 bs Hw Hbs) as [Hlen _];
        [fold N; lia|].
      rewrite Hlen. fold N. lia.
  - intros j Hj. cbv zeta.
    destruct (tofile2_chunk (pos fr0) 3 j bs Hw Hbs) as [_ Hchunk];
      [exact Hj|].
    change 12%nat with (4 * 3)%nat. rewrite Hchunk.
    rewrite Hfr0. unfold frame_of. cbn [pos].
    rewrite (nth_map_in _ _ _ []) by lia.
    cbn [map List.concat]. rewrite app_nil_r. reflexivity.
Qed.

End Buffers.

(** * Colour detail and the validations of a run *)

Section Validations.

Context {env : Environment}.
Variable exp32 : spec_float -> spec_float.
Variable float_repr : spec_float -> string.

Import PackDeltas.

Lemma f_rest_slab_rows files frames fr0 fr :
  valid_sequence exp32 files frames fr0 -> has_f_rest fr0 = true ->
  In fr frames ->
  List.length (f_rest_slab fr) = List.length (pos fr0)
  /\ wide 27 (f_rest_slab fr).
Proof.
  intros Hvalid Hrest Hin.
  destruct (valid_sequence_frames exp32 _ _ _ _ Hvalid Hin) as [Hn _].
  destruct Hvalid as [Hload [_ Hall]].
  rewrite Forall_forall in Hall. destruct (Hall _ Hin) as [_ Hsome].
  specialize (Hsome Hrest).
  assert (Hv : exists v, fr = frame_of exp32 v).
  { clear Hn Hsome Hall. induction Hload as [|[p g] fr' files frames Hl _ IH].
    - contradiction.
    - destruct Hin as [-> | Hin]; [|now apply IH].
      unfold loads in Hl. simpl in Hl.
      destruct (load_frame_inv exp32 _ _ _ Hl) as [v [_ ->]]. now exists v. }
  destruct Hv as [v ->].
  unfold f_rest_slab, frame_of in *. cbn [pos f_rest] in *.
  destruct (has_all f_rest_fields v); [|congruence].
  rewrite !length_map in *. split; [assumption|].
  unfold wide. apply Forall_forall. intros r Hr.
  apply in_map_iff in Hr. destruct Hr as [r0 [<- _]].
  now rewrite length_map.
Qed.

(** X10. Colour detail. When the base frame has the 27 [f_rest] fields, a run that passes every validation writes six files, [frest.bin] among them, and the manifest gives [frest.bin] under the key [frest]; [frest.bin] holds [108 * K * N] bytes, the 108 bytes at offset [108 * (i * N + j)] being the float32 values of [f_rest_0] to [f_rest_26], in numeric order, of point [j] of the [i]-th file. *)
Theorem color_detail_buffer input_dir fps st frames fr0 :
  valid_sequence exp32 (ply_files input_dir) frames fr0 ->
  has_f_rest fr0 = true ->
  let files := ply_files input_dir in
  let K := List.length files in
  let N := List.length (pos fr0) in
  exists bs,
    main exp32 float_repr input_dir fps st
    = (write "meta.json" (Text (json_dumps float_repr (meta N K fps true)))
         (write "frest.bin" (Binary bs)
            (write "scale.bin" (tofile3 (map scale_slab frames))
               (write "rgba.bin" (tofile3 (map rgba frames))
                  (write "delta.bin"
                     (tofile3 (map (delta_slab (pos fr0)) frames))
                     (write "pos0.bin" (tofile2 (pos fr0)) st))))),
       Ok tt)
    /\ In ("frest"%string, JString "frest.bin") (meta N K fps true)
    /\ List.length bs = (108 * (K * N))%nat
    /\ forall i name f j,
         nth_error files i = Some (name, f) -> (j < N)%nat ->
         exists v,
           read_vertices name f = Ok v
           /\ firstn 108 (skipn (108 * (i * N + j)) bs)
              = List.concat
                  (map (fun k =>
                          F32.to_bytes
                            (field_f32 (dtype v) k (nth j (records v) [])))
                       f_rest_fields).
Proof.
  intros Hvalid Hrest files K N.
  destruct (tofile3 (map f_rest_slab frames)) as [bs|] eqn:Hbs;
    [|discriminate].
  exists bs.
  assert (Hall : Forall (fun slab => List.length slab = N /\ wide 27 slab)
                   (map f_rest_slab frames)).
  { apply Forall_forall. intros slab Hs. apply in_map_iff in Hs.
    destruct Hs as [fr [<- Hfr]].
    now apply (f_rest_slab_rows _ _ _ _ Hvalid Hrest). }
  split; [|split; [|split]].
  - rewrite (main_ok exp32 float_repr input_dir fps st frames fr0 Hvalid).
    unfold written. rewrite Hrest, Hbs. reflexivity.
  - simpl. tauto.
  - rewrite (tofile3_length (map f_rest_slab frames) K N 27 bs);
      [lia | | exact Hall | exact Hbs].
    rewrite length_map.
    now apply (valid_sequence_length exp32) with (fr0 := fr0).
  - intros i name f j Hi Hj.
    destruct (valid_sequence_at exp32 _ _ _ _ _ _ Hvalid Hi)
      as [v (Hv & Hfr & Hn & Hlt)].
    exists v. split; [exact Hv|].
    change 108%nat with (4 * 27)%nat.
    rewrite (tofile3_chunk (map f_rest_slab frames) N 27 i j bs Hall Hbs)
      by (rewrite ?length_map; assumption).
    rewrite (nth_map_in _ _ _ (frame_of exp32 v)) by assumption.
    rewrite (nth_error_nth _ _ _ Hfr).
    destruct Hvalid as [_ [_ Hall']]. rewrite Forall_forall in Hall'.
    destruct (Hall' _ (nth_error_In _ _ Hfr)) as [_ Hsome].
    specialize (Hsome Hrest).
    unfold f_rest_slab, frame_of in *. cbn [f_rest] in *.
    destruct (has_all f_rest_fields v); [|congruence].
    rewrite (nth_map_in _ _ _ []) by (fold N in Hn; lia).
    rewrite map_map. reflexivity.
Qed.

(** The loop stops at the first frame without colour detail. *)
Lemma pack_frames_missing_rest pre : forall frames i pos0 a arr pj fj post frj,
  Forall2 (loads exp32) pre frames ->
  Forall (fun fr => List.length (pos fr) = List.length pos0
                    /\ f_rest fr <> None) frames ->
  a_f_rest a = Some arr ->
  load_frame exp32 pj fj = Ok frj ->
  List.length (pos frj) = List.length pos0 ->
  f_rest frj = None ->
  pack_frames exp32 i (pre ++ (pj, fj) :: post) pos0 (List.length pos0) a
  = Err (MissingFRest pj).
Proof.
  induction pre as [|[p f] pre IH];
    intros frames i pos0 a arr pj fj post frj Hload Hall Ha Hj Hn Hnone;
    inversion Hload as [|? fr ? frames' Hl Hload']; subst;
    cbn [app pack_frames].
  - rewrite Hj. cbn [bind]. rewrite Hn, Nat.eqb_refl. cbn [negb].
    rewrite Ha, Hnone. reflexivity.
  - inversion Hall as [|? ? [Hn' Hrest] Hall']; subst.
    unfold loads in Hl. simpl in Hl. rewrite Hl. cbn [bind].
    rewrite Hn', Nat.eqb_refl. cbn [negb]. rewrite Ha.
    destruct (f_rest fr) as [x|] eqn:Hx; [|congruence].
    cbn [bind].
    eapply (IH frames' _ _ _ (assign_slab arr i 27 x) _ _ _ frj);
      try eassumption.
    reflexivity.
Qed.

(** X11. When the base frame has colour detail and the sorted sequence reaches a frame with the base's point count but without the complete [f_rest] set, every earlier frame having passed its validations, [main] fails with [MissingFRest] carrying that frame's path, and nothing is written. *)
Theorem missing_f_rest_aborts input_dir fps st
    pre pj fj post frames fr0 frj :
  ply_files input_dir = pre ++ (pj, fj) :: post ->
  Forall2 (loads exp32) pre frames ->
  hd_error frames = Some fr0 ->
  Forall (fun fr => List.length (pos fr) = List.length (pos fr0)
                    /\ f_rest fr <> None) frames ->
  load_frame exp32 pj fj = Ok frj ->
  List.length (pos frj) = List.length (pos fr0) ->
  f_rest frj = None ->
  main exp32 float_repr input_dir fps st = (st, Err (MissingFRest pj)).
Proof.
  intros Hfiles Hload Hhd Hall Hj Hn Hnone.
  unfold main. fold (ply_files input_dir). rewrite Hfiles.
  destruct Hload as [|[p0 f0] fr pre' frames' Hl Hload'];
    [discriminate|].
  simpl in Hhd. injection Hhd as ->.
  cbn [app]. unfold loads in Hl. simpl in Hl. rewrite Hl. cbn [bind].
  change ((p0, f0) :: pre' ++ (pj, fj) :: post)
    with (((p0, f0) :: pre') ++ (pj, fj) :: post).
  inversion Hall as [|? ? [_ Hsome] _]; subst.
  destruct (f_rest fr0) as [x0|] eqn:Hx0; [|congruence].
  erewrite pack_frames_missing_rest;
    [reflexivity | | exact Hall | reflexivity | exact Hj | exact Hn
     | exact Hnone].
  constructor; assumption.
Qed.

(** X12. [load_frame] succeeds exactly on the buffers that have the ten fields x, y, z, f_dc_0..2, opacity and scale_0..2; no rotation field is needed. With x, y and z present it fails with [MissingColorOpacity] when one of f_dc_0..2 and opacity is absent, whatever the scales, and with [MissingScale] when those are present and a scale is absent. *)
Theorem load_frame_requirements path f v :
  read_vertices path f = Ok v ->
  (has_all basic_fields v = true
   <-> exists fr, load_frame exp32 path f = Ok fr)
  /\ (has_all ["x"; "y"; "z"]%string v = true ->
      has_all ["f_dc_0"; "f_dc_1"; "f_dc_2"; "opacity"]%string v = false ->
      load_frame exp32 path f = Err (MissingColorOpacity path))
  /\ (has_all ["x"; "y"; "z"; "f_dc_0"; "f_dc_1"; "f_dc_2"; "opacity"]%string v
      = true ->
      has_all ["scale_0"; "scale_1"; "scale_2"]%string v = false ->
      load_frame exp32 path f = Err (MissingScale path)).
Proof.
  intros Hv. rewrite (load_frame_cases exp32 path f v Hv).
  unfold basic_fields, has_all, missing_fields. cbn [forallb filter].
  destruct (mem_string "x" (names v)), (mem_string "y" (names v)),
    (mem_string "z" (names v)), (mem_string "f_dc_0" (names v)),
    (mem_string "f_dc_1" (names v)), (mem_string "f_dc_2" (names v)),
    (mem_string "opacity" (names v)), (mem_string "scale_0" (names v)),
    (mem_string "scale_1" (names v)), (mem_string "scale_2" (names v));
    cbn [negb andb orb];
    (split; [split; [intros H; try discriminate H; eauto
                    | intros [fr H]; try discriminate H; reflexivity]
            | split; intros H1 H2; try discriminate H1; try discriminate H2;
              reflexivity]).
Qed.

End Validations.

(** * The header *)

(** ** Characters *)

Lemma graph_not_space c : is_graph c = true -> Header.isspace c = false.
Proof.
  unfold is_graph, Header.isspace. intros H.
  apply andb_true_iff in H. destruct H as [H1 H2].
  apply Nat.leb_le in H1, H2.
  destruct (Nat.leb_spec 9 (nat_of_ascii c)), (Nat.leb_spec (nat_of_ascii c) 13),
    (Nat.leb_spec 28 (nat_of_ascii c)), (Nat.leb_spec (nat_of_ascii c) 32);
    simpl; try reflexivity; lia.
Qed.

Lemma unsigned_byte_of_ascii c :
  byte.unsigned (byte_of_ascii c) = Z.of_nat (nat_of_ascii c).
Proof.
  destruct c as [[] [] [] [] [] [] [] []]; reflexivity.
Qed.

Lemma graph_byte c :
  is_graph c = true ->
  (byte.unsigned (byte_of_ascii c) <? 128) = true
  /\ Byte.eqb (byte_of_ascii c) Byte.x0a = false.
Proof.
  intros H. split.
  - rewrite unsigned_byte_of_ascii. unfold is_graph in H.
    apply andb_true_iff in H. destruct H as [_ H2]. apply Nat.leb_le in H2.
    apply Z.ltb_lt. lia.
  - destruct c as [[] [] [] [] [] [] [] []]; try reflexivity; discriminate H.
Qed.

(** ** Strings and their bytes *)

Lemma encode_app (a b : string) :
  encode (a ++ b) = (encode a ++ encode b)%list.
Proof.
  unfold encode. induction a as [|c a IH]; simpl; [reflexivity|].
  now rewrite IH.
Qed.

Lemma line_of_cons t t' ts :
  line_of (t :: t' :: ts) = (t ++ " " ++ line_of (t' :: ts))%string.
Proof. reflexivity. Qed.

Lemma word_inv w :
  is_word w = true ->
  exists c w', w = String c w' /\ is_graph c = true /\ all_graph w' = true.
Proof.
  unfold is_word. destruct w as [|c w']; [discriminate|].
  simpl. intros H. apply andb_true_iff in H. eauto.
Qed.

(** ** [readline] *)

Lemma readline_app pre rest :
  Forall (fun b => Byte.eqb b Byte.x0a = false) pre ->
  Header.readline (pre ++ Byte.x0a :: rest) = ((pre ++ [Byte.x0a])%list, rest).
Proof.
  induction 1 as [|b pre Hb _ IH]; simpl.
  - reflexivity.
  - now rewrite Hb, IH.
Qed.

Lemma readline_no_newline pre :
  Forall (fun b => Byte.eqb b Byte.x0a = false) pre ->
  Header.readline pre = (pre, []).
Proof.
  induction 1 as [|b pre Hb _ IH]; simpl.
  - reflexivity.
  - now rewrite Hb, IH.
Qed.

Lemma graph_bytes w :
  all_graph w = true ->
  Forall (fun b => Byte.eqb b Byte.x0a = false) (encode w).
Proof.
  unfold encode. induction w as [|c w IH]; simpl; intros H.
  - constructor.
  - apply andb_true_iff in H. destruct H as [Hc Hw].
    constructor; [apply graph_byte, Hc | apply IH, Hw].
Qed.

Lemma word_graph w : is_word w = true -> all_graph w = true.
Proof. unfold is_word. intros H. now apply andb_true_iff in H. Qed.

Lemma line_bytes toks :
  words toks ->
  Forall (fun b => Byte.eqb b Byte.x0a = false) (encode (line_of toks)).
Proof.
  induction 1 as [|t ts Ht Hts IH].
  - constructor.
  - destruct ts as [|t' ts].
    + unfold line_of. simpl. apply graph_bytes, word_graph, Ht.
    + rewrite line_of_cons, !encode_app.
      apply Forall_app. split; [apply graph_bytes, word_graph, Ht|].
      apply Forall_app. split; [repeat constructor | exact IH].
Qed.

(** ** [decode] *)

Lemma decode_ascii_app a b :
  Header.decode_ascii (a ++ b)
  = (Header.decode_ascii a ++ Header.decode_ascii b)%string.
Proof.
  unfold Header.decode_ascii. rewrite filter_app, map_app.
  generalize (map ascii_of_byte
                (filter (fun b0 => byte.unsigned b0 <? 128) a)) as l.
  induction l as [|c l IH]; simpl; [reflexivity | now rewrite IH].
Qed.

Lemma decode_graph w :
  all_graph w = true -> Header.decode_ascii (encode w) = w.
Proof.
  unfold Header.decode_ascii, encode.
  induction w as [|c w IH]; simpl; intros H; [reflexivity|].
  apply andb_true_iff in H. destruct H as [Hc Hw].
  destruct (graph_byte c Hc) as [-> _]. simpl.
  now rewrite ascii_of_byte_of_ascii, IH.
Qed.

Lemma decode_line toks :
  words toks -> Header.decode_ascii (encode (line_of toks)) = line_of toks.
Proof.
  induction 1 as [|t ts Ht Hts IH].
  - reflexivity.
  - destruct ts as [|t' ts].
    + unfold line_of. simpl. apply decode_graph, word_graph, Ht.
    + rewrite line_of_cons, !encode_app, !decode_ascii_app, IH.
      rewrite (decode_graph t) by (apply word_graph, Ht). reflexivity.
Qed.

(** ** [strip] *)

Lemma lstrip_rstrip_blank ws :
  Header.lstrip ws = EmptyString -> Header.rstrip ws = EmptyString.
Proof.
  induction ws as [|c ws IH]; simpl; [reflexivity|].
  destruct (Header.isspace c) eqn:Hc; [|discriminate].
  intros H. now rewrite (IH H).
Qed.

Lemma rstrip_app_blank s ws :
  Header.lstrip ws = EmptyString ->
  Header.rstrip (s ++ ws) = Header.rstrip s.
Proof.
  intros Hws. induction s as [|c s IH]; simpl.
  - now apply lstrip_rstrip_blank.
  - now rewrite IH.
Qed.

Lemma rstrip_graph w : all_graph w = true -> Header.rstrip w = w.
Proof.
  induction w as [|c w IH]; simpl; intros H; [reflexivity|].
  apply andb_true_iff in H. destruct H as [Hc Hw].
  rewrite (IH Hw). destruct w; [|reflexivity].
  now rewrite (graph_not_space c Hc).
Qed.

Lemma rstrip_app_fixed s t :
  Header.rstrip t = t -> t <> EmptyString ->
  Header.rstrip (s ++ t) = (s ++ t)%string.
Proof.
  intros Ht Hne. induction s as [|c s IH]; simpl; [exact Ht|].
  rewrite IH. destruct (s ++ t)%string eqn:Hst; [|reflexivity].
  destruct s; simpl in Hst; [contradiction | discriminate].
Qed.

Lemma line_of_nonempty t ts :
  is_word t = true -> line_of (t :: ts) <> EmptyString.
Proof.
  intros Ht. destruct (word_inv t Ht) as [c [w' [-> _]]].
  destruct ts; discriminate.
Qed.

Lemma rstrip_line toks :
  words toks -> Header.rstrip (line_of toks) = line_of toks.
Proof.
  induction 1 as [|t ts Ht Hts IH].
  - reflexivity.
  - destruct ts as [|t' ts].
    + unfold line_of. simpl. apply rstrip_graph, word_graph, Ht.
    + rewrite line_of_cons. apply rstrip_app_fixed.
      * change (" " ++ line_of (t' :: ts))%string
          with (String " " (line_of (t' :: ts))).
        cbn [Header.rstrip]. rewrite IH.
        destruct (line_of (t' :: ts)) eqn:Hl; [|reflexivity].
        exfalso. inversion Hts; subst.
        now apply (line_of_nonempty t' ts).
      * discriminate.
Qed.

Lemma lstrip_line toks :
  words toks -> Header.lstrip (line_of toks) = line_of toks.
Proof.
  intros Hw. destruct Hw as [|t ts Ht Hts]; [reflexivity|].
  destruct (word_inv t Ht) as [c [w' [-> [Hc _]]]].
  destruct ts as [|t' ts]; unfold line_of; simpl;
    now rewrite (graph_not_space c Hc).
Qed.

Lemma lstrip_app_line toks ws :
  words toks -> toks <> [] ->
  Header.lstrip (line_of toks ++ ws) = (line_of toks ++ ws)%string.
Proof.
  intros Hw Hne. destruct Hw as [|t ts Ht Hts]; [contradiction|].
  destruct (word_inv t Ht) as [c [w' [-> [Hc _]]]].
  destruct ts as [|t' ts]; unfold line_of; simpl;
    now rewrite (graph_not_space c Hc).
Qed.

Lemma strip_line toks ws :
  words toks -> Header.lstrip ws = EmptyString ->
  Header.strip (line_of toks ++ ws) = line_of toks.
Proof.
  intros Hw Hws. unfold Header.strip.
  destruct toks as [|t ts].
  - change (line_of []) with EmptyString. simpl. rewrite Hws. reflexivity.
  - rewrite lstrip_app_line by (assumption || discriminate).
    rewrite rstrip_app_blank by assumption. now apply rstrip_line.
Qed.

(** ** [split] *)

Lemma split_space s : Header.split (String " " s) = Header.split s.
Proof. reflexivity. Qed.

Lemma split_word_app w rest :
  is_word w = true ->
  rest = EmptyString \/ (exists r, rest = String " " r) ->
  Header.split (w ++ rest) = w :: Header.split rest.
Proof.
  intros Hw Hrest. destruct (word_inv w Hw) as [c [w' [-> [Hc Hw']]]].
  clear Hw. revert c Hc. induction w' as [|c' w' IH]; intros c Hc.
  - cbn [append Header.split]. rewrite (graph_not_space c Hc).
    destruct Hrest as [-> | [r ->]]; reflexivity.
  - simpl in Hw'. apply andb_true_iff in Hw'. destruct Hw' as [Hc' Hw'].
    specialize (IH Hw' c' Hc').
    change ((String c (String c' w') ++ rest)%string)
      with (String c (String c' w' ++ rest)%string).
    cbn [Header.split]. rewrite (graph_not_space c Hc).
    change ((String c' w' ++ rest)%string)
      with (String c' (w' ++ rest)%string) at 1.
    cbv iota. rewrite (graph_not_space c' Hc'). rewrite IH. reflexivity.
Qed.

Lemma append_nil_r (t : string) : (t ++ "")%string = t.
Proof. induction t; simpl; congruence. Qed.

Lemma split_line toks : words toks -> Header.split (line_of toks) = toks.
Proof.
  induction 1 as [|t ts Ht Hts IH].
  - reflexivity.
  - destruct ts as [|t' ts].
    + unfold line_of. cbn [String.concat].
      rewrite <- (append_nil_r t) at 1.
      rewrite split_word_app; [reflexivity | assumption | now left].
    + rewrite line_of_cons.
      rewrite split_word_app; [| assumption | right; eexists; reflexivity].
      change (" " ++ line_of (t' :: ts))%string
        with (String " " (line_of (t' :: ts))).
      rewrite split_space, IH. reflexivity.
Qed.

Lemma line_of_inj a b : words a -> words b -> line_of a = line_of b -> a = b.
Proof.
  intros Ha Hb H. rewrite <- (split_line a Ha), <- (split_line b Hb).
  now rewrite H.
Qed.

(** ** The loop over the lines *)

Lemma readline_length bs :
  (List.length (fst (Header.readline bs))
   + List.length (snd (Header.readline bs)) = List.length bs)%nat.
Proof.
  induction bs as [|b bs IH]; simpl; [reflexivity|].
  destruct (Byte.eqb b Byte.x0a); simpl; [lia|].
  destruct (Header.readline bs) as [line rest]. simpl in *. lia.
Qed.

(** Fuel above the length of the file is never used up. *)
Lemma header_loop_fuel fuel1 : forall fuel2 bs acc,
  (List.length bs < fuel1)%nat -> (List.length bs < fuel2)%nat ->
  Header.header_loop fuel1 bs acc = Header.header_loop fuel2 bs acc.
Proof.
  induction fuel1 as [|fuel1 IH]; intros fuel2 bs acc H1 H2; [lia|].
  destruct fuel2 as [|fuel2]; [lia|].
  cbn [Header.header_loop].
  pose proof (readline_length bs) as Hlen.
  destruct (Header.readline bs) as [line rest]. simpl in Hlen.
  destruct line as [|b line]; [reflexivity|].
  destruct (String.eqb _ _); [reflexivity|].
  simpl in Hlen. apply IH; lia.
Qed.

Lemma eol_cases eol :
  eol = LF \/ eol = CRLF ->
  exists pre,
    eol = (pre ++ [Byte.x0a])%list
    /\ Forall (fun b => Byte.eqb b Byte.x0a = false) pre
    /\ Header.lstrip (Header.decode_ascii eol) = EmptyString.
Proof.
  intros [-> | ->].
  - exists []. repeat split. constructor.
  - exists [Byte.x0d]. repeat split. repeat constructor.
Qed.

(** One turn of the loop on a line of tokens. *)
Lemma header_loop_line eol toks rest acc fuel :
  eol = LF \/ eol = CRLF -> words toks ->
  (List.length (encode (line_of toks) ++ eol ++ rest) < fuel)%nat ->
  Header.header_loop fuel (encode (line_of toks) ++ eol ++ rest) acc
  = if String.eqb (line_of toks) "end_header"
    then Some ((acc ++ [line_of toks])%list, rest)
    else Header.header_loop (S (List.length rest)) rest
           (acc ++ [line_of toks])%list.
Proof.
  intros Heol Hw Hfuel.
  destruct (eol_cases eol Heol) as [pre [Hpre [Hnl Hblank]]].
  set (R := Header.header_loop (S (List.length rest)) rest
              (acc ++ [line_of toks])%list).
  destruct fuel as [|fuel]; [lia|]. cbn [Header.header_loop].
  assert (Hread : Header.readline (encode (line_of toks) ++ eol ++ rest)
                  = ((encode (line_of toks) ++ eol)%list, rest)).
  { rewrite Hpre, <- !app_assoc. cbn [app].
    rewrite (app_assoc (encode (line_of toks)) pre (Byte.x0a :: rest)).
    rewrite readline_app
      by (apply Forall_app; split; [now apply line_bytes | exact Hnl]).
    now rewrite <- app_assoc. }
  rewrite Hread.
  assert (Hs : Header.strip
                 (Header.decode_ascii (encode (line_of toks) ++ eol))
               = line_of toks).
  { rewrite decode_ascii_app, decode_line by assumption.
    now apply strip_line. }
  destruct (encode (line_of toks) ++ eol)%list as [|b line] eqn:Hline.
  { apply app_eq_nil in Hline. destruct Hline as [_ Hline].
    rewrite Hpre in Hline. now destruct pre. }
  rewrite Hs.
  destruct (String.eqb (line_of toks) "end_header"); [reflexivity|].
  unfold R. apply header_loop_fuel; [|lia].
  rewrite Hpre, !length_app in Hfuel. simpl in Hfuel. lia.
Qed.

Lemma not_end_header toks :
  words toks -> toks <> ["end_header"%string] ->
  String.eqb (line_of toks) "end_header" = false.
Proof.
  intros Hw Hne. apply String.eqb_neq. intros H. apply Hne.
  apply line_of_inj; [assumption | repeat constructor | exact H].
Qed.

Lemma header_text_app eol a b :
  header_text eol (a ++ b) = (header_text eol a ++ header_text eol b)%list.
Proof. unfold header_text. now rewrite map_app, concat_app. Qed.

Lemma header_text_cons eol toks lines rest :
  (header_text eol (toks :: lines) ++ rest
   = encode (line_of toks) ++ eol ++ header_text eol lines ++ rest)%list.
Proof. unfold header_text. simpl. now rewrite <- !app_assoc. Qed.

(** The lines before [end_header]. *)
Lemma header_loop_lines eol lines : forall acc rest,
  eol = LF \/ eol = CRLF ->
  Forall words lines -> ~ In ["end_header"%string] lines ->
  Header.header_loop
    (S (List.length (header_text eol lines ++ rest)))
    (header_text eol lines ++ rest) acc
  = Header.header_loop (S (List.length rest)) rest
      (acc ++ map line_of lines)%list.
Proof.
  induction lines as [|toks lines IH]; intros acc rest Heol Hw Hne.
  - simpl. now rewrite app_nil_r.
  - inversion Hw as [|? ? Ht Hw']; subst.
    rewrite header_text_cons.
    rewrite header_loop_line by (assumption || lia).
    rewrite not_end_header by (assumption || (intros ->; apply Hne; now left)).
    rewrite IH by (assumption || (intros H; apply Hne; now right)).
    cbn [map]. now rewrite <- app_assoc.
Qed.

(** A header closed by [end_header]: its lines and the payload. *)
Lemma header_loop_closed eol lines body :
  eol = LF \/ eol = CRLF ->
  Forall words lines -> ~ In ["end_header"%string] lines ->
  Header.header_loop
    (S (List.length (header_text eol (lines ++ end_header) ++ body)))
    (header_text eol (lines ++ end_header) ++ body) []
  = Some ((map line_of lines ++ ["end_header"%string])%list, body).
Proof.
  intros Heol Hw Hne.
  rewrite header_text_app, <- app_assoc.
  rewrite header_loop_lines by assumption.
  unfold end_header. rewrite header_text_cons.
  rewrite header_loop_line;
    [reflexivity | assumption | repeat constructor | lia].
Qed.

(** A header that is not closed. *)
Lemma header_loop_open eol lines :
  eol = LF \/ eol = CRLF ->
  Forall words lines -> ~ In ["end_header"%string] lines ->
  Header.header_loop (S (List.length (header_text eol lines)))
    (header_text eol lines) [] = None.
Proof.
  intros Heol Hw Hne.
  rewrite <- (app_nil_r (header_text eol lines)).
  rewrite header_loop_lines by assumption. reflexivity.
Qed.

Lemma map_types_unsupported path props d name t :
  map_types path props = Ok d -> type_map t = None ->
  map_types path (props ++ [(name, t)]) = Err (UnsupportedType t path).
Proof.
  unfold map_types. intros Hd Ht. revert d Hd.
  induction props as [|[pn pt] props IH]; intros d Hd.
  - cbn [app mapM fst snd]. now rewrite Ht.
  - cbn [app mapM fst snd] in *.
    destruct (type_map pt) as [ty|]; [|discriminate].
    cbn [bind] in *.
    destruct (mapM _ props) as [d'|e]; [|discriminate].
    now rewrite (IH d' eq_refl).
Qed.

(** ** The scan of the lines *)

Section Scan.

Context {env : Environment}.
Variable max_str_digits : nat.

Lemma scan_lines_app s a b :
  Header.scan_lines max_str_digits s (a ++ b)
  = match Header.scan_lines max_str_digits s a with
    | Header.Parsed s' => Header.scan_lines max_str_digits s' b
    | Header.Raised e => Header.Raised e
    end.
Proof.
  revert s. induction a as [|l a IH]; intros s; simpl; [reflexivity|].
  destruct (Header.scan_line max_str_digits s l); [apply IH | reflexivity].
Qed.

Lemma scan_properties props : forall s,
  Header.in_vertex s = true ->
  Forall (fun p : string * string =>
            is_word (fst p) = true /\ is_word (snd p) = true) props ->
  Header.scan_lines max_str_digits s
    (map line_of (map property_line props))
  = Header.Parsed
      {| Header.seen_count := Header.seen_count s;
         Header.seen_properties := (Header.seen_properties s ++ props)%list;
         Header.in_vertex := true |}.
Proof.
  induction props as [|[n t] props IH]; intros s Hin Hw.
  - simpl. rewrite app_nil_r. destruct s. simpl in Hin. now subst.
  - inversion Hw as [|? ? [Hn Ht] Hw']; subst. simpl in Hn, Ht.
    cbn [map Header.scan_lines]. unfold Header.scan_line at 1.
    rewrite split_line by (unfold property_line; repeat constructor;
                           assumption).
    unfold property_line. cbn [fst snd]. rewrite Hin.
    cbn [String.eqb Ascii.eqb Bool.eqb andb].
    rewrite IH by (assumption || reflexivity).
    cbn [Header.seen_count Header.seen_properties].
    rewrite <- app_assoc. reflexivity.
Qed.

(** Lines that do not open an element leave the scan of a foreign element
    as it is. *)
Lemma scan_foreign lines : forall s,
  Header.in_vertex s = false ->
  Forall words lines ->
  Forall (fun toks => is_foreign toks = true) lines ->
  Header.scan_lines max_str_digits s (map line_of lines) = Header.Parsed s.
Proof.
  induction lines as [|toks lines IH]; intros s Hin Hw Hhd; [reflexivity|].
  inversion Hw as [|? ? Ht Hw']; inversion Hhd as [|? ? Hh Hhd']; subst.
  cbn [map Header.scan_lines]. unfold Header.scan_line at 1.
  rewrite split_line by assumption.
  destruct toks as [|p0 parts]; [now apply IH|].
  cbn [is_foreign] in Hh.
  destruct (String.eqb p0 "element").
  - destruct parts as [|name parts]; [discriminate|].
    apply negb_true_iff in Hh. rewrite Hh.
    destruct s as [c p v]. simpl in Hin. subst v. now apply IH.
  - rewrite Hin, andb_false_r. now apply IH.
Qed.

Lemma scan_end_header s :
  Header.scan_line max_str_digits s "end_header" = Header.Parsed s.
Proof. reflexivity. Qed.

(** The lines of the vertex element. *)
Lemma scan_vertex_header format count n props :
  words format -> hd_error format = Some "format"%string ->
  is_word count = true ->
  Header.python_int max_str_digits count = Some n ->
  Forall (fun p : string * string =>
            is_word (fst p) = true /\ is_word (snd p) = true) props ->
  Header.scan_lines max_str_digits
    {| Header.seen_count := None; Header.seen_properties := [];
       Header.in_vertex := false |}
    (map line_of (vertex_header format count props))
  = Header.Parsed
      {| Header.seen_count := Some n; Header.seen_properties := props;
         Header.in_vertex := true |}.
Proof.
  intros Hf Hhd Hc Hint Hp. unfold vertex_header.
  rewrite map_app, scan_lines_app.
  cbn [map Header.scan_lines].
  unfold Header.scan_line at 1. rewrite split_line by (repeat constructor).
  cbn [String.eqb Ascii.eqb Bool.eqb andb].
  unfold Header.scan_line at 1. rewrite split_line by assumption.
  destruct format as [|f0 fs]; [discriminate|]. injection Hhd as ->.
  cbn [String.eqb Ascii.eqb Bool.eqb andb].
  unfold Header.scan_line at 1.
  rewrite split_line by (repeat constructor; assumption).
  cbn [String.eqb Ascii.eqb Bool.eqb andb]. rewrite Hint.
  now rewrite scan_properties.
Qed.

Lemma words_vertex_header format count props :
  words format -> is_word count = true ->
  Forall (fun p : string * string =>
            is_word (fst p) = true /\ is_word (snd p) = true) props ->
  Forall words (vertex_header format count props).
Proof.
  intros Hf Hc Hp. unfold vertex_header.
  apply Forall_app. split.
  - repeat constructor; assumption.
  - apply Forall_forall. intros toks Hin. apply in_map_iff in Hin.
    destruct Hin as [[n t] [<- Hin]]. rewrite Forall_forall in Hp.
    destruct (Hp _ Hin) as [Hn Ht]. repeat constructor; assumption.
Qed.

Lemma vertex_header_open format count props :
  format <> ["end_header"%string] ->
  ~ In ["end_header"%string] (vertex_header format count props).
Proof.
  intros Hf Hin. unfold vertex_header in Hin. apply in_app_or in Hin.
  destruct Hin as [[H | [H | [H | []]]] | Hin]; try discriminate.
  - now apply Hf.
  - apply in_map_iff in Hin. destruct Hin as [p [H _]]. discriminate.
Qed.

(** The header that declares the vertex element alone. *)
Lemma parse_standard_header path eol count n props body :
  eol = LF \/ eol = CRLF ->
  is_word count = true ->
  Header.python_int max_str_digits count = Some n ->
  Forall (fun p : string * string =>
            is_word (fst p) = true /\ is_word (snd p) = true) props ->
  Header.parse_header max_str_digits path
    (header_text eol (vertex_header binary_format count props ++ end_header)
     ++ body)
  = Header.Parsed {| vertex_count := Some n; properties := props;
                     payload := body |}.
Proof.
  intros Heol Hc Hint Hp.
  assert (Hwf : words binary_format) by (repeat constructor).
  unfold Header.parse_header.
  rewrite header_loop_closed;
    [| assumption | now apply words_vertex_header
     | now apply vertex_header_open].
  assert (Hmem : mem_string "format binary_little_endian 1.0"
                   (map line_of (vertex_header binary_format count props)
                    ++ ["end_header"%string]) = true).
  { apply mem_string_In, in_or_app. left. simpl. tauto. }
  rewrite Hmem. cbn [negb].
  rewrite scan_lines_app, (scan_vertex_header binary_format count n props);
    try assumption; reflexivity.
Qed.

(** X4. A file whose lines never reach [end_header] is refused with [UnexpectedEOF], whatever its lines declare. *)
Theorem unclosed_header_is_refused path eol lines :
  eol = LF \/ eol = CRLF ->
  Forall words lines -> ~ In ["end_header"%string] lines ->
  Header.read_vertices max_str_digits path (header_text eol lines)
  = Header.Raised (Header.UnexpectedEOF path).
Proof.
  intros Heol Hw Hne. unfold Header.read_vertices, Header.parse_header.
  now rewrite header_loop_open.
Qed.

(** X5. A closed header none of whose lines is [format binary_little_endian 1.0] (an ASCII or a big-endian file, for one) is refused with [NotBinaryLittleEndian]; the check comes before the element and property lines are looked at, so a malformed line among them does not change the error. *)
Theorem other_format_is_refused path eol lines body :
  eol = LF \/ eol = CRLF ->
  Forall words lines -> ~ In ["end_header"%string] lines ->
  ~ In binary_format lines ->
  Header.read_vertices max_str_digits path
    (header_text eol (lines ++ end_header) ++ body)
  = Header.Raised (Header.NotBinaryLittleEndian path).
Proof.
  intros Heol Hw Hne Hfmt. unfold Header.read_vertices, Header.parse_header.
  rewrite header_loop_closed by assumption.
  assert (Hmem : mem_string "format binary_little_endian 1.0"
                   (map line_of lines ++ ["end_header"%string]) = false).
  { apply mem_string_false. intros Hin. apply in_app_or in Hin.
    destruct Hin as [Hin | [H | []]]; [|discriminate].
    apply in_map_iff in Hin. destruct Hin as [toks [Heq Hin]].
    apply Hfmt. replace binary_format with toks; [exact Hin|].
    apply line_of_inj; [| repeat constructor | exact Heq].
    rewrite Forall_forall in Hw. now apply Hw. }
  rewrite Hmem. reflexivity.
Qed.

(** X2. Foreign elements. The lines that follow the opening of another element (its properties, list properties among them, comments, further elements other than vertex) are left out of the schema: the header yields the count of the vertex element, its properties in file order and the payload, as it does without these lines. *)
Theorem other_elements_are_skipped path eol count n props name more extra
    body :
  eol = LF \/ eol = CRLF ->
  is_word count = true ->
  Header.python_int max_str_digits count = Some n ->
  Forall (fun p : string * string =>
            is_word (fst p) = true /\ is_word (snd p) = true) props ->
  is_word name = true -> name <> "vertex"%string -> words more ->
  Forall words extra ->
  Forall (fun toks => is_foreign toks = true) extra ->
  ~ In ["end_header"%string] extra ->
  Header.parse_header max_str_digits path
    (header_text eol
       (vertex_header binary_format count props
        ++ ("element"%string :: name :: more) :: extra ++ end_header)
     ++ body)
  = Header.Parsed {| vertex_count := Some n; properties := props;
                     payload := body |}.
Proof.
  intros Heol Hc Hint Hp Hname Hnv Hmore Hw Hhd Hne.
  assert (Hwf : words binary_format) by (repeat constructor).
  assert (Hel : words ("element"%string :: name :: more))
    by (repeat constructor; assumption).
  unfold Header.parse_header.
  replace (vertex_header binary_format count props
           ++ ("element"%string :: name :: more) :: extra ++ end_header)
    with ((vertex_header binary_format count props
           ++ ("element"%string :: name :: more) :: extra) ++ end_header)
    by (now rewrite <- app_assoc).
  rewrite header_loop_closed; [| assumption | |].
  2:{ apply Forall_app. split; [now apply words_vertex_header|].
      now constructor. }
  2:{ intros Hin. apply in_app_or in Hin.
      destruct Hin as [Hin | [H | Hin]];
        [now apply (vertex_header_open binary_format count props) in Hin
        | discriminate | now apply Hne]. }
  assert (Hmem : mem_string "format binary_little_endian 1.0"
                   (map line_of
                      (vertex_header binary_format count props
                       ++ ("element"%string :: name :: more) :: extra)
                    ++ ["end_header"%string]) = true).
  { apply mem_string_In, in_or_app. left. simpl. tauto. }
  rewrite Hmem. cbn [negb].
  rewrite map_app, <- app_assoc, scan_lines_app.
  rewrite (scan_vertex_header binary_format count n props)
    by (assumption || reflexivity).
  cbn [map app Header.scan_lines].
  unfold Header.scan_line at 1. rewrite split_line by assumption.
  cbn [String.eqb Ascii.eqb Bool.eqb andb].
  apply String.eqb_neq in Hnv. rewrite Hnv.
  rewrite scan_lines_app, scan_foreign by (assumption || reflexivity).
  reflexivity.
Qed.

(** X3. A list property inside the vertex element is read as a field named by its third token with the type [list]: once the header is read, the schema is refused with [UnsupportedType] for [list], and no record is decoded. *)
Theorem list_property_is_unsupported path eol count n props d item index name
    body :
  eol = LF \/ eol = CRLF ->
  is_word count = true ->
  Header.python_int max_str_digits count = Some n ->
  Forall (fun p : string * string =>
            is_word (fst p) = true /\ is_word (snd p) = true) props ->
  map_types path props = Ok d ->
  is_word item = true -> is_word index = true -> is_word name = true ->
  Header.read_vertices max_str_digits path
    (header_text eol
       (vertex_header binary_format count props
        ++ ["property"; "list"; item; index; name]%string :: end_header)
     ++ body)
  = Header.Parsed (Err (UnsupportedType "list" path)).
Proof.
  intros Heol Hc Hint Hp Hd Hitem Hindex Hname.
  assert (Hwf : words binary_format) by (repeat constructor).
  assert (Hl : words ["property"; "list"; item; index; name]%string)
    by (repeat constructor; assumption).
  unfold Header.read_vertices, Header.parse_header.
  replace (vertex_header binary_format count props
           ++ ["property"; "list"; item; index; name]%string :: end_header)
    with ((vertex_header binary_format count props
           ++ [["property"; "list"; item; index; name]%string])
          ++ end_header)
    by (now rewrite <- app_assoc).
  rewrite header_loop_closed; [| assumption | |].
  2:{ apply Forall_app. split; [now apply words_vertex_header|].
      now constructor. }
  2:{ intros Hin. apply in_app_or in Hin.
      destruct Hin as [Hin | [H | []]];
        [now apply (vertex_header_open binary_format count props) in Hin
        | discriminate]. }
  assert (Hmem : mem_string "format binary_little_endian 1.0"
                   (map line_of
                      (vertex_header binary_format count props
                       ++ [["property"; "list"; item; index; name]%string])
                    ++ ["end_header"%string]) = true).
  { apply mem_string_In, in_or_app. left. simpl. tauto. }
  rewrite Hmem. cbn [negb].
  rewrite map_app, <- app_assoc, scan_lines_app.
  rewrite (scan_vertex_header binary_format count n props)
    by (assumption || reflexivity).
  cbn [map app Header.scan_lines].
  unfold Header.scan_line at 1. rewrite split_line by assumption.
  cbn [String.eqb Ascii.eqb Bool.eqb andb Header.in_vertex
       Header.seen_count Header.seen_properties].
  rewrite scan_end_header.
  cbn [Header.seen_count Header.seen_properties].
  unfold read_vertices. cbn [vertex_count properties].
  rewrite (map_types_unsupported path props d item "list" Hd eq_refl).
  reflexivity.
Qed.

End Scan.

(** * From the bytes of a file to its records *)

Section FromBytes.

Context {env : Environment}.

(** X1. Reading a file. For a file that starts with the standard header (ply, the binary little-endian format line, the vertex element with its count, one property line per field, end_header; lines ended by LF or CR LF) followed by the payload, and when the array that the count asks for can be created (the count is a [Py_ssize_t], the size in bytes is within [ssize_max] and granted by the allocator), [read_vertices] returns the structured array of the declared fields whose records are the consecutive [stride]-byte chunks of the payload: [min count (length / stride)] of them when the count is not negative, every complete record of the payload when it is negative. *)
Theorem read_vertices_from_bytes max_str_digits path eol count n props d
    body :
  eol = LF \/ eol = CRLF ->
  is_word count = true ->
  Header.python_int max_str_digits count = Some n ->
  Forall (fun p : string * string =>
            is_word (fst p) = true /\ is_word (snd p) = true) props ->
  map_types path props = Ok d ->
  first_duplicate (map fst d) = None ->
  stride d <> 0%nat ->
  array_granted d body n ->
  exists v,
    Header.read_vertices max_str_digits path
      (header_text eol (vertex_header binary_format count props ++ end_header)
       ++ body)
    = Header.Parsed (Ok v)
    /\ dtype v = d
    /\ List.length (records v)
       = (if (n <? 0)%Z then List.length body / stride d
          else Nat.min (Z.to_nat n) (List.length body / stride d))%nat
    /\ forall j, (j < List.length (records v))%nat ->
         nth j (records v) []
         = firstn (stride d) (skipn (stride d * j) body).
Proof.
  intros Heol Hc Hint Hp Hd Hdup Hs Hg.
  unfold Header.read_vertices.
  rewrite (parse_standard_header max_str_digits path eol count n props
             body Heol Hc Hint Hp).
  unfold read_vertices. cbn [vertex_count properties payload].
  rewrite Hd. cbn [bind]. unfold make_dtype. rewrite Hdup. cbn [bind].
  rewrite (fromfile_granted _ _ _ Hs Hg).
  eexists. split; [reflexivity|]. cbn [dtype records].
  split; [reflexivity|]. split.
  - rewrite read_items_length by lia. unfold requested.
    destruct (n <? 0); [apply Nat.min_id | reflexivity].
  - intros j Hj. now apply read_items_nth.
Qed.

(** X21. The declared count decides. For a schema of supported, distinctly named fields with a non-zero record size, [read_vertices] succeeds exactly when the array that the declared count asks for can be created, whatever the payload holds. A count outside [Py_ssize_t] is refused with [OverflowError], a count whose array exceeds [ssize_max] bytes with [ArrayTooBig], and a count whose array the allocator does not grant with [MemoryError], also when the payload is short or empty. *)
Theorem declared_count_must_be_granted path f count d :
  vertex_count f = Some count ->
  map_types path (properties f) = Ok d ->
  first_duplicate (map fst d) = None ->
  stride d <> 0%nat ->
  (array_granted d (payload f) count
   <-> exists v, read_vertices path f = Ok v)
  /\ (count < - 2 ^ 63 \/ ssize_max < count ->
      read_vertices path f = Err OverflowError)
  /\ (0 <= count <= ssize_max ->
      ssize_max < count * Z.of_nat (stride d) ->
      read_vertices path f = Err ArrayTooBig)
  /\ (0 <= count ->
      count * Z.of_nat (stride d) <= ssize_max ->
      can_allocate (count * Z.of_nat (stride d)) = false ->
      read_vertices path f
      = Err (MemoryError (count * Z.of_nat (stride d)))).
Proof.
  intros Hc Hd Hdup Hs.
  assert (Hread : read_vertices path f = fromfile (payload f) d count).
  { unfold read_vertices. rewrite Hc, Hd. cbn [bind]. unfold make_dtype.
    rewrite Hdup. reflexivity. }
  rewrite Hread. split; [split|].
  - intros Hg. rewrite (fromfile_granted _ _ _ Hs Hg). eauto.
  - intros [v Hv]. now destruct (fromfile_inv _ _ _ _ Hs Hv).
  - unfold fromfile. split; [|split].
    + intros [H | H].
      * destruct (Z.ltb_spec count (- 2 ^ 63)); [reflexivity | lia].
      * destruct (Z.ltb_spec ssize_max count); [|lia].
        now rewrite orb_true_r.
    + intros Hr Hbig.
      destruct (Z.ltb_spec count (- 2 ^ 63)); [unfold ssize_max in *; lia|].
      destruct (Z.ltb_spec ssize_max count); [lia|]. cbn [orb].
      destruct (Nat.eqb_spec (stride d) 0); [contradiction|].
      destruct (Z.ltb_spec count 0); [lia|].
      destruct (Z.ltb_spec ssize_max (count * Z.of_nat (stride d)));
        [reflexivity | lia].
    + intros Hpos Hfit Hmem.
      assert (1 <= Z.of_nat (stride d)) by lia.
      destruct (Z.ltb_spec count (- 2 ^ 63)); [lia|].
      destruct (Z.ltb_spec ssize_max count); [nia|]. cbn [orb].
      destruct (Nat.eqb_spec (stride d) 0); [contradiction|].
      destruct (Z.ltb_spec count 0); [lia|].
      destruct (Z.ltb_spec ssize_max (count * Z.of_nat (stride d))); [lia|].
      now rewrite Hmem.
Qed.

End FromBytes.

(** * The run of the single-frame converter *)

Lemma has_sep_app a b :
  ConvertPlyToSplat.has_sep (a ++ b)
  = ConvertPlyToSplat.has_sep a || ConvertPlyToSplat.has_sep b.
Proof.
  induction a as [|c a IH]; simpl; [reflexivity|].
  now rewrite IH, orb_assoc.
Qed.

Lemma ends_with_slash_sep d :
  ConvertPlyToSplatMain.ends_with_slash d = true ->
  ConvertPlyToSplat.has_sep d = true.
Proof.
  induction d as [|c d IH]; [discriminate|].
  simpl. destruct d as [|c' d'].
  - intros ->. reflexivity.
  - intros H. rewrite (IH H). apply orb_true_r.
Qed.

(** The path of an output has a directory part unless the output
    directory is the current one. *)
Lemma joinpath_has_sep dir name :
  dir <> "."%string ->
  ConvertPlyToSplat.has_sep (ConvertPlyToSplatMain.joinpath dir name) = true.
Proof.
  intros Hd. unfold ConvertPlyToSplatMain.joinpath.
  destruct (String.eqb_spec dir "."); [contradiction|].
  destruct (ConvertPlyToSplatMain.ends_with_slash dir) eqn:He.
  - rewrite has_sep_app, (ends_with_slash_sep _ He). reflexivity.
  - rewrite !has_sep_app. simpl. apply orb_true_r.
Qed.

Lemma has_sep_substring name : forall i n,
  ConvertPlyToSplat.has_sep name = false ->
  ConvertPlyToSplat.has_sep (substring i n name) = false.
Proof.
  induction name as [|c name IH]; intros i n H.
  - destruct i, n; reflexivity.
  - simpl in H. apply orb_false_iff in H. destruct H as [Hc Hn].
    destruct i as [|i]; destruct n as [|n]; simpl; try reflexivity.
    + now rewrite Hc, IH.
    + now apply IH.
    + now apply IH.
Qed.

Lemma splat_path_here name :
  ConvertPlyToSplat.has_sep name = false ->
  ConvertPlyToSplat.has_sep (splat_path "." name) = false.
Proof.
  intros H. unfold splat_path, ConvertPlyToSplatMain.joinpath. simpl.
  rewrite has_sep_app. simpl. rewrite orb_false_r.
  unfold ConvertPlyToSplatMain.stem.
  destruct (PackDeltas.rfind_dot name 0) as [i|]; [|exact H].
  destruct (_ && _); [now apply has_sep_substring | exact H].
Qed.

Section ConvertMain.

Context {env : Environment}.
Variable exp32 : spec_float -> spec_float.
Variable cast_undefined : spec_float -> Z.

Import ConvertPlyToSplat ConvertPlyToSplatMain.

Lemma convert_one_converts input_dir output_dir name f out st :
  output_dir <> "."%string ->
  converts exp32 cast_undefined input_dir (name, f) out ->
  convert_one exp32 cast_undefined (joinpath input_dir name) f
    (splat_path output_dir name) st
  = (write (splat_path output_dir name) (Binary out) st, Ok tt).
Proof.
  intros Hd [v [Hv [Hall ->]]]. simpl in Hv.
  destruct (decode_vertices_rows exp32 cast_undefined
              (joinpath input_dir name) v Hall) as [dec [Hdec [_ Hout]]].
  unfold convert_one. rewrite Hv. cbn [bind]. rewrite Hdec.
  unfold splat_path at 1. rewrite (joinpath_has_sep _ _ Hd), Hout.
  reflexivity.
Qed.

Lemma convert_files_ok input_dir output_dir files : forall outs st,
  output_dir <> "."%string ->
  Forall2 (converts exp32 cast_undefined input_dir) files outs ->
  convert_files exp32 cast_undefined input_dir output_dir files st
  = ((splat_files output_dir files outs ++ st)%list, Ok tt).
Proof.
  induction files as [|[name f] files IH]; intros outs st Hd Hall;
    inversion Hall as [|? out ? outs' Hc Hall']; subst.
  - reflexivity.
  - cbn [convert_files]. fold (splat_path output_dir name).
    rewrite (convert_one_converts _ _ _ _ out st Hd Hc).
    rewrite (IH outs' _ Hd Hall').
    unfold splat_files, write. cbn [combine map rev fst snd].
    now rewrite <- app_assoc.
Qed.

Lemma convert_files_stop input_dir output_dir pre : forall outs nj fj post e st,
  output_dir <> "."%string ->
  Forall2 (converts exp32 cast_undefined input_dir) pre outs ->
  (forall st',
      convert_one exp32 cast_undefined (joinpath input_dir nj) fj
        (splat_path output_dir nj) st' = (st', Err e)) ->
  convert_files exp32 cast_undefined input_dir output_dir
    (pre ++ (nj, fj) :: post) st
  = ((splat_files output_dir pre outs ++ st)%list, Err e).
Proof.
  induction pre as [|[name f] pre IH]; intros outs nj fj post e st Hd Hall Hj;
    inversion Hall as [|? out ? outs' Hc Hall']; subst.
  - cbn [app convert_files]. fold (splat_path output_dir nj).
    rewrite Hj. reflexivity.
  - cbn [app convert_files]. fold (splat_path output_dir name).
    rewrite (convert_one_converts _ _ _ _ out st Hd Hc).
    rewrite (IH outs' nj fj post e _ Hd Hall' Hj).
    unfold splat_files, write. cbn [combine map rev fst snd].
    now rewrite <- app_assoc.
Qed.

(** X15. When every [.ply] file of the directory reads and has the fourteen fields, and the output directory is not the current one, [main] of the converter writes one file per input in name order, at the path made of the output directory, the stem of the input name and [.splat], holding the [SplatRecord]s of that input, and succeeds. *)
Theorem convert_main_writes_every_file input_dir listing output_dir st outs :
  output_dir <> "."%string ->
  ply_files listing <> [] ->
  Forall2 (converts exp32 cast_undefined input_dir) (ply_files listing) outs ->
  main exp32 cast_undefined input_dir listing output_dir st
  = ((splat_files output_dir (ply_files listing) outs ++ st)%list, Ok tt)
  /\ Sorted name_le (ply_files listing)
  /\ List.length (splat_files output_dir (ply_files listing) outs)
     = List.length (ply_files listing).
Proof.
  intros Hd Hne Hall. split; [|split].
  - unfold main. fold (ply_files listing).
    destruct (ply_files listing) as [|p files] eqn:Hf; [contradiction|].
    now apply convert_files_ok.
  - apply sorted_sorted.
  - unfold splat_files. rewrite length_rev, length_map, length_combine.
    rewrite (Forall2_length Hall). apply Nat.min_id.
Qed.

(** X16. The converter is not all-or-nothing: when a file fails the run stops with that file's error; the [.splat] files of the inputs before it in name order have been written and stay, and nothing is written for it or for the inputs after it. *)
Theorem convert_main_stops_at_first_failure input_dir listing output_dir st
    pre nj fj post outs e :
  output_dir <> "."%string ->
  ply_files listing = (pre ++ (nj, fj) :: post)%list ->
  Forall2 (converts exp32 cast_undefined input_dir) pre outs ->
  (forall st',
      convert_one exp32 cast_undefined (joinpath input_dir nj) fj
        (splat_path output_dir nj) st' = (st', Err e)) ->
  main exp32 cast_undefined input_dir listing output_dir st
  = ((splat_files output_dir pre outs ++ st)%list, Err e)
  /\ List.length (splat_files output_dir pre outs) = List.length pre.
Proof.
  intros Hd Hf Hall Hj. split.
  - unfold main. fold (ply_files listing). rewrite Hf.
    destruct (pre ++ (nj, fj) :: post)%list as [|p files] eqn:Hl.
    + now destruct pre.
    + rewrite <- Hl. now apply convert_files_stop.
  - unfold splat_files. rewrite length_rev, length_map, length_combine.
    rewrite (Forall2_length Hall). apply Nat.min_id.
Qed.

Lemma filter_In_names (listing : list (string * ply_file)) p :
  In p (ply_files listing) -> In p listing.
Proof.
  intros Hin. unfold ply_files in Hin.
  apply (Permutation_in _ (sorted_perm _)) in Hin.
  now apply filter_In in Hin.
Qed.

(** X17. With the current directory as output directory the converter never writes a file and always fails: the output path has no directory part, and [os.makedirs] of the empty path raises ([FileNotFound]) as soon as the first input has been decoded, when no earlier error was raised. *)
Theorem convert_main_into_current_directory input_dir listing st :
  Forall (fun p : string * ply_file => has_sep (fst p) = false) listing ->
  fst (main exp32 cast_undefined input_dir listing "." st) = st
  /\ (exists e, snd (main exp32 cast_undefined input_dir listing "." st)
                = Err e)
  /\ forall name f rest out,
       ply_files listing = (name, f) :: rest ->
       converts exp32 cast_undefined input_dir (name, f) out ->
       main exp32 cast_undefined input_dir listing "." st
       = (st, Err (FileNotFound "")).
Proof.
  intros Hnames. unfold main. fold (ply_files listing).
  destruct (ply_files listing) as [|[name f] files] eqn:Hf.
  - split; [reflexivity|]. split; [now exists NoPlyFiles|]. discriminate.
  - assert (Hin : In (name, f) listing)
      by (apply filter_In_names; rewrite Hf; now left).
    rewrite Forall_forall in Hnames. specialize (Hnames _ Hin).
    simpl in Hnames.
    cbn [convert_files]. fold (splat_path "." name).
    unfold convert_one. rewrite (splat_path_here name Hnames).
    destruct (bind _ _) as [dec|e] eqn:Hb.
    + split; [reflexivity|]. split; [eexists; reflexivity|].
      intros; reflexivity.
    + split; [reflexivity|]. split; [eexists; reflexivity|].
      intros name' f' rest out [= <- <- <-] [v [Hv [Hall _]]].
      simpl in Hv. rewrite Hv in Hb. cbn [bind] in Hb.
      destruct (decode_vertices_rows exp32 cast_undefined
                  (joinpath input_dir name) v Hall) as [dec [Hdec _]].
      rewrite Hdec in Hb. discriminate.
Qed.

End ConvertMain.

(** X13. On a directory with no entry whose suffix is [.ply] (in any letter case) both tools stop with [NoPlyFiles], and nothing is read or written. *)
Theorem no_ply_files {env : Environment}
    (exp32 : spec_float -> spec_float)
    (cast_undefined : spec_float -> Z) (float_repr : spec_float -> string)
    (listing : list (string * ply_file)) :
  Forall (fun p : string * ply_file => PackDeltas.is_ply (fst p) = false)
         listing ->
  (forall fps st,
      PackDeltas.main exp32 float_repr listing fps st = (st, Err NoPlyFiles))
  /\ (forall input_dir output_dir st,
        ConvertPlyToSplatMain.main exp32 cast_undefined input_dir listing
          output_dir st
        = (st, Err NoPlyFiles)).
Proof.
  intros Hnone.
  assert (Hf : filter (fun p : string * ply_file => PackDeltas.is_ply (fst p))
                 listing = []).
  { induction Hnone as [|p l Hp _ IH]; simpl; [reflexivity|].
    now rewrite Hp. }
  split.
  - intros fps st. unfold PackDeltas.main. now rewrite Hf.
  - intros input_dir output_dir st. unfold ConvertPlyToSplatMain.main.
    now rewrite Hf.
Qed.

(** * The binary32 bit pattern *)

(** The three fields of a 32-bit pattern. *)
Lemma bits_fields b :
  0 <= b < 2 ^ 32 ->
  b = F32.sign_bit (Z.testbit b 31)
      + (b / 2 ^ 23) mod 2 ^ 8 * 2 ^ 23 + b mod 2 ^ 23
  /\ 0 <= (b / 2 ^ 23) mod 2 ^ 8 < 2 ^ 8
  /\ 0 <= b mod 2 ^ 23 < 2 ^ 23.
Proof.
  intros Hb.
  assert (Hs : F32.sign_bit (Z.testbit b 31) = b / 2 ^ 31 * 2 ^ 31).
  { rewrite Z.testbit_odd, Z.shiftr_div_pow2 by lia.
    assert (Hq : 0 <= b / 2 ^ 31 < 2).
    { split; [apply Z.div_pos; lia|].
      apply Z.div_lt_upper_bound; lia. }
    assert (Hc : b / 2 ^ 31 = 0 \/ b / 2 ^ 31 = 1) by lia.
    destruct Hc as [-> | ->]; reflexivity. }
  rewrite Hs.
  pose proof (Z.div_mod b (2 ^ 23) ltac:(lia)) as H1.
  pose proof (Z.div_mod (b / 2 ^ 23) (2 ^ 8) ltac:(lia)) as H2.
  rewrite Z.div_div in H2 by lia.
  change (2 ^ 23 * 2 ^ 8) with (2 ^ 31) in H2.
  pose proof (Z.mod_pos_bound (b / 2 ^ 23) (2 ^ 8) ltac:(lia)).
  pose proof (Z.mod_pos_bound b (2 ^ 23) ltac:(lia)).
  repeat split; lia.
Qed.

(** Decoding a pattern and encoding it again gives the pattern back, NaN
    patterns apart (the payload of a NaN is not kept). *)
Lemma to_bits_of_bits b :
  0 <= b < 2 ^ 32 ->
  F32.is_nan (F32.of_bits b) = false ->
  F32.to_bits (F32.of_bits b) = b.
Proof.
  intros Hb. destruct (bits_fields b Hb) as (Heq & Hex & Hfr).
  unfold F32.of_bits.
  set (s := Z.testbit b 31) in *.
  set (ex := (b / 2 ^ 23) mod 2 ^ 8) in *.
  set (fr := b mod 2 ^ 23) in *.
  destruct (Z.eqb_spec ex 0) as [H0 | H0].
  - destruct fr as [|m|m] eqn:Hm; intros _; cbn [F32.to_bits]; try lia.
    destruct (Z.ltb_spec (Z.pos m) (2 ^ 23)); lia.
  - destruct (Z.eqb_spec ex 255) as [H255 | H255].
    + destruct (Z.eqb_spec fr 0) as [Hz | Hz]; [|discriminate].
      intros _. cbn [F32.to_bits]. lia.
    + destruct (fr + 2 ^ 23) as [|m|m] eqn:Hm; try lia.
      intros _. cbn [F32.to_bits].
      destruct (Z.ltb_spec (Z.pos m) (2 ^ 23)); lia.
Qed.

Lemma to_bytes_of_bytes bs :
  List.length bs = 4%nat ->
  F32.is_nan (F32.of_bytes bs) = false ->
  F32.to_bytes (F32.of_bytes bs) = bs.
Proof.
  intros Hlen Hn. unfold F32.to_bytes, F32.of_bytes in *.
  rewrite to_bits_of_bits; [| | exact Hn].
  - rewrite <- Hlen. apply split_le_combine.
  - pose proof (le_combine_bound bs) as Hbd. rewrite Hlen in Hbd.
    exact Hbd.
Qed.




(** ** From a value to its pattern and back *)

Lemma fields_of_bits s ex fr :
  0 <= ex < 2 ^ 8 -> 0 <= fr < 2 ^ 23 ->
  let b := F32.sign_bit s + ex * 2 ^ 23 + fr in
  Z.testbit b 31 = s
  /\ (b / 2 ^ 23) mod 2 ^ 8 = ex
  /\ b mod 2 ^ 23 = fr
  /\ 0 <= b < 2 ^ 32.
Proof.
  intros Hex Hfr b.
  set (hi := if s then 1 else 0).
  assert (Hs : F32.sign_bit s = hi * 2 ^ 31) by (unfold hi; now destruct s).
  assert (Hhi : 0 <= hi <= 1) by (unfold hi; destruct s; lia).
  assert (Hb : b = 2 ^ 23 * (hi * 2 ^ 8 + ex) + fr).
  { unfold b. rewrite Hs. change (2 ^ 31) with (2 ^ 8 * 2 ^ 23). lia. }
  assert (Hdiv : b / 2 ^ 23 = hi * 2 ^ 8 + ex).
  { symmetry. apply (Z.div_unique b (2 ^ 23) _ fr); [lia | exact Hb]. }
  assert (Hdiv31 : b / 2 ^ 31 = hi).
  { symmetry. apply (Z.div_unique b (2 ^ 31) _ (ex * 2 ^ 23 + fr)).
    - change (2 ^ 31) with (2 ^ 8 * 2 ^ 23). nia.
    - unfold b. rewrite Hs. lia. }
  split; [|split; [|split]].
  - rewrite Z.testbit_odd, Z.shiftr_div_pow2, Hdiv31 by lia.
    unfold hi. now destruct s.
  - rewrite Hdiv. symmetry.
    apply (Z.mod_unique _ (2 ^ 8) hi ex); [lia | lia].
  - symmetry. apply (Z.mod_unique b (2 ^ 23) (hi * 2 ^ 8 + ex) fr);
      [lia | exact Hb].
  - unfold b. rewrite Hs. change (2 ^ 32) with (2 * 2 ^ 31).
    change (2 ^ 31) with (2 ^ 8 * 2 ^ 23) at 2. nia.
Qed.

(** A valid binary32 value is read back from its own pattern. *)
Lemma of_bits_to_bits x :
  valid_binary F32.prec F32.emax x = true ->
  F32.of_bits (F32.to_bits x) = x /\ 0 <= F32.to_bits x < 2 ^ 32.
Proof.
  destruct x as [s|s| |s m e]; intros Hv.
  - destruct s; split; (reflexivity || (cbn; lia)).
  - destruct s; split; (reflexivity || (cbn; lia)).
  - split; [reflexivity | cbn; lia].
  - cbn [valid_binary] in Hv. unfold bounded, canonical_mantissa in Hv.
    apply andb_true_iff in Hv. destruct Hv as [Hc He].
    apply Z.eqb_eq in Hc. apply Z.leb_le in He.
    rewrite fexp32_eq in Hc. unfold fexp32 in Hc.
    change (F32.emax - F32.prec) with 104 in He.
    pose proof (digits2_pos_bounds m) as [Hlo Hhi].
    set (d := Z.pos (digits2_pos m)) in *.
    cbn [F32.to_bits].
    destruct (Z.ltb_spec (Z.pos m) (2 ^ 23)) as [Hsub | Hnorm].
    + assert (Hd : d <= 23).
      { destruct (Z.le_gt_cases d 23) as [H | H]; [exact H|]. exfalso.
        assert (2 ^ 23 <= 2 ^ (d - 1)) by (apply Z.pow_le_mono_r; lia).
        lia. }
      assert (He149 : e = -149) by lia.
      replace (F32.sign_bit s + Z.pos m)
        with (F32.sign_bit s + 0 * 2 ^ 23 + Z.pos m) by lia.
      destruct (fields_of_bits s 0 (Z.pos m) ltac:(lia) ltac:(lia))
        as (Ht & Hex & Hfr & Hb). cbv zeta in *.
      split; [|exact Hb].
      unfold F32.of_bits. rewrite Ht, Hex, Hfr. cbn [Z.eqb]. now subst e.
    + assert (Hd : d = 24).
      { assert (24 <= d).
        { destruct (Z.le_gt_cases 24 d) as [H | H]; [exact H|]. exfalso.
          assert (2 ^ d <= 2 ^ 23) by (apply Z.pow_le_mono_r; lia). lia. }
        lia. }
      rewrite Hd in Hhi.
      assert (He149 : -149 <= e) by lia.
      destruct (fields_of_bits s (e + 150) (Z.pos m - 2 ^ 23)
                  ltac:(lia) ltac:(lia)) as (Ht & Hex & Hfr & Hb).
      cbv zeta in *. split; [|exact Hb].
      unfold F32.of_bits. rewrite Ht, Hex, Hfr.
      destruct (Z.eqb_spec (e + 150) 0); [lia|].
      destruct (Z.eqb_spec (e + 150) 255); [lia|].
      replace (Z.pos m - 2 ^ 23 + 2 ^ 23) with (Z.pos m) by lia.
      f_equal. lia.
Qed.

(** X20. The binary32 codec of the files. Every valid binary32 value is written as four bytes from which it is read back, and every four bytes that are not a NaN pattern are written back as they were read. *)
Theorem float32_codec_round_trip :
  (forall x,
      valid_binary F32.prec F32.emax x = true ->
      List.length (F32.to_bytes x) = 4%nat
      /\ F32.of_bytes (F32.to_bytes x) = x)
  /\ (forall bs,
        List.length bs = 4%nat ->
        F32.is_nan (F32.of_bytes bs) = false ->
        F32.to_bytes (F32.of_bytes bs) = bs).
Proof.
  split.
  - intros x Hv. split; [apply length_le_split|].
    destruct (of_bits_to_bits x Hv) as [Heq Hb].
    unfold F32.of_bytes, F32.to_bytes. rewrite le_combine_split.
    change (Z.of_nat 4 * 8) with 32. rewrite Z.mod_small by exact Hb.
    exact Heq.
  - apply to_bytes_of_bytes.
Qed.

(** * Opacity *)

Lemma div_rounded sx mx ex md ed :
  exists E,
    rounded sx E (F32.div (S754_finite sx mx ex) (S754_finite false md ed)).
Proof.
  unfold F32.div, SFdiv, SFdiv_core_binary. rewrite xorb_false_r.
  set (e' := Z.min _ _).
  set (m' := match ex - ed - e' with
             | Z.pos _ => Z.shiftl (Z.pos mx) (ex - ed - e')
             | 0 => Z.pos mx
             | Z.neg _ => 0
             end).
  assert (Hm' : 0 <= m').
  { unfold m'. destruct (ex - ed - e') as [|p|p]; try lia.
    apply Z.shiftl_nonneg. lia. }
  destruct (Z.div_eucl m' (Z.pos md)) as [q r] eqn:Hdiv.
  assert (Hq : q = m' / Z.pos md) by (unfold Z.div; now rewrite Hdiv).
  exists e'. apply binary_round_aux_rounded.
  subst q. apply Z.div_pos; lia.
Qed.

(** The quotient of one by a number that is zero, positive or plus
    infinity. *)
Lemma div_one_nonneg s :
  nonneg32 s ->
  nonneg32 (F32.div f32_one s) /\ bounded32 (F32.div f32_one s).
Proof.
  rewrite f32_one_eq. intros Hs.
  destruct s as [sb|sb| |sb md ed]; cbn [nonneg32] in Hs;
    try contradiction; subst sb.
  - split; [reflexivity | exact I].
  - split; [reflexivity | exact I].
  - destruct (div_rounded false 8388608 (-23) md ed) as [E Hr].
    split; [eapply rounded_nonneg32 | eapply rounded_bounded32]; exact Hr.
Qed.

Lemma sigmoid_nonneg (exp32 : spec_float -> spec_float) x :
  nonneg32 (exp32 (F32.neg x)) ->
  nonneg32 (sigmoid exp32 x) /\ bounded32 (sigmoid exp32 x).
Proof.
  intros He. unfold sigmoid. apply div_one_nonneg.
  apply add_nonneg; [rewrite f32_one_eq; reflexivity | exact He].
Qed.

Lemma nonneg_not_nan x : nonneg32 x -> not_nan x.
Proof. destruct x; simpl; intros H; try contradiction; reflexivity. Qed.

(** The byte of a value of the unit interval. *)
Lemma unit_color_byte (cast_undefined : spec_float -> Z) y :
  unit_color y ->
  exists b,
    quantize_unit cast_undefined y = b
    /\ SFfloor (F32.add (F32.mul y c_255) c_half) = Some b
    /\ 0 <= b <= 255.
Proof.
  intros Hu.
  assert (Hq : forall b,
             SFtrunc (F32.add (F32.mul y c_255) c_half) = Some b ->
             0 <= b <= 255 -> quantize_unit cast_undefined y = b).
  { intros b Ht Hb. unfold quantize_unit, astype_uint8.
    rewrite Ht. destruct (Z.leb_spec 0 b); [|lia].
    destruct (Z.leb_spec b 255); [reflexivity | lia]. }
  destruct Hu as [| |m e Hm He].
  - exists 0. split; [apply Hq; [reflexivity | lia]|].
    split; [reflexivity | lia].
  - exists 255. split; [apply Hq; [reflexivity | lia]|].
    split; [reflexivity | lia].
  - destruct (mul_255_small m e Hm He)
      as [Hz | [m' [e' (HR & He' & Hv)]]]; cbv zeta in *.
    + rewrite Hz in *. exists 0.
      split; [apply Hq; [reflexivity | lia]|].
      split; [reflexivity | lia].
    + rewrite HR in *.
      destruct (add_half_small m' e' He' Hv) as [b (Ht & Hf & Hb)].
      exists b. split; [now apply Hq|]. split; assumption.
Qed.

(** X18. Opacity byte. When [np.exp] returns zero, a positive number or plus infinity (as it does on every input that is not NaN), [sigmoid] is not NaN, the clamped opacity is a finite number of [0, 1] and its byte is the floor of [alpha * 255 + 0.5], between 0 and 255, whatever the platform does on casts that do not fit. *)
Theorem alpha_quantization (exp32 : spec_float -> spec_float)
    (cast_undefined : spec_float -> Z) (x : spec_float) :
  nonneg32 (exp32 (F32.neg x)) ->
  let a := sigmoid exp32 x in
  let alpha := np_clip a f32_zero f32_one in
  a = F32.div f32_one (F32.add f32_one (exp32 (F32.neg x)))
  /\ F32.is_nan a = false
  /\ is_finite alpha = true
  /\ (0 <= val alpha <= 1)%R
  /\ exists b,
       quantize_unit cast_undefined alpha = b
       /\ SFfloor (F32.add (F32.mul alpha c_255) c_half) = Some b
       /\ 0 <= b <= 255.
Proof.
  intros He. cbv zeta.
  destruct (sigmoid_nonneg exp32 x He) as [Hn Hb].
  pose proof (clip_unit _ Hb (nonneg_not_nan _ Hn)) as Hu.
  split; [reflexivity|].
  split; [exact (nonneg_not_nan _ Hn)|].
  split; [exact (unit_color_finite _ Hu)|].
  split; [exact (unit_color_val _ Hu)|].
  exact (unit_color_byte cast_undefined _ Hu).
Qed.

(** * The payload *)





(** * The order of the directory listing *)

Lemma leb_trans a : forall b c,
  String.leb a b = true -> String.leb b c = true -> String.leb a c = true.
Proof.
  unfold String.leb.
  induction a as [|x a IH]; intros [|y b] [|z c]; simpl; try easy.
  unfold Ascii.compare.
  destruct (N.compare_spec (N_of_ascii x) (N_of_ascii y)) as [E1|L1|G1];
    destruct (N.compare_spec (N_of_ascii y) (N_of_ascii z)) as [E2|L2|G2];
    destruct (N.compare_spec (N_of_ascii x) (N_of_ascii z)) as [E3|L3|G3];
    try easy; try lia.
  apply IH.
Qed.

Lemma leb_false_flip a b : String.leb a b = false -> String.leb b a = true.
Proof.
  intros H. destruct (String.leb_total a b) as [H1 | H1];
    [congruence | exact H1].
Qed.

(** Two insertions with different names commute. *)
Lemma insert_by_name_comm {A} (x y : string * A) l :
  fst x <> fst y ->
  PackDeltas.insert_by_name x (PackDeltas.insert_by_name y l)
  = PackDeltas.insert_by_name y (PackDeltas.insert_by_name x l).
Proof.
  intros Hne. induction l as [|z l IH].
  - simpl.
    destruct (String.leb (fst x) (fst y)) eqn:Hxy,
      (String.leb (fst y) (fst x)) eqn:Hyx; try reflexivity.
    + exfalso. apply Hne. now apply String.leb_antisym.
    + apply leb_false_flip in Hxy. congruence.
  - cbn [PackDeltas.insert_by_name].
    destruct (String.leb (fst y) (fst z)) eqn:Hyz,
      (String.leb (fst x) (fst z)) eqn:Hxz;
      cbn [PackDeltas.insert_by_name]; rewrite ?Hyz, ?Hxz.
    + destruct (String.leb (fst x) (fst y)) eqn:Hxy,
        (String.leb (fst y) (fst x)) eqn:Hyx; try reflexivity.
      * exfalso. apply Hne. now apply String.leb_antisym.
      * apply leb_false_flip in Hxy. congruence.
    + destruct (String.leb (fst x) (fst y)) eqn:Hxy; [|reflexivity].
      rewrite (leb_trans _ _ _ Hxy Hyz) in Hxz. discriminate.
    + destruct (String.leb (fst y) (fst x)) eqn:Hyx; [|reflexivity].
      rewrite (leb_trans _ _ _ Hyx Hxz) in Hyz. discriminate.
    + now rewrite IH.
Qed.

Lemma sorted_permutation {A} (l1 l2 : list (string * A)) :
  Permutation l1 l2 -> NoDup (map fst l1) ->
  PackDeltas.sorted l1 = PackDeltas.sorted l2.
Proof.
  induction 1 as [|x l l' Hp IH|x y l|l l' l'' Hp1 IH1 Hp2 IH2];
    intros Hnd.
  - reflexivity.
  - simpl. inversion Hnd; subst. now rewrite IH.
  - simpl. apply insert_by_name_comm.
    inversion Hnd as [|? ? Hin _]; subst. intros Heq. apply Hin.
    left. now symmetry.
  - rewrite IH1 by assumption. apply IH2.
    eapply Permutation_NoDup; [|exact Hnd]. now apply Permutation_map.
Qed.

Lemma ply_files_permutation (l1 l2 : list (string * ply_file)) :
  Permutation l1 l2 -> NoDup (map fst l1) -> ply_files l1 = ply_files l2.
Proof.
  intros Hp Hnd. unfold ply_files. apply sorted_permutation.
  - clear Hnd. induction Hp as [|x l l' Hp IH|x y l|l l' l'' Hp1 IH1 Hp2 IH2];
      simpl.
    + constructor.
    + destruct (PackDeltas.is_ply (fst x)); [now constructor | exact IH].
    + destruct (PackDeltas.is_ply (fst x)), (PackDeltas.is_ply (fst y));
        try apply Permutation_refl. apply perm_swap.
    + eapply perm_trans; eassumption.
  - clear Hp. induction l1 as [|x l IH]; simpl; [constructor|].
    inversion Hnd as [|? ? Hin Hnd']; subst.
    destruct (PackDeltas.is_ply (fst x)); [|now apply IH].
    simpl. constructor; [|now apply IH].
    intros H. apply Hin. apply in_map_iff in H.
    destruct H as [p [Hp Hf]]. apply filter_In in Hf.
    apply in_map_iff. exists p. tauto.
Qed.

(** X14. Both tools sort the entries by name before anything else: two listings of one directory (entries of distinct names) in different orders give the same run, written files and error alike. *)
Theorem listing_order_is_irrelevant {env : Environment}
    (exp32 : spec_float -> spec_float) (cast_undefined : spec_float -> Z)
    (float_repr : spec_float -> string)
    (listing listing' : list (string * ply_file)) :
  Permutation listing listing' -> NoDup (map fst listing) ->
  (forall fps st,
      PackDeltas.main exp32 float_repr listing fps st
      = PackDeltas.main exp32 float_repr listing' fps st)
  /\ (forall input_dir output_dir st,
        ConvertPlyToSplatMain.main exp32 cast_undefined input_dir listing
          output_dir st
        = ConvertPlyToSplatMain.main exp32 cast_undefined input_dir listing'
            output_dir st).
Proof.
  intros Hp Hnd.
  pose proof (ply_files_permutation _ _ Hp Hnd) as Heq.
  unfold ply_files in Heq. split.
  - intros fps st. unfold PackDeltas.main. now rewrite Heq.
  - intros input_dir output_dir st. unfold ConvertPlyToSplatMain.main.
    now rewrite Heq.
Qed.

(** * Closed instances *)

Section Instances.

#[local] Existing Instance env_example.

(** C5: two points declared, one record present. *)
Lemma truncated_payload_is_read :
  List.length (payload (zero_ply xyz_fields 2 1)) = 12%nat
  /\ read_vertices "cut.ply" (zero_ply xyz_fields 2 1)
     = Ok {| dtype := [("x", F4); ("y", F4); ("z", F4)]%string;
             records := [repeat Byte.x00 12] |}.
Proof. split; reflexivity. Qed.

Lemma read_vertices_complete_records_witness :
  exists v,
    read_vertices "cut.ply" (zero_ply xyz_fields 2 1) = Ok v
    /\ ConvertPlyToSplat.read_vertices "cut.ply" (zero_ply xyz_fields 2 1)
       = Ok v
    /\ dtype v = [("x", F4); ("y", F4); ("z", F4)]%string
    /\ List.length (records v) = Nat.min (Z.to_nat 2) (12 / 12)
    /\ Forall (fun r => List.length r = 12%nat) (records v).
Proof.
  destruct (read_vertices_complete_records (env := env_example) "cut.ply"
              (zero_ply xyz_fields 2 1) 2
              [("x", F4); ("y", F4); ("z", F4)]%string
              eq_refl ltac:(lia) eq_refl eq_refl ltac:(discriminate)
              ltac:(discriminate) eq_refl)
    as (v & Hv & Hconv & Hrest).
  exists v. split; [exact Hv|]. split; [exact (Hconv eq_refl) | exact Hrest].
Defined.


Lemma missing_fields_all_listed_witness :
  ConvertPlyToSplat.convert_one exp32_example cast_example
    "in/a.ply" (zero_ply no_scale01_fields 1 1) "out/a.splat" []
  = ([], Err (MissingFields "in/a.ply" ["scale_0"; "scale_1"]%string)).
Proof.
  destruct (missing_fields_all_listed (env := env_example)
              exp32_example cast_example "in/a.ply" (zero_ply no_scale01_fields 1 1)
              {| dtype := map (fun n => (n, F4)) no_scale01_fields;
                 records := [repeat Byte.x00 48] |}
              "out/a.splat" []) as (_ & H & _ & _).
  apply H; [reflexivity | discriminate].
Defined.

Lemma partial_f_rest_is_accepted :
  mem_string "f_rest_0" (map fst (float_fields partial_rest_fields)) = true
  /\ mem_string "f_rest_1" (map fst (float_fields partial_rest_fields))
     = false
  /\ exists fr,
       PackDeltas.load_frame exp32_example "frame_000.ply"
         (zero_ply partial_rest_fields 1 1) = Ok fr
       /\ PackDeltas.f_rest fr = None.
Proof.
  split; [reflexivity|]. split; [reflexivity|].
  eexists. split; [vm_compute; reflexivity | reflexivity].
Qed.

Lemma partial_f_rest_is_absent_witness :
  exists fr,
    PackDeltas.load_frame exp32_example "frame_000.ply"
      (zero_ply partial_rest_fields 1 1) = Ok fr
    /\ PackDeltas.f_rest fr = None.
Proof.
  destruct (partial_f_rest_is_absent (env := env_example) exp32_example "frame_000.ply"
              (zero_ply partial_rest_fields 1 1)
              {| dtype := map (fun n => (n, F4)) partial_rest_fields;
                 records := [repeat Byte.x00 44] |}
              eq_refl eq_refl) as [fr (Hfr & Hnone & _)].
  exists fr. split; [exact Hfr | apply Hnone; reflexivity].
Defined.

Lemma point_count_mismatch_aborts_witness :
  PackDeltas.main exp32_example float_repr_example short_sequence
    fps_example []
  = ([], Err (PointCountMismatch "frame_002.ply"))
  /\ forall input_dir' fps' st' e,
       snd (PackDeltas.main exp32_example float_repr_example
              input_dir' fps' st') = Err e ->
       fst (PackDeltas.main exp32_example float_repr_example
              input_dir' fps' st') = st'.
Proof.
  eapply (point_count_mismatch_aborts (env := env_example) exp32_example float_repr_example
            short_sequence fps_example []
            [("frame_000.ply", frame_ply 2);
             ("frame_001.ply", frame_ply 2)]%string
            "frame_002.ply" (frame_ply 1) []).
  - reflexivity.
  - apply Forall2_cons; [reflexivity|].
    apply Forall2_cons; [reflexivity|]. apply Forall2_nil.
  - reflexivity.
  - repeat constructor; discriminate.
  - reflexivity.
  - simpl. lia.
Defined.

Lemma good_sequence_valid :
  valid_sequence exp32_example (ply_files good_sequence)
    (repeat good_frame 4) good_frame.
Proof.
  split; [|split].
  - repeat (apply Forall2_cons; [reflexivity|]). apply Forall2_nil.
  - reflexivity.
  - repeat constructor; discriminate.
Defined.

(** C7: a sequence that passes every validation, with an infinite base
    coordinate: the first value of the slab of frame 0 is NaN, and the four
    bytes written for it are not those of 0.0. *)
Lemma infinite_base_gives_nan_delta :
  valid_sequence exp32_example (ply_files infinite_x_sequence)
    [infinite_x_frame; infinite_x_frame] infinite_x_frame
  /\ coord (PackDeltas.pos infinite_x_frame) 0 0 = pinf
  /\ F32.is_nan
       (coord (delta_slab (PackDeltas.pos infinite_x_frame) infinite_x_frame)
              0 0) = true
  /\ exists bs,
       PackDeltas.main exp32_example float_repr_example infinite_x_sequence
         fps_example []
       = (written float_repr_example (ply_files infinite_x_sequence)
            [infinite_x_frame; infinite_x_frame] infinite_x_frame
            fps_example [], Ok tt)
       /\ In ("delta.bin"%string, Binary bs)
             (fst (PackDeltas.main exp32_example float_repr_example
                     infinite_x_sequence fps_example []))
       /\ List.length bs = 32%nat
       /\ firstn 4 bs <> repeat Byte.x00 4.
Proof.
  split; [|split; [|split]].
  - split; [|split].
    + repeat (apply Forall2_cons; [reflexivity|]). apply Forall2_nil.
    + reflexivity.
    + repeat constructor; discriminate.
  - reflexivity.
  - reflexivity.
  - eexists. split; [vm_compute; reflexivity|].
    split; [vm_compute; tauto|]. split; [reflexivity | discriminate].
Qed.

Lemma delta_pack_layout_witness :
  exists delta bs,
    In ("delta.bin"%string, Binary bs)
       (fst (PackDeltas.main exp32_example float_repr_example
               good_sequence fps_example []))
    /\ PackDeltas.tofile3 delta = Binary bs
    /\ List.length bs = 320%nat
    /\ List.length delta = 4%nat
    /\ nth 0 delta [] = repeat (repeat f32_zero 4) 5.
Proof.
  destruct (delta_pack_layout (env := env_example) exp32_example float_repr_example
              good_sequence fps_example [] (repeat good_frame 4)
              good_frame good_sequence_valid)
    as (_ & _ & _ & delta & bs & _ & Hin & Hto & Hlen & Hk & _ & Hzero).
  exists delta, bs.
  split; [exact Hin|]. split; [exact Hto|]. split; [exact Hlen|].
  split; [exact Hk|]. apply Hzero.
  repeat constructor.
Defined.

(** C8: the manifest of that run. *)
Lemma manifest_keeps_frest_key :
  map fst (fst (PackDeltas.main exp32_example float_repr_example
                  good_sequence fps_example []))
  = ["meta.json"; "scale.bin"; "rgba.bin"; "delta.bin"; "pos0.bin"]%string
  /\ hd_error (fst (PackDeltas.main exp32_example float_repr_example
                      good_sequence fps_example []))
     = Some ("meta.json"%string,
             Text (PackDeltas.json_dumps float_repr_example
                     (PackDeltas.meta 5 4 fps_example false)))
  /\ map fst (PackDeltas.meta 5 4 fps_example false)
     = ["width"; "height"; "points"; "frames"; "fps"; "rgba"; "scale";
        "frest"]%string
  /\ PackDeltas.json_dumps float_repr_example
       (PackDeltas.meta 5 4 fps_example false)
     = ("{" ++ PackDeltas.newline
        ++ "  " ++ PackDeltas.quote ++ "width" ++ PackDeltas.quote
        ++ ": 5," ++ PackDeltas.newline
        ++ "  " ++ PackDeltas.quote ++ "height" ++ PackDeltas.quote
        ++ ": 4," ++ PackDeltas.newline
        ++ "  " ++ PackDeltas.quote ++ "points" ++ PackDeltas.quote
        ++ ": 5," ++ PackDeltas.newline
        ++ "  " ++ PackDeltas.quote ++ "frames" ++ PackDeltas.quote
        ++ ": 4," ++ PackDeltas.newline
        ++ "  " ++ PackDeltas.quote ++ "fps" ++ PackDeltas.quote
        ++ ": 12.0," ++ PackDeltas.newline
        ++ "  " ++ PackDeltas.quote ++ "rgba" ++ PackDeltas.quote
        ++ ": " ++ PackDeltas.quote ++ "rgba.bin" ++ PackDeltas.quote
        ++ "," ++ PackDeltas.newline
        ++ "  " ++ PackDeltas.quote ++ "scale" ++ PackDeltas.quote
        ++ ": " ++ PackDeltas.quote ++ "scale.bin" ++ PackDeltas.quote
        ++ "," ++ PackDeltas.newline
        ++ "  " ++ PackDeltas.quote ++ "frest" ++ PackDeltas.quote
        ++ ": null" ++ PackDeltas.newline ++ "}")%string.
Proof. repeat split; vm_compute; reflexivity. Qed.

Lemma manifest_without_color_detail_witness :
  exists prefix,
    PackDeltas.json_dumps float_repr_example
      (PackDeltas.meta 5 4 fps_example false)
    = (prefix ++ "," ++ PackDeltas.newline ++ "  " ++ PackDeltas.quote
       ++ "frest" ++ PackDeltas.quote ++ ": null" ++ PackDeltas.newline
       ++ "}")%string.
Proof.
  destruct (manifest_without_color_detail (env := env_example) exp32_example
              float_repr_example good_sequence fps_example []
              (repeat good_frame 4) good_frame good_sequence_valid
              eq_refl) as (_ & _ & H).
  exact H.
Defined.

(** C9: a quaternion with an infinite component, one with a NaN, and one
    whose first component is the finite double [2 ^ 200], infinite once
    converted to float32. *)
Lemma infinite_component_gives_nan :
  normalize_quat [S754_infinity false; f32_zero; f32_zero; f32_zero]
  = [S754_nan; f32_zero; f32_zero; f32_zero]
  /\ normalize_quat [S754_nan; f32_one; f32_zero; f32_zero]
     = [S754_nan; S754_nan; S754_nan; S754_nan]
  /\ decode F8 double_2_200 = Sf64 (S754_finite false (2 ^ 52) 148)
  /\ astype_float32 (decode F8 double_2_200) = S754_infinity false
  /\ normalize_quat [astype_float32 (decode F8 double_2_200);
                     f32_zero; f32_zero; f32_zero]
     = [S754_nan; f32_zero; f32_zero; f32_zero].
Proof. repeat split; reflexivity. Qed.

Lemma normalize_quat_finite_witness :
  Forall (fun x => is_finite x = true)
    (normalize_quat [f32_zero; f32_zero; f32_zero; f32_zero])
  /\ normalize_quat [f32_zero; f32_zero; f32_zero; f32_zero]
     = [f32_zero; f32_zero; f32_zero; f32_zero].
Proof.
  split; [|reflexivity].
  apply (normalize_quat_finite [f32_zero; f32_zero; f32_zero; f32_zero]).
  repeat constructor.
Defined.

(** C10: the component +1.0. *)
Lemma rotation_quantization_clamps_witness :
  exists b,
    0 <= b <= 255
    /\ SFtrunc (np_clip (F32.add (F32.mul f32_one c_128) c_128)
                  f32_zero c_255) = Some b
    /\ (forall cast_undefined, quantize_rot cast_undefined f32_one = b)
    /\ F32.add (F32.mul f32_one c_128) c_128 = F32.of_Z 256
    /\ (forall cast_undefined, quantize_rot cast_undefined f32_one = 255).
Proof.
  apply (rotation_quantization_clamps f32_one). reflexivity.
Defined.

(** C2: the coefficient 0.0 decodes to the colour 0.5 and the byte 128. *)
Lemma color_quantization_witness :
  decode_color f32_zero = c_half
  /\ exists b,
       quantize_unit cast_example (decode_color f32_zero) = b
       /\ SFfloor (F32.add (F32.mul (decode_color f32_zero) c_255) c_half)
          = Some b
       /\ 0 <= b <= 255.
Proof.
  split; [reflexivity|].
  destruct (color_quantization cast_example f32_zero)
    as (_ & _ & H & _).
  destruct (H eq_refl) as (_ & _ & Hb). exact Hb.
Defined.

(** ** The header *)

Lemma xyz_properties_words :
  Forall (fun p : string * string =>
            is_word (fst p) = true /\ is_word (snd p) = true) xyz_properties.
Proof. repeat constructor. Defined.

Lemma read_vertices_from_bytes_witness :
  exists v,
    Header.read_vertices 4300 "a.ply" xyz_file = Header.Parsed (Ok v)
    /\ dtype v = [("x", F4); ("y", F4); ("z", F4)]%string
    /\ List.length (records v) = 2%nat.
Proof.
  destruct (read_vertices_from_bytes (env := env_example)
              4300 "a.ply" CRLF "2" 2 xyz_properties
              [("x", F4); ("y", F4); ("z", F4)]%string (repeat Byte.x00 24)
              (or_intror eq_refl) eq_refl eq_refl xyz_properties_words
              eq_refl eq_refl ltac:(discriminate)
              ltac:(repeat split; try reflexivity; vm_compute; discriminate))
    as [v (Hv & Hd & Hn & _)].
  exists v. split; [exact Hv|]. split; [exact Hd | exact Hn].
Defined.

Lemma declared_count_must_be_granted_witness :
  read_vertices "a.ply" (zero_ply xyz_fields (2 ^ 63) 2) = Err OverflowError
  /\ read_vertices "a.ply" (zero_ply xyz_fields (2 ^ 62) 2) = Err ArrayTooBig
  /\ read_vertices (env := env_small) "a.ply" (zero_ply xyz_fields 100 2)
     = Err (MemoryError 1200)
  /\ exists v,
       read_vertices (env := env_small) "a.ply" (zero_ply xyz_fields 3 2)
       = Ok v.
Proof.
  pose (d := [("x", F4); ("y", F4); ("z", F4)]%string).
  split; [|split; [|split]].
  - destruct (declared_count_must_be_granted (env := env_example) "a.ply"
                (zero_ply xyz_fields (2 ^ 63) 2) (2 ^ 63) d
                eq_refl eq_refl eq_refl ltac:(discriminate))
      as (_ & H & _).
    apply H. right. reflexivity.
  - destruct (declared_count_must_be_granted (env := env_example) "a.ply"
                (zero_ply xyz_fields (2 ^ 62) 2) (2 ^ 62) d
                eq_refl eq_refl eq_refl ltac:(discriminate))
      as (_ & _ & H & _).
    apply H; [split; discriminate | reflexivity].
  - destruct (declared_count_must_be_granted (env := env_small) "a.ply"
                (zero_ply xyz_fields 100 2) 100 d
                eq_refl eq_refl eq_refl ltac:(discriminate))
      as (_ & _ & _ & H).
    apply H; [discriminate | discriminate | reflexivity].
  - destruct (declared_count_must_be_granted (env := env_small) "a.ply"
                (zero_ply xyz_fields 3 2) 3 d
                eq_refl eq_refl eq_refl ltac:(discriminate))
      as (H & _).
    apply H. repeat split; try reflexivity; vm_compute; discriminate.
Defined.

Lemma other_elements_are_skipped_witness :
  Header.parse_header 4300 "a.ply"
    (header_text LF
       (vertex_header binary_format "2" xyz_properties
        ++ ["element"; "face"; "1"]%string :: face_lines ++ end_header)
     ++ repeat Byte.x00 24)
  = Header.Parsed {| vertex_count := Some 2; properties := xyz_properties;
                     payload := repeat Byte.x00 24 |}.
Proof.
  apply (other_elements_are_skipped 4300 "a.ply" LF "2" 2 xyz_properties
           "face" ["1"%string] face_lines (repeat Byte.x00 24)).
  - now left.
  - reflexivity.
  - reflexivity.
  - exact xyz_properties_words.
  - reflexivity.
  - discriminate.
  - repeat constructor.
  - repeat constructor.
  - repeat constructor.
  - simpl. intros H. repeat (destruct H as [H | H]; [discriminate|]).
    exact H.
Defined.

Lemma list_property_is_unsupported_witness :
  Header.read_vertices 4300 "a.ply"
    (header_text LF
       (vertex_header binary_format "2" xyz_properties
        ++ ["property"; "list"; "uchar"; "int"; "vertex_indices"]%string
           :: end_header)
     ++ repeat Byte.x00 24)
  = Header.Parsed (Err (UnsupportedType "list" "a.ply")).
Proof.
  apply (list_property_is_unsupported (env := env_example) 4300 "a.ply" LF "2" 2 xyz_properties
           [("x", F4); ("y", F4); ("z", F4)]%string
           "uchar" "int" "vertex_indices" (repeat Byte.x00 24)).
  - now left.
  - reflexivity.
  - reflexivity.
  - exact xyz_properties_words.
  - reflexivity.
  - reflexivity.
  - reflexivity.
  - reflexivity.
Defined.

Lemma unclosed_header_is_refused_witness :
  Header.read_vertices 4300 "a.ply"
    (header_text LF (vertex_header binary_format "2" xyz_properties))
  = Header.Raised (Header.UnexpectedEOF "a.ply").
Proof.
  apply (unclosed_header_is_refused (env := env_example) 4300 "a.ply" LF
           (vertex_header binary_format "2" xyz_properties)).
  - now left.
  - repeat constructor.
  - simpl. intros H. repeat (destruct H as [H | H]; [discriminate|]).
    exact H.
Defined.

Lemma other_format_is_refused_witness :
  Header.read_vertices 4300 "a.ply"
    (header_text LF
       (vertex_header ascii_format "2" xyz_properties ++ end_header)
     ++ encode "0 0 0")
  = Header.Raised (Header.NotBinaryLittleEndian "a.ply").
Proof.
  apply (other_format_is_refused (env := env_example) 4300 "a.ply" LF
           (vertex_header ascii_format "2" xyz_properties)
           (encode "0 0 0")).
  - now left.
  - repeat constructor.
  - simpl. intros H. repeat (destruct H as [H | H]; [discriminate|]).
    exact H.
  - simpl. intros H. repeat (destruct H as [H | H]; [discriminate|]).
    exact H.
Defined.


(** ** The buffers of the delta packer *)

Lemma rgba_buffer_layout_witness :
  exists bs,
    In ("rgba.bin"%string, Binary bs)
       (fst (PackDeltas.main exp32_example float_repr_example
               good_sequence fps_example []))
    /\ List.length bs = 320%nat.
Proof.
  destruct (rgba_buffer_layout (env := env_example) exp32_example float_repr_example
              good_sequence fps_example [] (repeat good_frame 4)
              good_frame good_sequence_valid) as [bs (Hin & Hlen & _)].
  exists bs. split; [exact Hin | exact Hlen].
Defined.

Lemma scale_buffer_layout_witness :
  exists bs,
    In ("scale.bin"%string, Binary bs)
       (fst (PackDeltas.main exp32_example float_repr_example
               good_sequence fps_example []))
    /\ List.length bs = 320%nat.
Proof.
  destruct (scale_buffer_layout (env := env_example) exp32_example float_repr_example
              good_sequence fps_example [] (repeat good_frame 4)
              good_frame good_sequence_valid) as [bs (Hin & Hlen & _)].
  exists bs. split; [exact Hin | exact Hlen].
Defined.

Lemma pos0_buffer_layout_witness :
  exists bs,
    In ("pos0.bin"%string, Binary bs)
       (fst (PackDeltas.main exp32_example float_repr_example
               good_sequence fps_example []))
    /\ List.length bs = 60%nat.
Proof.
  destruct (pos0_buffer_layout (env := env_example) exp32_example float_repr_example
              good_sequence fps_example [] (repeat good_frame 4)
              good_frame good_sequence_valid)
    as (name0 & f0 & rest & v0 & bs & _ & _ & _ & Hin & Hlen & _).
  exists bs. split; [exact Hin | exact Hlen].
Defined.

Lemma detail_sequence_valid :
  valid_sequence exp32_example (ply_files detail_sequence)
    (repeat detail_frame 2) detail_frame.
Proof.
  split; [|split].
  - repeat (apply Forall2_cons; [vm_compute; reflexivity|]).
    apply Forall2_nil.
  - reflexivity.
  - repeat constructor; discriminate.
Defined.

Lemma color_detail_buffer_witness :
  exists bs,
    In ("frest.bin"%string, Binary bs)
       (fst (PackDeltas.main exp32_example float_repr_example
               detail_sequence fps_example []))
    /\ List.length bs = 432%nat.
Proof.
  destruct (color_detail_buffer (env := env_example) exp32_example float_repr_example
              detail_sequence fps_example [] (repeat detail_frame 2)
              detail_frame detail_sequence_valid eq_refl)
    as [bs (Hmain & _ & Hlen & _)].
  exists bs. split; [|exact Hlen].
  rewrite Hmain. simpl. tauto.
Defined.

Lemma missing_f_rest_aborts_witness :
  PackDeltas.main exp32_example float_repr_example mixed_sequence
    fps_example []
  = ([], Err (MissingFRest "frame_001.ply")).
Proof.
  eapply (missing_f_rest_aborts (env := env_example) exp32_example float_repr_example
            mixed_sequence fps_example []
            [("frame_000.ply"%string, detail_ply 2)]
            "frame_001.ply" (frame_ply 2) [] [detail_frame] detail_frame).
  - reflexivity.
  - apply Forall2_cons; [vm_compute; reflexivity | apply Forall2_nil].
  - reflexivity.
  - repeat constructor; discriminate.
  - vm_compute. reflexivity.
  - reflexivity.
  - reflexivity.
Defined.

Lemma load_frame_requirements_witness :
  PackDeltas.load_frame exp32_example "frame_000.ply"
    (zero_ply ["x"; "y"; "z"; "f_dc_0"; "f_dc_1"; "f_dc_2"; "opacity";
               "rot_0"]%string 1 1)
  = Err (MissingScale "frame_000.ply").
Proof.
  destruct (load_frame_requirements (env := env_example) exp32_example "frame_000.ply"
              (zero_ply ["x"; "y"; "z"; "f_dc_0"; "f_dc_1"; "f_dc_2";
                         "opacity"; "rot_0"]%string 1 1)
              {| dtype := map (fun n => (n, F4))
                            ["x"; "y"; "z"; "f_dc_0"; "f_dc_1"; "f_dc_2";
                             "opacity"; "rot_0"]%string;
                 records := [repeat Byte.x00 32] |}
              eq_refl) as (_ & _ & H).
  apply H; reflexivity.
Defined.

(** ** The directory *)

Lemma no_ply_files_witness :
  PackDeltas.main exp32_example float_repr_example
    [("notes.txt", frame_ply 1); (".ply", frame_ply 1);
     ("a.ply.bak", frame_ply 1)]%string fps_example []
  = ([], Err NoPlyFiles).
Proof.
  destruct (no_ply_files (env := env_example) exp32_example cast_example float_repr_example
              [("notes.txt", frame_ply 1); (".ply", frame_ply 1);
               ("a.ply.bak", frame_ply 1)]%string) as [H _].
  - repeat constructor.
  - apply H.
Defined.

Lemma listing_order_is_irrelevant_witness :
  PackDeltas.main exp32_example float_repr_example good_sequence
    fps_example []
  = PackDeltas.main exp32_example float_repr_example (rev good_sequence)
      fps_example [].
Proof.
  destruct (listing_order_is_irrelevant (env := env_example) exp32_example cast_example
              float_repr_example good_sequence (rev good_sequence)) as [H _].
  - apply Permutation_rev.
  - repeat (apply NoDup_cons;
            [simpl; intros H;
             repeat (destruct H as [H | H]; [discriminate|]); exact H|]).
    apply NoDup_nil.
  - apply H.
Defined.

(** ** The run of the single-frame converter *)

Lemma splat_ply_converts name :
  converts exp32_example cast_example "in" (name, splat_ply)
    (splat_bytes exp32_example cast_example splat_vertices).
Proof. exists splat_vertices. repeat split. Defined.

Lemma convert_main_writes_every_file_witness :
  ConvertPlyToSplatMain.main exp32_example cast_example "in" splat_listing
    "out" []
  = ([("out/b.splat"%string,
       Binary (splat_bytes exp32_example cast_example splat_vertices));
      ("out/a.splat"%string,
       Binary (splat_bytes exp32_example cast_example splat_vertices))],
     Ok tt).
Proof.
  destruct (convert_main_writes_every_file (env := env_example) exp32_example cast_example
              "in" splat_listing "out" []
              [splat_bytes exp32_example cast_example splat_vertices;
               splat_bytes exp32_example cast_example splat_vertices])
    as [H _].
  - discriminate.
  - discriminate.
  - repeat (apply Forall2_cons; [apply splat_ply_converts|]).
    apply Forall2_nil.
  - exact H.
Defined.

Lemma convert_main_stops_at_first_failure_witness :
  ConvertPlyToSplatMain.main exp32_example cast_example "in" broken_listing
    "out" []
  = ([("out/a.splat"%string,
       Binary (splat_bytes exp32_example cast_example splat_vertices))],
     Err (MissingFields "in/b.ply" ["scale_0"; "scale_1"]%string)).
Proof.
  destruct (convert_main_stops_at_first_failure (env := env_example) exp32_example cast_example
              "in" broken_listing "out" []
              [("a.ply"%string, splat_ply)] "b.ply"
              (zero_ply no_scale01_fields 1 1)
              [("c.ply"%string, splat_ply)]
              [splat_bytes exp32_example cast_example splat_vertices]
              (MissingFields "in/b.ply" ["scale_0"; "scale_1"]%string))
    as [H _].
  - discriminate.
  - reflexivity.
  - apply Forall2_cons; [apply splat_ply_converts | apply Forall2_nil].
  - intros st'. reflexivity.
  - exact H.
Defined.

Lemma convert_main_into_current_directory_witness :
  ConvertPlyToSplatMain.main exp32_example cast_example "in" splat_listing
    "." []
  = ([], Err (FileNotFound "")).
Proof.
  destruct (convert_main_into_current_directory (env := env_example) exp32_example cast_example
              "in" splat_listing []) as (_ & _ & H).
  - repeat constructor.
  - apply (H "a.PLY"%string splat_ply [("b.ply"%string, splat_ply)]
             (splat_bytes exp32_example cast_example splat_vertices)).
    + reflexivity.
    + apply splat_ply_converts.
Defined.

(** ** Values *)

Lemma alpha_quantization_witness :
  sigmoid exp32_example f32_zero = c_half
  /\ exists b,
       quantize_unit cast_example
         (np_clip (sigmoid exp32_example f32_zero) f32_zero f32_one) = b
       /\ 0 <= b <= 255.
Proof.
  split; [reflexivity|].
  destruct (alpha_quantization exp32_example cast_example f32_zero eq_refl)
    as (_ & _ & _ & _ & b & Hb & _ & Hr).
  exists b. split; [exact Hb | exact Hr].
Defined.


Lemma float32_codec_round_trip_witness :
  F32.of_bytes (F32.to_bytes f32_one) = f32_one
  /\ F32.to_bytes (F32.of_bytes [Byte.x00; Byte.x00; Byte.x80; Byte.x3f])
     = [Byte.x00; Byte.x00; Byte.x80; Byte.x3f].
Proof.
  destruct float32_codec_round_trip as [H1 H2]. split.
  - apply (H1 f32_one). reflexivity.
  - apply (H2 [Byte.x00; Byte.x00; Byte.x80; Byte.x3f]); reflexivity.
Defined.

End Instances.
